(** * Churn prediction service (app.py): feature encoder and prediction call

    A shallow embedding of [preprocess_data] and [predict] of [app.py].

    The two functions are written over a small model of what they call:
    Python values and binary64 floats, a one-row pandas frame (the code builds
    [pd.DataFrame([data])], one row), and the scikit-learn transformers that
    the module loads from [model/*.pkl].  The pickled objects are not part of
    the repository: they are fields of the global [store], and every theorem
    quantifies over them.  What the transformers compute is the library's
    [transform] / [predict] / [inverse_transform] for objects fitted with the
    library defaults. *)

From Stdlib Require Import ZArith String Ascii List Bool Lia.
From Stdlib Require Import Floats.SpecFloat.
From stdpp Require Import base option list gmap strings fin_maps.

Local Open Scope string_scope.
Local Open Scope Z_scope.

(* ===================================================================== *)
(** ** Binary64 floats (numpy float64, Python float) *)
(* ===================================================================== *)

Module F64.
Definition prec : Z := 53.
Definition emax : Z := 1024.

Definition nan : spec_float := S754_nan.
Definition zero : spec_float := S754_zero false.
(** 1.0 *)
Definition one : spec_float := S754_finite false 4503599627370496 (-52).

Definition add : spec_float → spec_float → spec_float := SFadd prec emax.
Definition sub : spec_float → spec_float → spec_float := SFsub prec emax.
Definition mul : spec_float → spec_float → spec_float := SFmul prec emax.
Definition div : spec_float → spec_float → spec_float := SFdiv prec emax.
Definition ltb : spec_float → spec_float → bool := SFltb.

(** Round an integer to the nearest float, ties to even. *)
Definition of_Z (z : Z) : spec_float := binary_normalize prec emax z 0 false.

(** Round the quotient [m / d] of two positive integers to the nearest
    float, ties to even. *)
Definition of_quotient (s : bool) (m d : Z) : spec_float :=
  let '(q, e, l) := SFdiv_core_binary prec emax m 0 d 0 in
  binary_round_aux prec emax s q e l.

Definition isnan (x : spec_float) : bool :=
  match x with S754_nan => true | _ => false end.
Definition isinf (x : spec_float) : bool :=
  match x with S754_infinity _ => true | _ => false end.
Definition isfinite (x : spec_float) : bool :=
  match x with S754_zero _ | S754_finite _ _ _ => true | _ => false end.

(** [np.finfo(np.float64).eps], 2^-52. *)
Definition eps : spec_float := S754_finite false 1 (-52).
End F64.

Abbreviation float := spec_float.

(* ===================================================================== *)
(** ** Python strings: [str.strip], [repr], [float(str)] *)
(* ===================================================================== *)

(** Strings are sequences of code points U+0000..U+00FF. *)

(** [str.isspace] on one character: the code points below U+0100 that Python
    counts as whitespace. *)
Definition isspace (c : ascii) : bool :=
  let n := nat_of_ascii c in
  ((9 <=? n) && (n <=? 13) || (28 <=? n) && (n <=? 32)
   || (n =? 133) || (n =? 160))%nat.

Fixpoint lstrip (l : list ascii) : list ascii :=
  match l with
  | c :: r => if isspace c then lstrip r else l
  | [] => []
  end.

Definition rstrip (l : list ascii) : list ascii := rev (lstrip (rev l)).

(** [s.strip()] *)
Definition strip (s : string) : string :=
  string_of_list_ascii (rstrip (lstrip (list_ascii_of_string s))).

(** [str.isprintable] on one character, below U+0100. *)
Definition isprintable (c : ascii) : bool :=
  let n := nat_of_ascii c in
  ((32 <=? n) && (n <=? 126) || (161 <=? n) && negb (n =? 173))%nat.

Definition hex_digit (n : nat) : ascii :=
  ascii_of_nat (if (n <? 10)%nat then 48 + n else 87 + n).

(** One character inside [repr(s)]: the quote and the backslash take a
    backslash, tab, newline and carriage return are written with their
    letter, any other unprintable character with its two hexadecimal
    digits. *)
Definition escape (quote c : ascii) : string :=
  if Ascii.eqb c quote || Ascii.eqb c "092" then String "092" (String c EmptyString)
  else if Ascii.eqb c "009" then String "092" "t"
  else if Ascii.eqb c "010" then String "092" "n"
  else if Ascii.eqb c "013" then String "092" "r"
  else if isprintable c then String c EmptyString
  else
    let n := nat_of_ascii c in
    String "092"
      (String "x" (String (hex_digit (n / 16)) (String (hex_digit (n mod 16)) EmptyString))).

(** [repr(s)]: between apostrophes, or between double quotes when the string
    holds an apostrophe and no double quote. *)
Definition repr (s : string) : string :=
  let l := list_ascii_of_string s in
  let quote : ascii :=
    if existsb (Ascii.eqb "'") l && negb (existsb (Ascii.eqb "034") l)
    then "034"%char else "'"%char in
  String quote (String.concat EmptyString (map (escape quote) l)
                +:+ String quote EmptyString).

(** [repr] of a list of strings: [['a', 'b']]. *)
Definition repr_list (l : list string) : string :=
  "[" +:+ String.concat ", " (map repr l) +:+ "]".

Definition digit_of (c : ascii) : option Z :=
  let n := Z.of_nat (nat_of_ascii c) in
  if (48 <=? n) && (n <=? 57) then Some (n - 48) else None.

Definition lower (c : ascii) : ascii :=
  let n := nat_of_ascii c in
  if ((65 <=? n) && (n <=? 90))%nat then ascii_of_nat (n + 32) else c.

(** digitpart ::= digit (["_"] digit)*, after its first digit: the digits are
    accumulated on [acc], [n] counts them. *)
Fixpoint digitpart_rest (acc : Z) (n : Z) (l : list ascii) : Z * Z * list ascii :=
  match l with
  | c :: r =>
      match digit_of c with
      | Some d => digitpart_rest (10 * acc + d) (n + 1) r
      | None =>
          if Ascii.eqb c "_" then
            match r with
            | c2 :: r2 =>
                match digit_of c2 with
                | Some d => digitpart_rest (10 * acc + d) (n + 1) r2
                | None => (acc, n, l)
                end
            | [] => (acc, n, l)
            end
          else (acc, n, l)
      end
  | [] => (acc, n, l)
  end.

Definition digitpart (acc : Z) (l : list ascii) : option (Z * Z * list ascii) :=
  match l with
  | c :: r =>
      match digit_of c with
      | Some d => Some (digitpart_rest (10 * acc + d) 1 r)
      | None => None
      end
  | [] => None
  end.

(** number ::= [digitpart] "." digitpart | digitpart ["."]; the result is the
    integer made of all the digits, the number of digits after the point, the
    number of digits in all, and the rest of the input. *)
Definition number (l : list ascii) : option (Z * Z * Z * list ascii) :=
  match digitpart 0 l with
  | Some (m, n, r) =>
      match r with
      | "."%char :: r1 =>
          match digitpart m r1 with
          | Some (m', k, r2) => Some (m', k, n + k, r2)
          | None => Some (m, 0, n, r1)
          end
      | _ => Some (m, 0, n, r)
      end
  | None =>
      match l with
      | "."%char :: r1 =>
          match digitpart 0 r1 with
          | Some (m', k, r2) => Some (m', k, k, r2)
          | None => None
          end
      | _ => None
      end
  end.

Definition sign (l : list ascii) : bool * list ascii :=
  match l with
  | "-"%char :: r => (true, r)
  | "+"%char :: r => (false, r)
  | _ => (false, l)
  end.

(** exponent ::= ("e" | "E") [sign] digitpart, up to the end of the input. *)
Definition exponent (l : list ascii) : option Z :=
  match l with
  | [] => Some 0
  | c :: r =>
      if Ascii.eqb (lower c) "e" then
        let '(s, r1) := sign r in
        match digitpart 0 r1 with
        | Some (x, _, []) => Some (if s then - x else x)
        | _ => None
        end
      else None
  end.

(** The float nearest to [m * 10^e], for [m > 0] written with [n] digits.
    Beyond 10^400 the value is an infinity and below 10^-400 a zero, as
    rounding gives; the power of ten is not computed there. *)
Definition decimal_to_float (s : bool) (m n e : Z) : float :=
  if m =? 0 then S754_zero s
  else if 400 <? e then S754_infinity s
  else if n + e <? -400 then S754_zero s
  else if 0 <=? e then F64.of_Z ((if s then - m else m) * 10 ^ e)
  else F64.of_quotient s m (10 ^ (- e)).

(** The characters that [float()] skips around a number: the ASCII
    whitespace, and the whitespace above U+007F, which it reads as a space.
    U+001C to U+001F, whitespace for [str.strip], are not skipped. *)
Definition float_isspace (c : ascii) : bool :=
  let n := nat_of_ascii c in
  ((9 <=? n) && (n <=? 13) || (n =? 32) || (n =? 133) || (n =? 160))%nat.

Fixpoint drop_while (p : ascii → bool) (l : list ascii) : list ascii :=
  match l with
  | c :: r => if p c then drop_while p r else l
  | [] => []
  end.

Definition float_strip (s : string) : string :=
  string_of_list_ascii
    (rev (drop_while float_isspace
            (rev (drop_while float_isspace (list_ascii_of_string s))))).

(** [float(s)] for a string: [None] where Python raises [ValueError]. *)
Definition float_of_string (s : string) : option float :=
  let '(sg, l) := sign (list_ascii_of_string (float_strip s)) in
  let word := string_of_list_ascii (map lower l) in
  if decide (word = "inf" ∨ word = "infinity") then Some (S754_infinity sg)
  else if decide (word = "nan") then Some F64.nan
  else
    match number l with
    | Some (m, k, n, r) =>
        match exponent r with
        | Some x => Some (decimal_to_float sg m n (x - k))
        | None => None
        end
    | None => None
    end.

(** Decimal digits of a natural number, for messages. *)
Fixpoint nat_digits (fuel n : nat) (acc : string) : string :=
  match fuel with
  | O => acc
  | S fuel' =>
      let acc' := String (ascii_of_nat (48 + n mod 10)) acc in
      if (n <? 10)%nat then acc' else nat_digits fuel' (n / 10) acc'
  end.

Definition str_of_nat (n : nat) : string := nat_digits (S n) n EmptyString.

Definition str_of_Z (z : Z) : string :=
  if z <? 0 then "-" +:+ str_of_nat (Z.abs_nat z) else str_of_nat (Z.abs_nat z).

(* ===================================================================== *)
(** ** Python values, exceptions, results *)
(* ===================================================================== *)

(** The values a field of the input record can hold: what the form, or any
    caller of [predict], passes in. *)
Inductive pyval :=
  | VStr (s : string)
  | VInt (z : Z)
  | VFloat (x : float)
  | VNone.

#[global] Instance pyval_inhabited : Inhabited pyval := populate VNone.

(** The exceptions of the calls below, all subclasses of [Exception]. *)
Inductive exn :=
  | AttributeError (msg : string)
  | KeyError (key : string)
  | ValueError (msg : string)
  | OverflowError (msg : string)
  | IndexError (msg : string).

(** [str(e)] *)
Definition str_exn (e : exn) : string :=
  match e with
  | KeyError k => repr k
  | AttributeError m | ValueError m | OverflowError m | IndexError m => m
  end.

Inductive res (A : Type) :=
  | Ok (a : A)
  | Raise (e : exn).
Arguments Ok {A} a.
Arguments Raise {A} e.

#[global] Instance res_ret : MRet res := λ A a, Ok a.
#[global] Instance res_bind : MBind res := λ A B f m,
  match m with Ok a => f a | Raise e => Raise e end.

(** Run [body] for each element in turn, threading the updated value, as a
    [for] loop that assigns to one variable does. *)
Fixpoint for_each {A S : Type} (xs : list A) (body : A → S → res S) (s : S) : res S :=
  match xs with
  | [] => Ok s
  | x :: r => s' ← body x s; for_each r body s'
  end.

Fixpoint map_res {A B : Type} (f : A → res B) (xs : list A) : res (list B) :=
  match xs with
  | [] => Ok []
  | x :: r => y ← f x; ys ← map_res f r; Ok (y :: ys)
  end.

(** The library errors.  The class of each is the library's in every
    version; the message is the text of pandas 2, scikit-learn 1 (from 1.1)
    and numpy 1, and other versions word some of them differently. *)
Definition str_accessor_error : exn :=
  AttributeError "Can only use .str accessor with string values!".
Definition float_conversion_error (s : string) : exn :=
  ValueError ("could not convert string to float: " +:+ repr s).
Definition int_overflow_error : exn :=
  OverflowError "int too large to convert to float".
Definition unseen_labels_error (what : string) : exn :=
  ValueError ("y contains previously unseen labels: " +:+ what).
Definition unknown_categories_error (what : string) (col : nat) : exn :=
  ValueError ("Found unknown categories [" +:+ what +:+ "] in column "
              +:+ str_of_nat col +:+ " during transform").
Definition n_features_error (got : nat) (who : string) (want : nat) : exn :=
  ValueError ("X has " +:+ str_of_nat got +:+ " features, but " +:+ who
              +:+ " is expecting " +:+ str_of_nat want +:+ " features as input.").
Definition contains_nan_error (who : string) : exn :=
  ValueError
    ("Input X contains NaN." +:+ String "010" who
     +:+ " does not accept missing values encoded as NaN natively."
     +:+ " For supervised learning, you might want to consider"
     +:+ " sklearn.ensemble.HistGradientBoostingClassifier and Regressor"
     +:+ " which accept missing values encoded as NaNs natively."
     +:+ " Alternatively, it is possible to preprocess the data, for instance"
     +:+ " by using an imputer transformer in a pipeline or drop samples with"
     +:+ " missing values. See https://scikit-learn.org/stable/modules/impute.html"
     +:+ " You can find a list of all estimators that handle NaN values at the"
     +:+ " following page:"
     +:+ " https://scikit-learn.org/stable/modules/impute.html"
     +:+ "#estimators-that-handle-nan-values").
Definition contains_inf_error : exn :=
  ValueError "Input X contains infinity or a value too large for dtype('float64').".

(** The failure the specification calls UnknownCategory: the label encoder's
    or the one-hot encoder's rejection of a value it was not fitted on. *)
Definition unknown_category (e : exn) : Prop :=
  (∃ what, e = unseen_labels_error what)
  ∨ (∃ what col, e = unknown_categories_error what col).

(* ===================================================================== *)
(** ** A one-row pandas frame *)
(* ===================================================================== *)

(** [pd.DataFrame([data])] has one row: a frame is a map from column name to
    the cell of that row.  The input record [data] is a Python dict with
    string keys, the same type. *)
Abbreviation frame := (gmap string pyval).

(** [df[col]] *)
Definition getitem (df : frame) (col : string) : res pyval :=
  match df !! col with
  | Some c => Ok c
  | None => Raise (KeyError col)
  end.

(** The first occurrence of each label, in order ([Index.unique]). *)
Fixpoint unique (l : list string) : list string :=
  match l with
  | [] => []
  | x :: r => x :: filter (λ y, y ≠ x) (unique r)
  end.

(** The [KeyError] of a selection [df[cols]] in which the labels [not_found]
    are not columns: its argument is a sentence, not a label.  (The index in
    the first sentence is on one line, as pandas writes an index of a few
    short labels.) *)
Definition not_in_index_error (cols not_found : list string) : exn :=
  KeyError
    (if decide (length not_found = length cols)
     then "None of [Index(" +:+ repr_list cols
          +:+ ", dtype='object')] are in the [columns]"
     else repr_list (unique not_found) +:+ " not in index").

(** [df[cols]] with a list of labels: the cells in the order of [cols].  The
    labels are looked up together, and those that are not columns are
    reported in one [KeyError]. *)
Definition getitems (df : frame) (cols : list string) : res (list pyval) :=
  match filter (λ c, df !! c = None) cols with
  | [] => map_res (getitem df) cols
  | not_found => Raise (not_in_index_error cols not_found)
  end.

(** [df[cols] = values] *)
Fixpoint setitems (df : frame) (cols : list string) (values : list pyval) : frame :=
  match cols, values with
  | col :: cols', v :: values' => setitems (<[col := v]> df) cols' values'
  | _, _ => df
  end.

(** [series.str.strip()] on the cell of a one-row column.  A column of a
    number has a numeric dtype and no [.str] accessor; a missing value stays
    missing. *)
Definition str_strip (c : pyval) : res pyval :=
  match c with
  | VStr s => Ok (VStr (strip s))
  | VNone => Ok VNone
  | VInt _ | VFloat _ => Raise str_accessor_error
  end.

(** [.replace(' ', np.nan)]: the cell that is the one-space string becomes
    NaN; nothing else is touched. *)
Definition replace_space_nan (c : pyval) : pyval :=
  match c with
  | VStr s => if decide (s = " ") then VFloat F64.nan else c
  | _ => c
  end.

(** Conversion of a cell to float64: [.astype(float)], and the conversion
    numpy and scikit-learn apply to their input. *)
Definition to_float (c : pyval) : res float :=
  match c with
  | VFloat x => Ok x
  | VInt z =>
      let x := F64.of_Z z in
      if F64.isinf x then Raise int_overflow_error else Ok x
  | VNone => Ok F64.nan
  | VStr s =>
      match float_of_string s with
      | Some x => Ok x
      | None => Raise (float_conversion_error s)
      end
  end.

(** The cast [np.hstack] applies to the block of the label columns when it
    joins it to the float blocks: int64 to float64, rounded, never an error.
    The label columns hold integer codes at that point
    ([label_encode] has assigned every one of them). *)
Definition hstack_cast (c : pyval) : float :=
  match c with
  | VInt z => F64.of_Z z
  | VFloat x => x
  | VStr _ | VNone => F64.nan
  end.

Definition astype_float (cs : list pyval) : res (list pyval) :=
  map_res (λ c, x ← to_float c; Ok (VFloat x)) cs.

(** [column.mean()], NaN skipped: the sum of the values that are not NaN over
    their number, NaN when there is none. *)
Definition mean (xs : list float) : float :=
  let vs := filter (λ x, F64.isnan x = false) xs in
  match vs with
  | [] => F64.nan
  | _ => F64.div (foldl F64.add F64.zero vs) (F64.of_Z (Z.of_nat (length vs)))
  end.

(** [column.fillna(m)] on one cell. *)
Definition fillna (m : float) (x : float) : float :=
  if F64.isnan x then m else x.

(** [frame.fillna(frame.mean())] on the one-row frame of the numeric columns:
    each column is filled with the mean of its own single cell. *)
Definition fillna_mean (cs : list pyval) : res (list pyval) :=
  map_res (λ c, x ← to_float c; Ok (VFloat (fillna (mean [x]) x))) cs.

(* ===================================================================== *)
(** ** The fitted transformers (scikit-learn) *)
(* ===================================================================== *)

(** Position of the first occurrence of [s] in [l]. *)
Fixpoint index_of (s : string) (l : list string) : option nat :=
  match l with
  | [] => None
  | x :: r => if decide (x = s) then Some O else S <$> index_of s r
  end.

(** How a cell reads in a message. *)
Definition show_cell (c : pyval) : string :=
  match c with
  | VStr s => repr s
  | VInt z => str_of_Z z
  | VFloat _ => "nan"
  | VNone => "None"
  end.

(** The category tables hold strings: any other cell is in none of them. *)
Definition category_index (c : pyval) (classes : list string) : option nat :=
  match c with
  | VStr s => index_of s classes
  | _ => None
  end.

(** The dtype of a numpy array of strings: Python strings ([object], the
    table of an encoder fitted on a pandas column) or fixed-width strings
    ([<Un], the table of an encoder fitted on a list or an array of
    strings). *)
Inductive dtype :=
  | dtype_object
  | dtype_str.

(** [n] of the dtype [<Un] of an array: the length of its longest entry. *)
Definition itemsize (entries : list string) : nat :=
  max_list (String.length <$> entries) `max` 1.

(** The first [n] characters of a string. *)
Fixpoint truncate (n : nat) (s : string) : string :=
  match n, s with
  | S n', String c r => String c (truncate n' r)
  | _, _ => EmptyString
  end.

(** The conversion of a cell of a string column to [<Un]: the string, or the
    word None for a missing value, cut to [n] characters without any error.
    (A categorical column holds no number when the encoders run: the [.str]
    accessor has raised on it.) *)
Definition astype_str (n : nat) (c : pyval) : pyval :=
  match c with
  | VStr s => VStr (truncate n s)
  | VNone => VStr (truncate n "None")
  | VInt _ | VFloat _ => c
  end.

(** [sklearn.preprocessing.LabelEncoder]: the fitted table [classes_], an
    array of strings. *)
Record LabelEncoder := {
  classes_ : list string;
  classes_dtype : dtype;
}.

(** [column_or_1d(y, dtype=self.classes_.dtype)]: the column is converted to
    the dtype of the table before it is looked up. *)
Definition column_or_1d (le : LabelEncoder) (c : pyval) : pyval :=
  match classes_dtype le with
  | dtype_object => c
  | dtype_str => astype_str (itemsize (classes_ le)) c
  end.

(** [le.transform(column)] on a one-row column: the position of the
    converted value in [classes_]; a value that is not there is an error. *)
Definition LabelEncoder_transform (le : LabelEncoder) (c : pyval) : res pyval :=
  let y := column_or_1d le c in
  match category_index y (classes_ le) with
  | Some i => Ok (VInt (Z.of_nat i))
  | None => Raise (unseen_labels_error (show_cell y))
  end.

(** [le.inverse_transform(y)] on a one-element array: the class at index [y];
    an index outside the table is an error. *)
Definition LabelEncoder_inverse_transform (le : LabelEncoder) (y : Z) : res string :=
  if (0 <=? y) && (y <? Z.of_nat (length (classes_ le))) then
    match classes_ le !! Z.to_nat y with
    | Some s => Ok s
    | None => Raise (unseen_labels_error ("[" +:+ str_of_Z y +:+ "]"))
    end
  else Raise (unseen_labels_error ("[" +:+ str_of_Z y +:+ "]")).

(** [sklearn.preprocessing.OneHotEncoder], fitted with the defaults the
    specification describes: unknown categories are an error, no category is
    dropped, the output is a dense array.  [categories_] is the table of each
    input column, in the column order of the fit. *)
Record OneHotEncoder := { categories_ : list (list string) }.

(** The indicator block of one column: [width] cells, 1.0 at [i]. *)
Definition indicator (width i : nat) : list float :=
  map (λ j, if decide (j = i) then F64.one else F64.zero) (seq 0 width).

(** The columns are looked up left to right; the first unknown value raises. *)
Fixpoint one_hot_columns (col : nat) (cats : list (list string)) (cs : list pyval)
  : res (list float) :=
  match cats, cs with
  | cat :: cats', c :: cs' =>
      match category_index c cat with
      | Some i =>
          rest ← one_hot_columns (S col) cats' cs';
          Ok (indicator (length cat) i ++ rest)%list
      | None => Raise (unknown_categories_error (show_cell c) col)
      end
  | _, _ => Ok []
  end.

(** [one_hot_encoder.transform(frame)] on a one-row frame. *)
Definition OneHotEncoder_transform (enc : OneHotEncoder) (cs : list pyval)
  : res (list float) :=
  if decide (length cs = length (categories_ enc)) then
    one_hot_columns 0 (categories_ enc) cs
  else Raise (n_features_error (length cs) "OneHotEncoder" (length (categories_ enc))).

(** [sklearn.preprocessing.MinMaxScaler]: the fitted per-column [scale_] and
    [min_], and the [data_min_] and [data_max_] they were computed from. *)
Record MinMaxScaler := {
  data_min_ : list float;
  data_max_ : list float;
  scale_ : list float;
  min_ : list float;
}.

(** The library's treatment of a constant column at fit time: a range below
    ten machine epsilons is replaced by 1. *)
Definition handle_zeros_in_scale (range : float) : float :=
  if F64.ltb range (F64.mul (F64.of_Z 10) F64.eps) then F64.one else range.

(** [MinMaxScaler().fit(...)] from the column minima and maxima of the
    training data, feature range (0, 1):
    [scale_ = 1 / handle_zeros(max - min)], [min_ = 0 - min * scale_]. *)
Definition MinMaxScaler_fit (mins maxs : list float) : MinMaxScaler :=
  let scales :=
    zip_with (λ lo hi, F64.div F64.one (handle_zeros_in_scale (F64.sub hi lo)))
             mins maxs in
  {| data_min_ := mins;
     data_max_ := maxs;
     scale_ := scales;
     min_ := zip_with (λ lo s, F64.sub F64.zero (F64.mul lo s)) mins scales |}.

(** Input validation of the estimators: NaN and infinities are rejected,
    NaN first; the scaler lets NaN through. *)
Definition assert_all_finite (allow_nan : bool) (who : string) (xs : list float)
  : res unit :=
  if negb allow_nan && existsb F64.isnan xs then Raise (contains_nan_error who)
  else if existsb F64.isinf xs then Raise contains_inf_error
  else Ok tt.

Definition check_n_features (who : string) (want : nat) (xs : list float) : res unit :=
  if decide (length xs = want) then Ok tt
  else Raise (n_features_error (length xs) who want).

(** [min_max_scaler.transform(frame)] on a one-row frame:
    [X * scale_ + min_], NaN kept as NaN. *)
Definition MinMaxScaler_transform (sc : MinMaxScaler) (cs : list pyval)
  : res (list float) :=
  xs ← map_res to_float cs;
  _ ← assert_all_finite true "MinMaxScaler" xs;
  _ ← check_n_features "MinMaxScaler" (length (scale_ sc)) xs;
  Ok (zip_with F64.add (zip_with F64.mul xs (scale_ sc)) (min_ sc)).

(** [sklearn.linear_model.LogisticRegression], binary: the fitted weights,
    the intercept and the class labels of the training target. *)
Record LogisticRegression := {
  coef_ : list float;
  intercept_ : float;
  model_classes_ : list Z;
}.

(** [X @ coef_.T + intercept_] for one row, summed left to right. *)
Definition decision_function (m : LogisticRegression) (xs : list float) : float :=
  F64.add (foldl F64.add F64.zero (zip_with F64.mul xs (coef_ m))) (intercept_ m).

(** [model.predict(X)] on a one-row array: the input is validated, then the
    class is [classes_[score > 0]]. *)
Definition LogisticRegression_predict (m : LogisticRegression) (xs : list float)
  : res Z :=
  _ ← assert_all_finite false "LogisticRegression" xs;
  _ ← check_n_features "LogisticRegression" (length (coef_ m)) xs;
  let i := if F64.ltb F64.zero (decision_function m xs) then 1%nat else 0%nat in
  match model_classes_ m !! i with
  | Some y => Ok y
  | None => Raise (IndexError "index out of bounds")
  end.

(* ===================================================================== *)
(** ** The module's globals and the effects of its functions *)
(* ===================================================================== *)

(** What the functions print. *)
Inductive output :=
  | PrintFrame (df : frame)
  | PrintError (e : exn).

(** The process state: the five objects loaded by [joblib.load] when the
    module is imported, and the standard output. *)
Record store := {
  label_encoders : gmap string LabelEncoder;
  one_hot_encoder : OneHotEncoder;
  min_max_scaler : MinMaxScaler;
  model : LogisticRegression;
  le_target : LabelEncoder;
  stdout : list output;
}.

(** A computation reads and writes the store and returns or raises. *)
Definition M (A : Type) : Type := store → res A * store.

#[global] Instance M_ret : MRet M := λ A a s, (Ok a, s).
#[global] Instance M_bind : MBind M := λ A B f m s,
  match m s with
  | (Ok a, s') => f a s'
  | (Raise e, s') => (Raise e, s')
  end.

(** A call that touches no global. *)
Definition lift {A : Type} (r : res A) : M A := λ s, (r, s).

(** Reading a global. *)
Definition global {A : Type} (f : store → A) : M A := λ s, (Ok (f s), s).

(** [print(...)] *)
Definition print (o : output) : M unit := λ s,
  (Ok tt,
   {| label_encoders := label_encoders s;
      one_hot_encoder := one_hot_encoder s;
      min_max_scaler := min_max_scaler s;
      model := model s;
      le_target := le_target s;
      stdout := (stdout s ++ [o])%list |}).

(** [try: body except Exception as e: handler(e)] *)
Definition try_except {A : Type} (body : M A) (handler : exn → M A) : M A := λ s,
  match body s with
  | (Ok a, s') => (Ok a, s')
  | (Raise e, s') => handler e s'
  end.

Fixpoint for_each_M {A S : Type} (xs : list A) (body : A → S → M S) (s : S) : M S :=
  match xs with
  | [] => mret s
  | x :: r => s' ← body x s; for_each_M r body s'
  end.

(** [d[key]] on a Python dict. *)
Definition dict_getitem {V : Type} (d : gmap string V) (key : string) : res V :=
  match d !! key with
  | Some v => Ok v
  | None => Raise (KeyError key)
  end.

(* ===================================================================== *)
(** ** app.py *)
(* ===================================================================== *)

Definition label_encode_cols : list string :=
  ["Partner"; "Dependents"; "PhoneService"; "PaperlessBilling"; "gender"].

Definition one_hot_encode_cols : list string :=
  ["MultipleLines"; "InternetService"; "OnlineSecurity"; "OnlineBackup";
   "DeviceProtection"; "TechSupport"; "StreamingTV"; "StreamingMovies";
   "Contract"; "PaymentMethod"].

Definition min_max_scale_cols : list string :=
  ["tenure"; "MonthlyCharges"; "TotalCharges"].

(** [df[col] = df[col].str.strip()] *)
Definition strip_column (col : string) (df : frame) : res frame :=
  c ← getitem df col; c' ← str_strip c; Ok (<[col := c']> df).

(** [for col in label_encode_cols + one_hot_encode_cols: ...] *)
Definition strip_columns (df : frame) : res frame :=
  for_each (label_encode_cols ++ one_hot_encode_cols)%list strip_column df.

(** [df[cols] = df[cols].replace(' ', np.nan).astype(float)] *)
Definition coerce_numeric (df : frame) : res frame :=
  cs ← getitems df min_max_scale_cols;
  cs' ← astype_float (map replace_space_nan cs);
  Ok (setitems df min_max_scale_cols cs').

(** [df[cols] = df[cols].fillna(df[cols].mean())] *)
Definition impute_numeric (df : frame) : res frame :=
  cs ← getitems df min_max_scale_cols;
  cs' ← fillna_mean cs;
  Ok (setitems df min_max_scale_cols cs').

(** [le = label_encoders[col]; df[col] = le.transform(df[col])] *)
Definition label_encode_column (col : string) (df : frame) : M frame :=
  encoders ← global label_encoders;
  le ← lift (dict_getitem encoders col);
  c ← lift (getitem df col);
  c' ← lift (LabelEncoder_transform le c);
  mret (<[col := c']> df).

(** [for col in label_encode_cols: ...] *)
Definition label_encode (df : frame) : M frame :=
  for_each_M label_encode_cols label_encode_column df.

Definition preprocess_data (data : frame) : M (list float) :=
  let df := data in
  df ← lift (strip_columns df);
  df ← lift (coerce_numeric df);
  df ← lift (impute_numeric df);
  df ← label_encode df;
  enc ← global one_hot_encoder;
  one_hot_encoded ←
    lift (cs ← getitems df one_hot_encode_cols; OneHotEncoder_transform enc cs);
  sc ← global min_max_scaler;
  scaled_numerical ←
    lift (cs ← getitems df min_max_scale_cols; MinMaxScaler_transform sc cs);
  labels ← lift (cs ← getitems df label_encode_cols; Ok (map hstack_cast cs));
  let X_processed := (labels ++ scaled_numerical ++ one_hot_encoded)%list in
  _ ← print (PrintFrame df);
  mret X_processed.

(** [data = {"gender": gender, "SeniorCitizen": senior_citizen, ...}] *)
Definition input_record
  (gender senior_citizen partner dependents tenure phone_service multiple_lines
   internet_service online_security online_backup device_protection tech_support
   streaming_tv streaming_movies contract paperless_billing payment_method
   monthly_charges total_charges : pyval) : frame :=
  list_to_map
    [("gender", gender);
     ("SeniorCitizen", senior_citizen);
     ("Partner", partner);
     ("Dependents", dependents);
     ("tenure", tenure);
     ("PhoneService", phone_service);
     ("MultipleLines", multiple_lines);
     ("InternetService", internet_service);
     ("OnlineSecurity", online_security);
     ("OnlineBackup", online_backup);
     ("DeviceProtection", device_protection);
     ("TechSupport", tech_support);
     ("StreamingTV", streaming_tv);
     ("StreamingMovies", streaming_movies);
     ("Contract", contract);
     ("PaperlessBilling", paperless_billing);
     ("PaymentMethod", payment_method);
     ("MonthlyCharges", monthly_charges);
     ("TotalCharges", total_charges)].

(** The body of the [try] block: the calls made on the record. *)
Definition predict_record (data : frame) : M string :=
  try_except
    (X_new ← preprocess_data data;
     m ← global model;
     prediction ← lift (LogisticRegression_predict m X_new);
     le ← global le_target;
     prediction ← lift (LabelEncoder_inverse_transform le prediction);
     mret (if decide (prediction = "Yes") then "Churn" else "No Churn"))
    (λ e, _ ← print (PrintError e); mret (str_exn e)).

Definition predict
  (gender senior_citizen partner dependents tenure phone_service multiple_lines
   internet_service online_security online_backup device_protection tech_support
   streaming_tv streaming_movies contract paperless_billing payment_method
   monthly_charges total_charges : pyval) : M string :=
  let data :=
    input_record gender senior_citizen partner dependents tenure phone_service
      multiple_lines internet_service online_security online_backup
      device_protection tech_support streaming_tv streaming_movies contract
      paperless_billing payment_method monthly_charges total_charges in
  predict_record data.

(* ===================================================================== *)
(** ** A fixture: transformers fitted on the categories of the form *)
(* ===================================================================== *)

(** The label encoders of the fixture are fitted on lists of strings: their
    tables are fixed-width arrays. *)
Definition yes_no : LabelEncoder :=
  {| classes_ := ["No"; "Yes"]; classes_dtype := dtype_str |}.
Definition internet_options : list string := ["No"; "No internet service"; "Yes"].

Definition fixture_one_hot : OneHotEncoder :=
  {| categories_ :=
       [["No"; "No phone service"; "Yes"];
        ["DSL"; "Fiber optic"; "No"];
        internet_options; internet_options; internet_options;
        internet_options; internet_options; internet_options;
        ["Month-to-month"; "One year"; "Two year"];
        ["Bank transfer (automatic)"; "Credit card (automatic)";
         "Electronic check"; "Mailed check"]] |}.

Definition fixture_model : LogisticRegression :=
  {| coef_ := map F64.of_Z
       [0; 0; 0; 1; 0;  -4; 1; 0;
        0; 0; 0;  0; 1; 0;  0; 0; 0;  0; 0; 0;  0; 0; 0;  0; 0; 0;  0; 0; 0;
        0; 0; 0;  1; 0; -1;  0; 0; 0; 0];
     intercept_ := F64.zero;
     model_classes_ := [0; 1] |}.

Definition fixture_store (scaler : MinMaxScaler) : store :=
  {| label_encoders :=
       list_to_map
         [("Partner", yes_no); ("Dependents", yes_no); ("PhoneService", yes_no);
          ("PaperlessBilling", yes_no);
          ("gender", {| classes_ := ["Female"; "Male"]; classes_dtype := dtype_str |})];
     one_hot_encoder := fixture_one_hot;
     min_max_scaler := scaler;
     model := fixture_model;
     le_target := yes_no;
     stdout := [] |}.

(** Scaler fitted on tenure 0..72, monthly charges 18..118, total 18..8684. *)
Definition fixture_scaler : MinMaxScaler :=
  MinMaxScaler_fit (map F64.of_Z [0; 18; 18]) (map F64.of_Z [72; 118; 8684]).

(** The scenario record of the specification. *)
Definition scenario_record (total_charges : pyval) : frame :=
  input_record (VStr "Female") (VInt 0) (VStr "Yes") (VStr "No") (VInt 12)
    (VStr "Yes") (VStr "No") (VStr "DSL") (VStr "Yes") (VStr "No") (VStr "No")
    (VStr "No") (VStr "No") (VStr "No") (VStr "One year") (VStr "No")
    (VStr "Mailed check") (VFloat (F64.of_Z 50)) total_charges.

(** The same record as arguments of [predict]. *)
Definition scenario (total_charges : pyval) : M string :=
  predict (VStr "Female") (VInt 0) (VStr "Yes") (VStr "No") (VInt 12)
    (VStr "Yes") (VStr "No") (VStr "DSL") (VStr "Yes") (VStr "No") (VStr "No")
    (VStr "No") (VStr "No") (VStr "No") (VStr "One year") (VStr "No")
    (VStr "Mailed check") (VFloat (F64.of_Z 50)) total_charges.

(* ===================================================================== *)
(** ** Notions used by the statements *)
(* ===================================================================== *)

(** A string of whitespace only. *)
Definition whitespace (w : string) : Prop :=
  forallb isspace (list_ascii_of_string w) = true.

(** A string of the whitespace that [float()] skips. *)
Definition float_whitespace (w : string) : Prop :=
  forallb float_isspace (list_ascii_of_string w) = true.

(** Two process states with the same five loaded objects; the standard
    output may differ. *)
Definition same_artifacts (s t : store) : Prop :=
  label_encoders s = label_encoders t
  ∧ one_hot_encoder s = one_hot_encoder t
  ∧ min_max_scaler s = min_max_scaler t
  ∧ model s = model t
  ∧ le_target s = le_target t.

(** Two results that are both values, related by [R], or both the same
    exception. *)
Inductive rel_res {A : Type} (R : A → A → Prop) : res A → res A → Prop :=
  | rel_res_ok a a' : R a a' → rel_res R (Ok a) (Ok a')
  | rel_res_raise e : rel_res R (Raise e) (Raise e).

(** Two computations that, from states with the same artifacts, give related
    results and leave the artifacts as they were. *)
Definition rel_M {A : Type} (R : A → A → Prop) (m m' : M A) : Prop :=
  ∀ s s', same_artifacts s s' →
    rel_res R (m s).1 (m' s').1
    ∧ same_artifacts s (m s).2
    ∧ same_artifacts s' (m' s').2.

(** Two frames with the same cell in each of the columns [cols]. *)
Definition agree_on (cols : list string) (df df' : frame) : Prop :=
  ∀ c, c ∈ cols → df !! c = df' !! c.

(** The columns [preprocess_data] names. *)
Definition used_cols : list string :=
  (label_encode_cols ++ one_hot_encode_cols ++ min_max_scale_cols)%list.

(** One round of the label-encoding loop as a function of the encoders it
    reads: [label_encode_column] without the store. *)
Definition label_column (encoders : gmap string LabelEncoder)
    (col : string) (df : frame) : res frame :=
  le ← dict_getitem encoders col;
  c ← getitem df col;
  c' ← LabelEncoder_transform le c;
  Ok (<[col := c']> df).

(** The string a categorical column holds once stripped. *)
Definition cleaned (data : frame) (col : string) : string :=
  match data !! col with
  | Some (VStr v) => strip v
  | _ => EmptyString
  end.

(** The feature vector as the specification describes it, field by field
    from the input record: the codes of the five label columns, the three
    scaled numbers, the one-hot block. *)
Module Spec.
(** Position of the cleaned string in the column's category table. *)
Definition label_code (s : store) (data : frame) (col : string) : Z :=
  match label_encoders s !! col with
  | Some le => Z.of_nat (default 0%nat (index_of (cleaned data col) (classes_ le)))
  | None => 0
  end.

Definition label_block (s : store) (data : frame) : list float :=
  map (λ col, F64.of_Z (label_code s data col)) label_encode_cols.

(** The number in a numeric column; a column with no number is missing. *)
Definition number (data : frame) (col : string) : float :=
  match data !! col with
  | Some (VInt z) => F64.of_Z z
  | Some (VFloat x) => x
  | _ => F64.nan
  end.

Definition scaled_block (s : store) (data : frame) : list float :=
  zip_with F64.add
    (zip_with F64.mul (map (number data) min_max_scale_cols)
       (scale_ (min_max_scaler s)))
    (min_ (min_max_scaler s)).

(** One indicator block per one-hot column, as wide as the column's
    category table, in the order of the columns. *)
Definition one_hot_blocks (data : frame) (cols : list string)
    (cats : list (list string)) : list (list float) :=
  zip_with
    (λ col cat, indicator (length cat) (default 0%nat (index_of (cleaned data col) cat)))
    cols cats.

Definition one_hot_block (s : store) (data : frame) : list float :=
  concat (one_hot_blocks data one_hot_encode_cols (categories_ (one_hot_encoder s))).

Definition one_hot_width (s : store) : nat :=
  sum_list (length <$> categories_ (one_hot_encoder s)).

Definition feature_vector (s : store) (data : frame) : list float :=
  (label_block s data ++ scaled_block s data ++ one_hot_block s data)%list.
End Spec.

(** A categorical field within its domain: a string that, stripped, is one
    of the categories the encoder of its column was fitted on. *)
Definition valid_category (data : frame) (col : string) (classes : list string) : Prop :=
  ∃ v, data !! col = Some (VStr v) ∧ strip v ∈ classes.

(** A numeric field within its domain: an integer or a float, finite. *)
Definition valid_number (data : frame) (col : string) : Prop :=
  ∃ c, data !! col = Some c
       ∧ match c with
         | VInt z => F64.isfinite (F64.of_Z z) = true
         | VFloat x => F64.isfinite x = true
         | _ => False
         end.

(** A numeric field that the coercion turns into the float
    [Spec.number], NaN included, and not into an infinity. *)
Definition coercible (data : frame) (col : string) : Prop :=
  ∃ c, data !! col = Some c
       ∧ to_float (replace_space_nan c) = Ok (Spec.number data col)
       ∧ F64.isinf (Spec.number data col) = false.

(** The categorical fields of a record are within the domains of the fitted
    encoders: a label encoder for each label column, and the one-hot
    encoder's tables for the one-hot columns, in their order. *)
Definition valid_categories (s : store) (data : frame) : Prop :=
  Forall (λ col, ∃ le, label_encoders s !! col = Some le
                       ∧ valid_category data col (classes_ le))
         label_encode_cols
  ∧ Forall2 (valid_category data) one_hot_encode_cols
            (categories_ (one_hot_encoder s)).

(** The scaler was fitted on the three numeric columns. *)
Definition fitted_scaler (s : store) : Prop :=
  length (scale_ (min_max_scaler s)) = length min_max_scale_cols
  ∧ length (min_ (min_max_scaler s)) = length min_max_scale_cols.

(** A record that the encoder takes to its end. *)
Definition encodable (s : store) (data : frame) : Prop :=
  valid_categories s data
  ∧ Forall (coercible data) min_max_scale_cols
  ∧ fitted_scaler s.

(** A valid input record: every field the encoder reads is within its
    declared domain. *)
Definition valid_record (s : store) (data : frame) : Prop :=
  valid_categories s data
  ∧ Forall (valid_number data) min_max_scale_cols
  ∧ fitted_scaler s.

(** [preprocess_data] as a function of the store it reads: the frame it
    prints and the vector it returns, or the exception it raises.
    [preprocess_data_encode] below relates the two. *)
Definition encode (s : store) (data : frame) : res (frame * list float) :=
  df ← strip_columns data;
  df ← coerce_numeric df;
  df ← impute_numeric df;
  df ← for_each label_encode_cols (label_column (label_encoders s)) df;
  one_hot_encoded ←
    (cs ← getitems df one_hot_encode_cols;
     OneHotEncoder_transform (one_hot_encoder s) cs);
  scaled_numerical ←
    (cs ← getitems df min_max_scale_cols;
     MinMaxScaler_transform (min_max_scaler s) cs);
  labels ← (cs ← getitems df label_encode_cols; Ok (map hstack_cast cs));
  Ok (df, (labels ++ scaled_numerical ++ one_hot_encoded)%list).

(** The string that a label encoder looks up for a string [v]: [v] itself
    in a table of Python strings, [v] cut to the width of the table in a
    fixed-width one. *)
Definition looked_up (le : LabelEncoder) (v : string) : string :=
  match classes_dtype le with
  | dtype_object => v
  | dtype_str => truncate (itemsize (classes_ le)) v
  end.


(** The encoders were fitted on the columns the code encodes: a label
    encoder for each label column, a category table for each one-hot
    column. *)
Definition fitted_encoders (s : store) : Prop :=
  (∀ col, col ∈ label_encode_cols → is_Some (label_encoders s !! col))
  ∧ length (categories_ (one_hot_encoder s)) = length one_hot_encode_cols.

(** String normalisation and numeric coercion succeed on the record: the
    categorical fields are strings (or missing) and the numeric fields
    convert to floats. *)
Definition normalised (data : frame) : Prop :=
  ∃ df1 df2, strip_columns data = Ok df1 ∧ coerce_numeric df1 = Ok df2.


(* ===================================================================== *)
(** ** Further notions: effects, exceptions, the form *)
(* ===================================================================== *)

(** The calls of the [try] block after [preprocess_data], as a function of
    the store they read: the classifier, the decoding of its class, the
    answer. *)
Definition classify (s : store) (X_new : list float) : res string :=
  prediction ← LogisticRegression_predict (model s) X_new;
  prediction ← LabelEncoder_inverse_transform (le_target s) prediction;
  Ok (if decide (prediction = "Yes") then "Churn" else "No Churn").

(** The store after [print(o)]. *)
Definition printed (o : output) (s : store) : store := (print o s).2.

(** The exceptions that report a bad value in the record: the [.str]
    accessor's [AttributeError], the [ValueError]s of the conversion and of
    the transformers, the [OverflowError] of the conversion.  A [KeyError]
    or an [IndexError] is not one of them. *)
Definition input_error (e : exn) : Prop :=
  match e with
  | AttributeError _ | ValueError _ | OverflowError _ => True
  | KeyError _ | IndexError _ => False
  end.

(** A record, or a frame, with every column the encoder names. *)
Definition has_columns (df : frame) : Prop :=
  ∀ c, c ∈ used_cols → is_Some (df !! c).

(** A cell that holds a number. *)
Definition is_number (c : pyval) : Prop :=
  match c with
  | VInt _ | VFloat _ => True
  | VStr _ | VNone => False
  end.

(** The float that the coercion makes of a numeric field:
    [.replace(' ', np.nan).astype(float)] on its cell. *)
Definition reads_as (data : frame) (col : string) (x : float) : Prop :=
  ∃ c, data !! col = Some c ∧ to_float (replace_space_nan c) = Ok x.

(** The components of the form: [gr.Radio(label, choices)] and
    [gr.Number(label)]. *)
Inductive component :=
  | Radio (label : string) (choices : list string)
  | Number (label : string).

(** [inputs], the form of the interface. *)
Definition inputs : list component :=
  [Radio "Gender" ["Female"; "Male"];
   Number "Senior Citizen (0 or 1)";
   Radio "Partner" ["Yes"; "No"];
   Radio "Dependents" ["Yes"; "No"];
   Number "Tenure (integer)";
   Radio "Phone Service" ["Yes"; "No"];
   Radio "Multiple Lines" ["Yes"; "No"; "No phone service"];
   Radio "Internet Service" ["DSL"; "Fiber optic"; "No"];
   Radio "Online Security" ["Yes"; "No"; "No internet service"];
   Radio "Online Backup" ["Yes"; "No"; "No internet service"];
   Radio "Device Protection" ["Yes"; "No"; "No internet service"];
   Radio "Tech Support" ["Yes"; "No"; "No internet service"];
   Radio "Streaming TV" ["Yes"; "No"; "No internet service"];
   Radio "Streaming Movies" ["Yes"; "No"; "No internet service"];
   Radio "Contract" ["Month-to-month"; "One year"; "Two year"];
   Radio "Paperless Billing" ["Yes"; "No"];
   Radio "Payment Method"
     ["Electronic check"; "Mailed check"; "Bank transfer (automatic)";
      "Credit card (automatic)"];
   Number "Monthly Charges (float)";
   Number "Total Charges (float)"].

(** [gr.Interface(fn=predict, inputs=inputs, ...)]: the interface calls
    [predict] with the values of the components, one positional argument
    per component, in the order of [inputs]. *)
Definition interface_fn (values : list pyval) : option (M string) :=
  match values with
  | [v1; v2; v3; v4; v5; v6; v7; v8; v9; v10; v11; v12; v13; v14; v15; v16;
     v17; v18; v19] =>
      Some (predict v1 v2 v3 v4 v5 v6 v7 v8 v9 v10 v11 v12 v13 v14 v15 v16
              v17 v18 v19)
  | _ => None
  end.

(** The keys of the dictionary that [predict] builds, in the order of its
    parameters. *)
Definition record_keys : list string :=
  ["gender"; "SeniorCitizen"; "Partner"; "Dependents"; "tenure"; "PhoneService";
   "MultipleLines"; "InternetService"; "OnlineSecurity"; "OnlineBackup";
   "DeviceProtection"; "TechSupport"; "StreamingTV"; "StreamingMovies";
   "Contract"; "PaperlessBilling"; "PaymentMethod"; "MonthlyCharges";
   "TotalCharges"].

(** The component whose value ends in column [col], and the choices it
    offers when it is a radio group. *)
Definition form_field (col : string) : option component :=
  (list_to_map (zip record_keys inputs) : gmap string component) !! col.

Definition choices_of (col : string) : list string :=
  match form_field col with
  | Some (Radio _ choices) => choices
  | _ => []
  end.

(** A value that a filled component passes: one of the choices of a radio
    group, a finite number of a number box. *)
Definition filled (w : component) (v : pyval) : Prop :=
  match w with
  | Radio _ choices => ∃ c, c ∈ choices ∧ v = VStr c
  | Number _ =>
      match v with
      | VInt z => F64.isfinite (F64.of_Z z) = true
      | VFloat x => F64.isfinite x = true
      | _ => False
      end
  end.

(** The transformers know the form: every choice of a radio group is a
    category of the encoder of its column, and the scaler has the three
    numeric columns. *)
Definition form_fitted (s : store) : Prop :=
  Forall (λ col, ∃ le, label_encoders s !! col = Some le
                       ∧ choices_of col ⊆ classes_ le)
         label_encode_cols
  ∧ Forall2 (λ col cat, choices_of col ⊆ cat) one_hot_encode_cols
            (categories_ (one_hot_encoder s))
  ∧ fitted_scaler s.
(* ===================================================================== *)
(** ** Whitespace and [strip] *)
(* ===================================================================== *)

Lemma list_ascii_of_string_app (a b : string) :
  list_ascii_of_string (a +:+ b)
  = (list_ascii_of_string a ++ list_ascii_of_string b)%list.
Proof. induction a as [|c a IH]; simpl; [done | by rewrite IH]. Qed.

Lemma lstrip_spaces (w l : list ascii) :
  forallb isspace w = true → lstrip (w ++ l)%list = lstrip l.
Proof.
  induction w as [|c w IH]; simpl; [done |].
  intros [Hc Hw]%andb_prop. rewrite Hc. by apply IH.
Qed.

Lemma lstrip_app (v w : list ascii) :
  lstrip (v ++ w)%list
  = match lstrip v with [] => lstrip w | _ => (lstrip v ++ w)%list end.
Proof.
  induction v as [|c v IH]; simpl.
  - by destruct (lstrip w).
  - destruct (isspace c); [apply IH | done].
Qed.

Lemma forallb_isspace_rev (w : list ascii) :
  forallb isspace (rev w) = forallb isspace w.
Proof.
  induction w as [|c w IH]; simpl; [done |].
  rewrite forallb_app, IH. simpl. by rewrite andb_true_r, andb_comm.
Qed.

Lemma rstrip_spaces (l w : list ascii) :
  forallb isspace w = true → rstrip (l ++ w)%list = rstrip l.
Proof.
  intros Hw. unfold rstrip. rewrite rev_app_distr, lstrip_spaces; [done |].
  by rewrite forallb_isspace_rev.
Qed.

Lemma lstrip_all_spaces (w : list ascii) :
  forallb isspace w = true → lstrip w = [].
Proof.
  intros Hw. rewrite <- (app_nil_r w). by rewrite lstrip_spaces.
Qed.

(** Padding a string with whitespace on either side does not change what
    [strip] returns. *)
Lemma strip_padded (w1 v w2 : string) :
  whitespace w1 → whitespace w2 → strip (w1 +:+ v +:+ w2) = strip v.
Proof.
  unfold whitespace, strip. intros H1 H2. f_equal.
  rewrite !list_ascii_of_string_app, lstrip_spaces by done.
  rewrite lstrip_app.
  destruct (lstrip (list_ascii_of_string v)) as [|c r] eqn:Hv.
  - by rewrite lstrip_all_spaces.
  - by rewrite rstrip_spaces.
Qed.

(* ===================================================================== *)
(** ** Single-row imputation *)
(* ===================================================================== *)

(** The mean of a one-cell column is NaN exactly when the cell is: filling
    the cell with it changes nothing. *)
Lemma fillna_mean_single (x : float) : fillna (mean [x]) x = x.
Proof. by destruct x. Qed.

(* ===================================================================== *)
(** ** Relating two runs *)
(* ===================================================================== *)

#[global] Instance same_artifacts_equiv : Equivalence same_artifacts.
Proof.
  split.
  - by intros s.
  - intros s t (?&?&?&?&?). by repeat split.
  - intros s t u (?&?&?&?&?) (?&?&?&?&?). repeat split; congruence.
Qed.

Lemma rel_res_eq {A : Type} (r r' : res A) : rel_res eq r r' → r = r'.
Proof. by intros [a a' ->|e]. Qed.

Lemma rel_res_refl {A : Type} (r : res A) : rel_res eq r r.
Proof. destruct r; by constructor. Qed.

Lemma rel_res_bind {A B : Type} (R : A → A → Prop) (R' : B → B → Prop)
    (m m' : res A) (k k' : A → res B) :
  rel_res R m m' →
  (∀ a a', R a a' → rel_res R' (k a) (k' a')) →
  rel_res R' (m ≫= k) (m' ≫= k').
Proof. intros [a a' Ha|e] Hk; simpl; [by apply Hk | constructor]. Qed.

Lemma for_each_rel {A S : Type} (R : S → S → Prop) (xs : list A)
    (body body' : A → S → res S) :
  (∀ x, x ∈ xs → ∀ s s', R s s' → rel_res R (body x s) (body' x s')) →
  ∀ s s', R s s' → rel_res R (for_each xs body s) (for_each xs body' s').
Proof.
  induction xs as [|x xs IH]; intros Hbody s s' Hs; simpl.
  - by constructor.
  - apply rel_res_bind with (R := R).
    + apply Hbody; [left | done].
    + apply IH. intros y Hy. apply Hbody. by right.
Qed.

Lemma rel_M_ret {A : Type} (R : A → A → Prop) (a a' : A) :
  R a a' → rel_M R (mret a) (mret a').
Proof. intros Ha s s' Hs. simpl. split; [by constructor | done]. Qed.

Lemma rel_M_lift {A : Type} (R : A → A → Prop) (r r' : res A) :
  rel_res R r r' → rel_M R (lift r) (lift r').
Proof. intros Hr s s' Hs. by simpl. Qed.

Lemma rel_M_global {A : Type} (f : store → A) :
  (∀ s s', same_artifacts s s' → f s = f s') →
  rel_M eq (global f) (global f).
Proof.
  intros Hf s s' Hs. simpl. split; [|done].
  constructor. by apply Hf.
Qed.

Lemma rel_M_print (o o' : output) :
  rel_M (λ _ _, True) (print o) (print o').
Proof. intros s s' Hs. simpl. split; [by constructor | done]. Qed.

Lemma rel_M_bind {A B : Type} (R : A → A → Prop) (R' : B → B → Prop)
    (m m' : M A) (k k' : A → M B) :
  rel_M R m m' →
  (∀ a a', R a a' → rel_M R' (k a) (k' a')) →
  rel_M R' (m ≫= k) (m' ≫= k').
Proof.
  intros Hm Hk s s' Hs.
  destruct (Hm s s' Hs) as (Hr & Ht & Ht').
  unfold mbind, M_bind.
  destruct (m s) as [r t], (m' s') as [r' t']; simpl in *.
  destruct Hr as [a a' Ha|e]; simpl; [| split; [constructor | done]].
  assert (same_artifacts t t') as Htt by (by rewrite <- Ht, <- Ht').
  destruct (Hk a a' Ha t t' Htt) as (Hr2 & Hu & Hu').
  split; [done |]. split; [by rewrite Ht | by rewrite Ht'].
Qed.

Lemma rel_M_for_each {A S : Type} (R : S → S → Prop) (xs : list A)
    (body body' : A → S → M S) :
  (∀ x, x ∈ xs → ∀ s s', R s s' → rel_M R (body x s) (body' x s')) →
  ∀ s s', R s s' → rel_M R (for_each_M xs body s) (for_each_M xs body' s').
Proof.
  induction xs as [|x xs IH]; intros Hbody s s' Hs; simpl.
  - by apply rel_M_ret.
  - apply rel_M_bind with (R := R).
    + apply Hbody; [left | done].
    + apply IH. intros y Hy. apply Hbody. by right.
Qed.

Lemma rel_M_try_except {A : Type} (R : A → A → Prop) (m m' : M A)
    (h h' : exn → M A) :
  rel_M R m m' →
  (∀ e, rel_M R (h e) (h' e)) →
  rel_M R (try_except m h) (try_except m' h').
Proof.
  intros Hm Hh s s' Hs.
  destruct (Hm s s' Hs) as (Hr & Ht & Ht').
  unfold try_except.
  destruct (m s) as [r t], (m' s') as [r' t']; simpl in *.
  destruct Hr as [a a' Ha|e]; simpl; [split; [by constructor | done] |].
  assert (same_artifacts t t') as Htt by (by rewrite <- Ht, <- Ht').
  destruct (Hh e t t' Htt) as (Hr2 & Hu & Hu').
  split; [done |]. split; [by rewrite Ht | by rewrite Ht'].
Qed.

(* ===================================================================== *)
(** ** Selecting columns *)
(* ===================================================================== *)

Lemma map_res_ok {A B : Type} (h : A → res B) (g : A → B) (l : list A) :
  (∀ a, a ∈ l → h a = Ok (g a)) → map_res h l = Ok (map g l).
Proof.
  induction l as [|a l IH]; intros H; simpl; [done |].
  rewrite H by left. simpl. rewrite IH; [done |].
  intros b Hb. apply H. by right.
Qed.

Lemma map_res_length {A B : Type} (h : A → res B) (l : list A) (l' : list B) :
  map_res h l = Ok l' → length l' = length l.
Proof.
  revert l'. induction l as [|a l IH]; intros l'; simpl.
  - by intros [= <-].
  - destruct (h a) as [b|e]; simpl; [|done].
    destruct (map_res h l) as [bs|e]; simpl; [|done].
    intros [= <-]. simpl. by rewrite (IH bs).
Qed.

Lemma map_res_raise {A B : Type} (h : A → res B) (l : list A) (e : exn) :
  map_res h l = Raise e → ∃ a, a ∈ l ∧ h a = Raise e.
Proof.
  induction l as [|a l IH]; simpl; [done |].
  destruct (h a) as [b|e'] eqn:Ha; simpl.
  - destruct (map_res h l) as [bs|e']; simpl; [done |].
    intros [= ->]. destruct (IH eq_refl) as (a' & Ha' & Hr).
    exists a'. split; [by right | done].
  - intros [= ->]. exists a. split; [left | done].
Qed.

Lemma filter_missing_nil (df : frame) (cols : list string) :
  filter (λ c, df !! c = None) cols = [] ↔ ∀ c, c ∈ cols → is_Some (df !! c).
Proof.
  induction cols as [|k cols IH].
  - split; [|done]. intros _ c Hc. by apply elem_of_nil in Hc.
  - rewrite filter_cons. destruct (decide (df !! k = None)) as [Hk|Hk].
    + split; [done |]. intros H. destruct (H k) as [x Hx]; [left | congruence].
    + rewrite IH. split.
      * intros H c [->|Hc]%elem_of_cons; [|by apply H].
        by destruct (df !! k); [eexists |].
      * intros H c Hc. apply H. by right.
Qed.

(** A selection whose labels are all columns reads the cells one by one. *)
Lemma getitems_all_present (df : frame) (cols : list string) :
  (∀ c, c ∈ cols → is_Some (df !! c)) →
  getitems df cols = map_res (getitem df) cols.
Proof.
  intros H. apply filter_missing_nil in H. unfold getitems. by rewrite H.
Qed.

Lemma map_res_getitem_present (df : frame) (cols : list string) (vs : list pyval) :
  map_res (getitem df) cols = Ok vs → ∀ c, c ∈ cols → is_Some (df !! c).
Proof.
  revert vs. induction cols as [|k cols IH]; intros vs; simpl.
  - intros _ c Hc. by apply elem_of_nil in Hc.
  - intros H c Hc.
    destruct (getitem df k) as [x|e] eqn:Hx; simpl in H; [|done].
    destruct (map_res (getitem df) cols) as [xs|e] eqn:Hxs; simpl in H; [|done].
    apply elem_of_cons in Hc as [->|Hc]; [|by apply (IH xs)].
    unfold getitem in Hx. destruct (df !! k); [by eexists | done].
Qed.

Lemma getitems_Ok (df : frame) (cols : list string) (vs : list pyval) :
  getitems df cols = Ok vs ↔ map_res (getitem df) cols = Ok vs.
Proof.
  split.
  - unfold getitems. by destruct (filter _ cols).
  - intros H. rewrite getitems_all_present; [done |].
    by apply (map_res_getitem_present df cols vs).
Qed.

(** A selection raises nothing but [KeyError], and only when one of its
    labels is not a column. *)
Lemma getitems_Raise (df : frame) (cols : list string) (e : exn) :
  getitems df cols = Raise e →
  ∃ msg, e = KeyError msg ∧ ∃ k, k ∈ cols ∧ df !! k = None.
Proof.
  unfold getitems. destruct (filter _ cols) as [|k ks] eqn:Hf.
  - intros (k & Hk & Hget)%map_res_raise. unfold getitem in Hget.
    destruct (df !! k) eqn:Hdf; [done |]. injection Hget as <-.
    exists k. split; [done |]. by exists k.
  - intros [= <-]. eexists. split; [reflexivity |]. exists k.
    assert (k ∈ filter (λ c, df !! c = None) cols) as Hk by (rewrite Hf; left).
    apply list_elem_of_filter in Hk as [? ?]. done.
Qed.

Lemma getitems_missing (df : frame) (cols : list string) (c : string) :
  c ∈ cols → df !! c = None → ∃ msg, getitems df cols = Raise (KeyError msg).
Proof.
  intros Hc Hnone. unfold getitems.
  destruct (filter _ cols) as [|k ks] eqn:Hf; [|by eexists].
  exfalso. apply (filter_nil_not_elem_of _ _ c Hf); done.
Qed.

Lemma getitems_ok (df : frame) (cols : list string) (f : string → pyval) :
  (∀ c, c ∈ cols → df !! c = Some (f c)) → getitems df cols = Ok (map f cols).
Proof.
  intros H. rewrite getitems_all_present.
  - apply map_res_ok. intros c Hc. unfold getitem. by rewrite H.
  - intros c Hc. rewrite H by done. by eexists.
Qed.

(** *** Frames that agree on the columns read *)

Lemma agree_on_refl (cols : list string) (df : frame) : agree_on cols df df.
Proof. by intros c Hc. Qed.

Lemma agree_on_insert (cols : list string) (df df' : frame) (c : string) (v : pyval) :
  agree_on cols df df' → agree_on cols (<[c := v]> df) (<[c := v]> df').
Proof.
  intros H k Hk. destruct (decide (c = k)) as [->|Hne].
  - by rewrite !lookup_insert_eq.
  - rewrite !lookup_insert_ne by done. by apply H.
Qed.

Lemma agree_on_setitems (cols cs : list string) (vs : list pyval) (df df' : frame) :
  agree_on cols df df' → agree_on cols (setitems df cs vs) (setitems df' cs vs).
Proof.
  revert vs df df'. induction cs as [|c cs IH]; intros [|v vs] df df' H; simpl; try done.
  apply IH. by apply agree_on_insert.
Qed.

Lemma getitem_agree (cols : list string) (df df' : frame) (c : string) :
  agree_on cols df df' → c ∈ cols → getitem df c = getitem df' c.
Proof. intros H Hc. unfold getitem. by rewrite (H c Hc). Qed.

Lemma getitems_agree (cols cs : list string) (df df' : frame) :
  agree_on cols df df' → cs ⊆ cols → getitems df cs = getitems df' cs.
Proof.
  intros H Hsub. unfold getitems.
  assert (filter (λ c, df !! c = None) cs = filter (λ c, df' !! c = None) cs) as ->.
  { clear -H Hsub. induction cs as [|c cs IH]; [done |].
    rewrite !filter_cons, (H c) by (apply Hsub; left).
    rewrite IH; [done |]. intros k Hk. apply Hsub. by right. }
  assert (map_res (getitem df) cs = map_res (getitem df') cs) as ->; [|done].
  clear -H Hsub. induction cs as [|c cs IH]; simpl; [done |].
  rewrite (getitem_agree cols df df' c H) by (apply Hsub; left).
  rewrite IH; [done |]. intros k Hk. apply Hsub. by right.
Qed.

(** *** [preprocess_data] reads the columns it names, and the artifacts *)

Lemma label_cols_used : label_encode_cols ⊆ used_cols.
Proof. intros c Hc. unfold used_cols. rewrite !elem_of_app. by left. Qed.

Lemma one_hot_cols_used : one_hot_encode_cols ⊆ used_cols.
Proof. intros c Hc. unfold used_cols. rewrite !elem_of_app. by right; left. Qed.

Lemma min_max_cols_used : min_max_scale_cols ⊆ used_cols.
Proof. intros c Hc. unfold used_cols. rewrite !elem_of_app. by right; right. Qed.

Lemma stripped_cols_used (c : string) :
  c ∈ (label_encode_cols ++ one_hot_encode_cols)%list → c ∈ used_cols.
Proof. unfold used_cols. rewrite !elem_of_app. tauto. Qed.

Lemma strip_columns_agree (df df' : frame) :
  agree_on used_cols df df' →
  rel_res (agree_on used_cols) (strip_columns df) (strip_columns df').
Proof.
  unfold strip_columns. apply for_each_rel. intros col Hcol s s' Hs.
  unfold strip_column.
  rewrite (getitem_agree used_cols s s' col Hs) by by apply stripped_cols_used.
  destruct (getitem s' col) as [c|e]; simpl; [|constructor].
  destruct (str_strip c) as [c'|e]; simpl; constructor.
  by apply agree_on_insert.
Qed.

Lemma coerce_numeric_agree (df df' : frame) :
  agree_on used_cols df df' →
  rel_res (agree_on used_cols) (coerce_numeric df) (coerce_numeric df').
Proof.
  intros H. unfold coerce_numeric.
  rewrite (getitems_agree used_cols _ df df' H min_max_cols_used).
  apply rel_res_bind with (R := eq); [apply rel_res_refl |].
  intros cs ? <-.
  apply rel_res_bind with (R := eq); [apply rel_res_refl |].
  intros cs' ? <-. constructor.
  by apply agree_on_setitems.
Qed.

Lemma impute_numeric_agree (df df' : frame) :
  agree_on used_cols df df' →
  rel_res (agree_on used_cols) (impute_numeric df) (impute_numeric df').
Proof.
  intros H. unfold impute_numeric.
  rewrite (getitems_agree used_cols _ df df' H min_max_cols_used).
  apply rel_res_bind with (R := eq); [apply rel_res_refl |].
  intros cs ? <-.
  apply rel_res_bind with (R := eq); [apply rel_res_refl |].
  intros cs' ? <-. constructor.
  by apply agree_on_setitems.
Qed.

Lemma label_encode_agree (df df' : frame) :
  agree_on used_cols df df' →
  rel_M (agree_on used_cols) (label_encode df) (label_encode df').
Proof.
  unfold label_encode. apply rel_M_for_each. intros col Hcol s s' Hs.
  unfold label_encode_column.
  apply rel_M_bind with (R := eq).
  { apply rel_M_global. by intros ?? (?&?&?&?&?). }
  intros encoders ? <-.
  apply rel_M_bind with (R := eq); [apply rel_M_lift, rel_res_refl |].
  intros le ? <-.
  rewrite (getitem_agree used_cols s s' col Hs) by by apply label_cols_used.
  apply rel_M_bind with (R := eq); [apply rel_M_lift, rel_res_refl |].
  intros c ? <-.
  apply rel_M_bind with (R := eq); [apply rel_M_lift, rel_res_refl |].
  intros c' ? <-.
  apply rel_M_ret. by apply agree_on_insert.
Qed.

(** Two input records with the same values in the columns that
    [preprocess_data] names give the same result, whatever was printed
    before, and the artifacts are left as they were. *)
Lemma preprocess_data_agree (data data' : frame) :
  agree_on used_cols data data' →
  rel_M eq (preprocess_data data) (preprocess_data data').
Proof.
  intros H. unfold preprocess_data.
  apply rel_M_bind with (R := agree_on used_cols).
  { by apply rel_M_lift, strip_columns_agree. }
  clear data data' H. intros df df' H.
  apply rel_M_bind with (R := agree_on used_cols).
  { by apply rel_M_lift, coerce_numeric_agree. }
  clear df df' H. intros df df' H.
  apply rel_M_bind with (R := agree_on used_cols).
  { by apply rel_M_lift, impute_numeric_agree. }
  clear df df' H. intros df df' H.
  apply rel_M_bind with (R := agree_on used_cols).
  { by apply label_encode_agree. }
  clear df df' H. intros df df' H.
  apply rel_M_bind with (R := eq).
  { apply rel_M_global. by intros ?? (?&?&?&?&?). }
  intros enc ? <-.
  rewrite (getitems_agree used_cols _ df df' H one_hot_cols_used).
  apply rel_M_bind with (R := eq); [apply rel_M_lift, rel_res_refl |].
  intros one_hot ? <-.
  apply rel_M_bind with (R := eq).
  { apply rel_M_global. by intros ?? (?&?&?&?&?). }
  intros sc ? <-.
  rewrite (getitems_agree used_cols _ df df' H min_max_cols_used).
  apply rel_M_bind with (R := eq); [apply rel_M_lift, rel_res_refl |].
  intros scaled ? <-.
  rewrite (getitems_agree used_cols _ df df' H label_cols_used).
  apply rel_M_bind with (R := eq); [apply rel_M_lift, rel_res_refl |].
  intros labels ? <-.
  apply rel_M_bind with (R := λ _ _, True); [apply rel_M_print |].
  intros _ _ _. by apply rel_M_ret.
Qed.

(** The classifier call and the decoding of its answer, the same code on
    both sides. *)
Lemma classify_rel (X_new : list float) :
  rel_M eq
    (m ← global model;
     prediction ← lift (LogisticRegression_predict m X_new);
     le ← global le_target;
     prediction ← lift (LabelEncoder_inverse_transform le prediction);
     mret (if decide (prediction = "Yes") then "Churn" else "No Churn"))
    (m ← global model;
     prediction ← lift (LogisticRegression_predict m X_new);
     le ← global le_target;
     prediction ← lift (LabelEncoder_inverse_transform le prediction);
     mret (if decide (prediction = "Yes") then "Churn" else "No Churn")).
Proof.
  apply rel_M_bind with (R := eq).
  { apply rel_M_global. by intros ?? (?&?&?&?&?). }
  intros m ? <-.
  apply rel_M_bind with (R := eq); [apply rel_M_lift, rel_res_refl |].
  intros y ? <-.
  apply rel_M_bind with (R := eq).
  { apply rel_M_global. by intros ?? (?&?&?&?&?). }
  intros le ? <-.
  apply rel_M_bind with (R := eq); [apply rel_M_lift, rel_res_refl |].
  intros label ? <-.
  by apply rel_M_ret.
Qed.

Lemma handler_rel (e : exn) :
  rel_M eq (_ ← print (PrintError e); mret (str_exn e))
           (_ ← print (PrintError e); mret (str_exn e)).
Proof.
  apply rel_M_bind with (R := λ _ _, True); [apply rel_M_print |].
  intros _ _ _. by apply rel_M_ret.
Qed.

Lemma SeniorCitizen_unused : "SeniorCitizen" ∉ used_cols.
Proof. apply (bool_decide_unpack _). by vm_compute. Qed.

(* ===================================================================== *)
(** ** Determinism, the unused field, whitespace *)
(* ===================================================================== *)

(** C9: encoding one record twice, the second call starting from the process
    state the first one left, gives the same result both times (the same
    feature vector, or the same exception), and the five loaded transformers
    are the same before and after each call: [preprocess_data] is a
    function of its input and of artifacts it only reads. *)
Theorem preprocess_data_deterministic (data : frame) (s : store) :
  let first := preprocess_data data s in
  let second := preprocess_data data first.2 in
  first.1 = second.1
  ∧ same_artifacts s first.2
  ∧ same_artifacts s second.2.
Proof.
  intros first second.
  pose proof (preprocess_data_agree data data (agree_on_refl _ _)) as H.
  assert (same_artifacts s first.2) as H1.
  { by destruct (H s s) as (_ & ? & _). }
  destruct (H s first.2 H1) as (Hr & _ & H2).
  split; [by apply rel_res_eq |]. split; [done |].
  by rewrite H1 at 1.
Qed.

(** C10: two input records that differ only in the SeniorCitizen field are
    encoded to the same feature vector (or fail with the same exception), and
    two calls of [predict] that differ only in the [senior_citizen] argument
    return the same string: the value is stored in the record and read by
    none of the encoding steps. *)
Theorem predict_ignores_SeniorCitizen :
  (∀ (data : frame) (v : pyval) (s : store),
     (preprocess_data (<["SeniorCitizen" := v]> data) s).1
     = (preprocess_data data s).1)
  ∧ (∀ (gender senior_citizen senior_citizen' partner dependents tenure
        phone_service multiple_lines internet_service online_security
        online_backup device_protection tech_support streaming_tv
        streaming_movies contract paperless_billing payment_method
        monthly_charges total_charges : pyval) (s : store),
       (predict gender senior_citizen partner dependents tenure phone_service
          multiple_lines internet_service online_security online_backup
          device_protection tech_support streaming_tv streaming_movies contract
          paperless_billing payment_method monthly_charges total_charges s).1
       = (predict gender senior_citizen' partner dependents tenure phone_service
            multiple_lines internet_service online_security online_backup
            device_protection tech_support streaming_tv streaming_movies contract
            paperless_billing payment_method monthly_charges total_charges s).1).
Proof.
  assert (∀ (data : frame) v, agree_on used_cols (<["SeniorCitizen" := v]> data) data)
    as Hinsert.
  { intros data v c Hc. apply lookup_insert_ne. intros <-.
    by apply SeniorCitizen_unused. }
  split.
  - intros data v s. apply rel_res_eq.
    by apply (preprocess_data_agree _ _ (Hinsert data v) s s).
  - intros. apply rel_res_eq.
    match goal with
    | |- rel_res eq (?m s).1 (?m' s).1 =>
        enough (rel_M eq m m') as H by (by destruct (H s s) as [? _])
    end.
    unfold predict, predict_record. apply rel_M_try_except; [|apply handler_rel].
    apply rel_M_bind with (R := eq); [|intros X ? <-; apply classify_rel].
    apply preprocess_data_agree. unfold input_record. simpl.
    intros c Hc.
    destruct (decide (c = "gender")) as [->|Hg].
    + by rewrite !lookup_insert_eq.
    + rewrite !(lookup_insert_ne _ "gender") by done.
      rewrite !(lookup_insert_ne _ "SeniorCitizen"); [done | |].
      all: intros <-; by apply SeniorCitizen_unused.
Qed.

(** *** Whitespace around a categorical value *)

Lemma strip_column_insert_ne (c col : string) (x : pyval) (df : frame) :
  c ≠ col →
  strip_column c (<[col := x]> df)
  = df' ← strip_column c df; Ok (<[col := x]> df').
Proof.
  intros Hne. unfold strip_column, getitem. rewrite lookup_insert_ne by done.
  destruct (df !! c) as [y|]; simpl; [|done].
  destruct (str_strip y) as [y'|e]; simpl; [|done].
  by rewrite insert_insert_ne.
Qed.

Lemma strip_column_lookup_ne (c col : string) (df df' : frame) :
  c ≠ col → strip_column c df = Ok df' → df' !! col = df !! col.
Proof.
  intros Hne. unfold strip_column, getitem.
  destruct (df !! c) as [y|]; simpl; [|done].
  destruct (str_strip y) as [y'|e]; simpl; [|done].
  intros [= <-]. by rewrite lookup_insert_ne.
Qed.

Lemma strip_columns_padded (cols : list string) (col v v' : string) (df : frame) :
  col ∈ cols →
  df !! col = Some (VStr v) →
  strip v' = strip v →
  for_each cols strip_column (<[col := VStr v']> df) = for_each cols strip_column df.
Proof.
  intros Hcol Hdf Hstrip. revert df Hdf Hcol.
  induction cols as [|c cols IH]; intros df Hdf Hcol; [by apply elem_of_nil in Hcol |].
  simpl. destruct (decide (c = col)) as [->|Hne].
  - unfold strip_column, getitem. rewrite lookup_insert_eq, Hdf. simpl.
    by rewrite insert_insert_eq, Hstrip.
  - apply elem_of_cons in Hcol as [->|Hcol]; [done |].
    rewrite strip_column_insert_ne by done.
    destruct (strip_column c df) as [df'|e] eqn:Hstep; simpl; [|done].
    apply IH; [|done].
    by rewrite (strip_column_lookup_ne c col df df').
Qed.

(** C5: in a categorical column (label-encoded or one-hot-encoded), a value
    padded with whitespace before and after is encoded exactly as the value
    itself: the call returns the same feature vector (or raises the same
    exception) and prints the same frame. *)
Theorem preprocess_data_strips_whitespace
    (data : frame) (col v w1 w2 : string) (s : store) :
  col ∈ (label_encode_cols ++ one_hot_encode_cols)%list →
  data !! col = Some (VStr v) →
  whitespace w1 →
  whitespace w2 →
  preprocess_data (<[col := VStr (w1 +:+ v +:+ w2)]> data) s
  = preprocess_data data s.
Proof.
  intros Hcol Hdata H1 H2. unfold preprocess_data, strip_columns.
  by rewrite (strip_columns_padded _ col v) by (done || by apply strip_padded).
Qed.

Lemma preprocess_data_strips_whitespace_witness :
  let data := scenario_record (VInt 600) in
  let s := fixture_store fixture_scaler in
  ("Partner" ∈ (label_encode_cols ++ one_hot_encode_cols)%list
   ∧ data !! "Partner" = Some (VStr "Yes")
   ∧ whitespace " ")
  ∧ preprocess_data (<["Partner" := VStr " Yes"]> data) s = preprocess_data data s.
Proof.
  assert ("Partner" ∈ (label_encode_cols ++ one_hot_encode_cols)%list) as Hcol.
  { apply (bool_decide_unpack _). vm_compute. reflexivity. }
  split; [split; [exact Hcol | split; reflexivity] |].
  apply (preprocess_data_strips_whitespace
           (scenario_record (VInt 600)) "Partner" "Yes" " " EmptyString).
  - exact Hcol.
  - reflexivity.
  - reflexivity.
  - reflexivity.
Defined.

(* ===================================================================== *)
(** ** The prediction call *)
(* ===================================================================== *)

Lemma preprocess_data_artifacts (data : frame) (s : store) :
  same_artifacts s (preprocess_data data s).2.
Proof.
  by destruct (preprocess_data_agree data data (agree_on_refl _ _) s s) as (_ & ? & _).
Qed.

(** What [predict] returns, by the outcome of each call of its [try] block. *)
Lemma predict_record_eq (data : frame) (s : store) :
  (predict_record data s).1
  = match (preprocess_data data s).1 with
    | Raise e => Ok (str_exn e)
    | Ok X =>
        match LogisticRegression_predict (model s) X with
        | Raise e => Ok (str_exn e)
        | Ok y =>
            match LabelEncoder_inverse_transform (le_target s) y with
            | Raise e => Ok (str_exn e)
            | Ok label => Ok (if decide (label = "Yes") then "Churn" else "No Churn")
            end
        end
    end.
Proof.
  pose proof (preprocess_data_artifacts data s) as (_ & _ & _ & Hm & Ht).
  unfold predict_record, try_except, mbind, M_bind, global, lift.
  destruct (preprocess_data data s) as [[X|e] s1]; simpl in *; [|done].
  rewrite <- Hm, <- Ht.
  destruct (LogisticRegression_predict (model s) X) as [y|e]; simpl; [|done].
  by destruct (LabelEncoder_inverse_transform (le_target s) y) as [label|e].
Qed.

(** C6: when preprocessing, classification and decoding succeed, [predict]
    returns "Churn" if and only if the label decoded by the target encoder is
    exactly "Yes", and "No Churn" for every other label. *)
Theorem predict_Churn_iff_Yes
    (gender senior_citizen partner dependents tenure phone_service multiple_lines
     internet_service online_security online_backup device_protection tech_support
     streaming_tv streaming_movies contract paperless_billing payment_method
     monthly_charges total_charges : pyval)
    (s : store) (X : list float) (y : Z) (label : string) :
  (preprocess_data
     (input_record gender senior_citizen partner dependents tenure phone_service
        multiple_lines internet_service online_security online_backup
        device_protection tech_support streaming_tv streaming_movies contract
        paperless_billing payment_method monthly_charges total_charges) s).1
  = Ok X →
  LogisticRegression_predict (model s) X = Ok y →
  LabelEncoder_inverse_transform (le_target s) y = Ok label →
  ∃ r,
    (predict gender senior_citizen partner dependents tenure phone_service
       multiple_lines internet_service online_security online_backup
       device_protection tech_support streaming_tv streaming_movies contract
       paperless_billing payment_method monthly_charges total_charges s).1
    = Ok r
    ∧ (r = "Churn" ↔ label = "Yes")
    ∧ (label ≠ "Yes" → r = "No Churn").
Proof.
  intros HX Hy Hlabel. unfold predict.
  rewrite predict_record_eq, HX, Hy, Hlabel.
  eexists. split; [done |].
  destruct (decide (label = "Yes")) as [->|Hne]; split; try done.
Qed.

Lemma predict_Churn_iff_Yes_witness :
  let s := fixture_store fixture_scaler in
  let X := Spec.feature_vector s (scenario_record (VInt 600)) in
  ((preprocess_data (scenario_record (VInt 600)) s).1 = Ok X
   ∧ LogisticRegression_predict (model s) X = Ok 0
   ∧ LabelEncoder_inverse_transform (le_target s) 0 = Ok "No")
  ∧ ∃ r, (scenario (VInt 600) s).1 = Ok r
         ∧ (r = "Churn" ↔ "No" = "Yes")
         ∧ ("No" ≠ "Yes" → r = "No Churn").
Proof.
  assert ((preprocess_data (scenario_record (VInt 600))
             (fixture_store fixture_scaler)).1
          = Ok (Spec.feature_vector (fixture_store fixture_scaler)
                  (scenario_record (VInt 600)))) as HX
    by (vm_compute; reflexivity).
  assert (LogisticRegression_predict (model (fixture_store fixture_scaler))
            (Spec.feature_vector (fixture_store fixture_scaler)
               (scenario_record (VInt 600))) = Ok 0) as Hy
    by (vm_compute; reflexivity).
  assert (LabelEncoder_inverse_transform (le_target (fixture_store fixture_scaler)) 0
          = Ok "No") as Hl
    by (vm_compute; reflexivity).
  split; [split; [exact HX | split; [exact Hy | exact Hl]] |].
  exact (predict_Churn_iff_Yes
           (VStr "Female") (VInt 0) (VStr "Yes") (VStr "No") (VInt 12)
           (VStr "Yes") (VStr "No") (VStr "DSL") (VStr "Yes") (VStr "No")
           (VStr "No") (VStr "No") (VStr "No") (VStr "No") (VStr "One year")
           (VStr "No") (VStr "Mailed check") (VFloat (F64.of_Z 50)) (VInt 600)
           (fixture_store fixture_scaler) _ 0 "No" HX Hy Hl).
Defined.

(** C7: [predict] never raises.  Whatever the arguments and the artifacts, it
    returns a string: the message [str(e)] of the exception when
    [preprocess_data] raises, when the classifier raises, or when the
    decoding of the predicted class raises, and "Churn" or "No Churn" when
    none of them does. *)
Theorem predict_total
    (gender senior_citizen partner dependents tenure phone_service multiple_lines
     internet_service online_security online_backup device_protection tech_support
     streaming_tv streaming_movies contract paperless_billing payment_method
     monthly_charges total_charges : pyval) (s : store) :
  let data :=
    input_record gender senior_citizen partner dependents tenure phone_service
      multiple_lines internet_service online_security online_backup
      device_protection tech_support streaming_tv streaming_movies contract
      paperless_billing payment_method monthly_charges total_charges in
  ∃ r,
    (predict gender senior_citizen partner dependents tenure phone_service
       multiple_lines internet_service online_security online_backup
       device_protection tech_support streaming_tv streaming_movies contract
       paperless_billing payment_method monthly_charges total_charges s).1
    = Ok r
    ∧ r = match (preprocess_data data s).1 with
          | Raise e => str_exn e
          | Ok X =>
              match LogisticRegression_predict (model s) X with
              | Raise e => str_exn e
              | Ok y =>
                  match LabelEncoder_inverse_transform (le_target s) y with
                  | Raise e => str_exn e
                  | Ok label =>
                      if decide (label = "Yes") then "Churn" else "No Churn"
                  end
              end
          end.
Proof.
  intros data. unfold predict. fold data. rewrite predict_record_eq.
  destruct (preprocess_data data s).1 as [X|e]; [|by eexists].
  destruct (LogisticRegression_predict (model s) X) as [y|e]; [|by eexists].
  destruct (LabelEncoder_inverse_transform (le_target s) y) as [label|e];
    by eexists.
Qed.

(* ===================================================================== *)
(** ** Loops over columns *)
(* ===================================================================== *)

Lemma setitems_lookup_notin (cols : list string) (vs : list pyval) (df : frame)
    (k : string) :
  k ∉ cols → setitems df cols vs !! k = df !! k.
Proof.
  revert vs df. induction cols as [|c cols IH]; intros [|v vs] df Hk; simpl; try done.
  apply not_elem_of_cons in Hk as [Hne Hk].
  rewrite IH by done. by rewrite lookup_insert_ne.
Qed.

Lemma setitems_lookup_in (cols : list string) (f : string → pyval) (df : frame)
    (k : string) :
  NoDup cols → k ∈ cols → setitems df cols (map f cols) !! k = Some (f k).
Proof.
  revert df. induction cols as [|c cols IH]; intros df Hnd Hk; simpl.
  - by apply elem_of_nil in Hk.
  - apply NoDup_cons in Hnd as [Hc Hnd].
    apply elem_of_cons in Hk as [->|Hk].
    + rewrite setitems_lookup_notin by done. by rewrite lookup_insert_eq.
    + by apply IH.
Qed.

(** A loop whose round for column [c] reads the cell [f c] and assigns the
    cell [g c]: after it every column of the loop holds its [g], the other
    columns are untouched. *)
Lemma for_each_update (cols : list string) (f g : string → pyval)
    (body : string → frame → res frame) (df : frame) :
  NoDup cols →
  (∀ c df', c ∈ cols → df' !! c = Some (f c) → body c df' = Ok (<[c := g c]> df')) →
  (∀ c, c ∈ cols → df !! c = Some (f c)) →
  ∃ df1, for_each cols body df = Ok df1
         ∧ (∀ c, c ∈ cols → df1 !! c = Some (g c))
         ∧ (∀ k, k ∉ cols → df1 !! k = df !! k).
Proof.
  revert df. induction cols as [|c cols IH]; intros df Hnd Hbody Hdf; simpl.
  - exists df. split; [done |]. split; [|done].
    intros c Hc. by apply elem_of_nil in Hc.
  - apply NoDup_cons in Hnd as [Hc Hnd].
    rewrite (Hbody c df) by (left || apply Hdf; left). simpl.
    destruct (IH (<[c := g c]> df)) as (df1 & Hrun & Hin & Hout); [done | | |].
    { intros k d Hk. apply Hbody. by right. }
    { intros k Hk. rewrite lookup_insert_ne by (by intros ->). apply Hdf. by right. }
    exists df1. split; [done |]. split.
    + intros k [->|Hk]%elem_of_cons; [|by apply Hin].
      rewrite Hout by done. by rewrite lookup_insert_eq.
    + intros k [Hne Hk]%not_elem_of_cons.
      rewrite Hout by done. by rewrite lookup_insert_ne.
Qed.

(** A loop whose rounds assign only their own column: when it ends normally,
    each round has run on a frame whose cell in that column was the initial
    one, and when it raises, so has the round that raised. *)
Section own_column.
Context (body : string → frame → res frame).
Hypothesis body_own : ∀ c df df' k,
  body c df = Ok df' → k ≠ c → df' !! k = df !! k.

Lemma for_each_inv (cols : list string) (df df1 : frame) :
  NoDup cols →
  for_each cols body df = Ok df1 →
  (∀ c, c ∈ cols →
        ∃ d d', body c d = Ok d' ∧ d !! c = df !! c ∧ df1 !! c = d' !! c)
  ∧ (∀ k, k ∉ cols → df1 !! k = df !! k).
Proof.
  revert df. induction cols as [|c cols IH]; intros df Hnd; simpl.
  - intros [= <-]. split; [|done]. intros c Hc. by apply elem_of_nil in Hc.
  - apply NoDup_cons in Hnd as [Hc Hnd].
    destruct (body c df) as [df'|e] eqn:Hstep; simpl; [|done].
    intros Hrun. destruct (IH df' Hnd Hrun) as [Hin Hout]. split.
    + intros k [->|Hk]%elem_of_cons.
      * exists df, df'. split; [done |]. split; [done |]. by apply Hout.
      * destruct (Hin k Hk) as (d & d' & Hd & Hdk & Hd').
        exists d, d'. split; [done |]. split; [|done].
        rewrite Hdk. apply (body_own c df); [done |]. by intros ->.
    + intros k [Hne Hk]%not_elem_of_cons.
      rewrite Hout by done. by apply (body_own c df).
Qed.

Lemma for_each_raise (cols : list string) (df : frame) (e : exn) :
  NoDup cols →
  for_each cols body df = Raise e →
  ∃ c d, c ∈ cols ∧ body c d = Raise e ∧ d !! c = df !! c.
Proof.
  revert df. induction cols as [|c cols IH]; intros df Hnd; simpl; [done |].
  apply NoDup_cons in Hnd as [Hc Hnd].
  destruct (body c df) as [df'|e'] eqn:Hstep; simpl.
  - intros Hrun. destruct (IH df' Hnd Hrun) as (k & d & Hk & Hd & Hdk).
    exists k, d. split; [by right |]. split; [done |].
    rewrite Hdk. apply (body_own c df); [done |]. by intros ->.
  - intros [= ->]. exists c, df. split; [left | done].
Qed.
End own_column.

Lemma strip_column_own (c : string) (df df' : frame) (k : string) :
  strip_column c df = Ok df' → k ≠ c → df' !! k = df !! k.
Proof. intros H Hne. by apply (strip_column_lookup_ne c k df df'). Qed.

Lemma label_column_own (encoders : gmap string LabelEncoder)
    (c : string) (df df' : frame) (k : string) :
  label_column encoders c df = Ok df' → k ≠ c → df' !! k = df !! k.
Proof.
  unfold label_column. intros H Hne.
  destruct (dict_getitem encoders c) as [le|e]; simpl in H; [|done].
  destruct (getitem df c) as [x|e]; simpl in H; [|done].
  destruct (LabelEncoder_transform le x) as [x'|e]; simpl in H; [|done].
  injection H as <-. by rewrite lookup_insert_ne.
Qed.

(** The label-encoding loop reads the encoders and writes nothing to the
    store. *)
Lemma label_encode_eq (df : frame) (s : store) :
  label_encode df s
  = (for_each label_encode_cols (label_column (label_encoders s)) df, s).
Proof.
  unfold label_encode. generalize label_encode_cols as cols. intros cols.
  revert df. induction cols as [|c cols IH]; intros df; simpl; [done |].
  unfold mbind at 1, M_bind.
  assert (label_encode_column c df s = (label_column (label_encoders s) c df, s))
    as ->.
  { unfold label_encode_column, label_column, mbind, M_bind, global, lift. simpl.
    destruct (dict_getitem (label_encoders s) c) as [le|e]; simpl; [|done].
    destruct (getitem df c) as [x|e]; simpl; [|done].
    by destruct (LabelEncoder_transform le x) as [x'|e]. }
  destruct (label_column (label_encoders s) c df) as [df'|e]; simpl; [|done].
  apply IH.
Qed.

(* ===================================================================== *)
(** ** The encoder on a record it accepts *)
(* ===================================================================== *)

(** *** The three groups of columns *)

Lemma stripped_cols_NoDup : NoDup (label_encode_cols ++ one_hot_encode_cols)%list.
Proof. apply (bool_decide_unpack _). by vm_compute. Qed.

Lemma label_cols_NoDup : NoDup label_encode_cols.
Proof. apply (bool_decide_unpack _). by vm_compute. Qed.

Lemma min_max_cols_NoDup : NoDup min_max_scale_cols.
Proof. apply (bool_decide_unpack _). by vm_compute. Qed.

Lemma min_max_not_stripped (c : string) :
  c ∈ min_max_scale_cols → c ∉ (label_encode_cols ++ one_hot_encode_cols)%list.
Proof.
  revert c. apply Forall_forall. apply (bool_decide_unpack _). by vm_compute.
Qed.

Lemma label_not_min_max (c : string) :
  c ∈ label_encode_cols → c ∉ min_max_scale_cols.
Proof.
  revert c. apply Forall_forall. apply (bool_decide_unpack _). by vm_compute.
Qed.

Lemma one_hot_not_label (c : string) :
  c ∈ one_hot_encode_cols → c ∉ label_encode_cols.
Proof.
  revert c. apply Forall_forall. apply (bool_decide_unpack _). by vm_compute.
Qed.

Lemma one_hot_not_min_max (c : string) :
  c ∈ one_hot_encode_cols → c ∉ min_max_scale_cols.
Proof.
  revert c. apply Forall_forall. apply (bool_decide_unpack _). by vm_compute.
Qed.

Lemma min_max_not_label (c : string) :
  c ∈ min_max_scale_cols → c ∉ label_encode_cols.
Proof. intros Hc Hl. by apply (label_not_min_max c). Qed.

#[local] Opaque label_encode_cols one_hot_encode_cols min_max_scale_cols.

Lemma map_res_map {A B C : Type} (h : B → res C) (k : A → B) (l : list A) :
  map_res h (map k l) = map_res (λ a, h (k a)) l.
Proof. induction l as [|a l IH]; simpl; [done | by rewrite IH]. Qed.

Lemma index_of_elem_of (x : string) (l : list string) :
  x ∈ l → ∃ i, index_of x l = Some i.
Proof.
  induction l as [|y l IH]; intros Hx; [by apply elem_of_nil in Hx |].
  simpl. destruct (decide (y = x)) as [->|Hne]; [by eexists |].
  apply elem_of_cons in Hx as [->|Hx]; [done |].
  destruct (IH Hx) as [i ->]. by eexists.
Qed.

Lemma index_of_not_elem_of (x : string) (l : list string) :
  x ∉ l → index_of x l = None.
Proof.
  induction l as [|y l IH]; intros Hx; [done |].
  apply not_elem_of_cons in Hx as [Hne Hx].
  simpl. destruct (decide (y = x)) as [->|_]; [done |].
  by rewrite IH.
Qed.

Lemma index_of_lookup (x : string) (l : list string) (i : nat) :
  index_of x l = Some i → l !! i = Some x.
Proof.
  revert i. induction l as [|y l IH]; intros i; simpl; [done |].
  destruct (decide (y = x)) as [->|Hne].
  - by intros [= <-].
  - destruct (index_of x l) as [k|]; simpl; [|done].
    intros [= <-]. by apply IH.
Qed.

(** *** What a label encoder looks up *)

Lemma truncate_id (n : nat) (v : string) :
  (String.length v ≤ n)%nat → truncate n v = v.
Proof.
  revert n. induction v as [|c v IH]; intros [|n]; simpl; try done; [lia |].
  intros H. rewrite IH; [done | lia].
Qed.

Lemma itemsize_le (v : string) (entries : list string) :
  v ∈ entries → (String.length v ≤ itemsize entries)%nat.
Proof.
  intros Hv. unfold itemsize.
  assert (String.length v ≤ max_list (String.length <$> entries))%nat; [|lia].
  apply max_list_elem_of_le, list_elem_of_fmap. by exists v.
Qed.

(** A string of the table is looked up as it is: it fits the width of the
    table. *)
Lemma looked_up_known (le : LabelEncoder) (v : string) :
  v ∈ classes_ le → looked_up le v = v.
Proof.
  intros Hv. unfold looked_up. destruct (classes_dtype le); [done |].
  by apply truncate_id, itemsize_le.
Qed.

Lemma column_or_1d_str (le : LabelEncoder) (v : string) :
  column_or_1d le (VStr v) = VStr (looked_up le v).
Proof. unfold column_or_1d, looked_up. by destruct (classes_dtype le). Qed.

Lemma LabelEncoder_transform_known (le : LabelEncoder) (v : string) (i : nat) :
  index_of v (classes_ le) = Some i →
  LabelEncoder_transform le (VStr v) = Ok (VInt (Z.of_nat i)).
Proof.
  intros Hi. unfold LabelEncoder_transform.
  rewrite column_or_1d_str, looked_up_known.
  - simpl. by rewrite Hi.
  - by eapply list_elem_of_lookup_2, index_of_lookup.
Qed.

Lemma LabelEncoder_transform_raise (le : LabelEncoder) (c : pyval) (e : exn) :
  LabelEncoder_transform le c = Raise e → ∃ what, e = unseen_labels_error what.
Proof.
  unfold LabelEncoder_transform.
  destruct (category_index _ (classes_ le)); [done |].
  intros [= <-]. by eexists.
Qed.


Lemma valid_categories_strings (s : store) (data : frame) (c : string) :
  valid_categories s data →
  c ∈ (label_encode_cols ++ one_hot_encode_cols)%list →
  ∃ v, data !! c = Some (VStr v).
Proof.
  intros [Hl Ho] [Hc|Hc]%elem_of_app.
  - rewrite Forall_forall in Hl. destruct (Hl c Hc) as (le & _ & v & Hv & _). eauto.
  - apply list_elem_of_lookup in Hc as [i Hi].
    destruct (Forall2_lookup_l _ _ _ _ _ Ho Hi) as (cat & _ & v & Hv & _). eauto.
Qed.

(** *** String normalisation *)

Lemma strip_columns_ok (data : frame) :
  (∀ c, c ∈ (label_encode_cols ++ one_hot_encode_cols)%list →
        ∃ v, data !! c = Some (VStr v)) →
  ∃ df1, strip_columns data = Ok df1
         ∧ (∀ c, c ∈ (label_encode_cols ++ one_hot_encode_cols)%list →
                 df1 !! c = Some (VStr (cleaned data c)))
         ∧ (∀ k, k ∉ (label_encode_cols ++ one_hot_encode_cols)%list →
                 df1 !! k = data !! k).
Proof.
  intros H. unfold strip_columns.
  apply (for_each_update _ (λ c, default VNone (data !! c))
           (λ c, VStr (cleaned data c))).
  - apply stripped_cols_NoDup.
  - intros c df' Hc Hdf'. destruct (H c Hc) as [v Hv].
    rewrite Hv in Hdf'. simpl in Hdf'.
    unfold strip_column, getitem, cleaned. rewrite Hdf', Hv. done.
  - intros c Hc. by destruct (H c Hc) as [v ->].
Qed.

(** *** Coercion and imputation of the numeric columns *)

Lemma coerce_numeric_ok (data df1 : frame) :
  (∀ c, c ∈ min_max_scale_cols → df1 !! c = data !! c) →
  Forall (coercible data) min_max_scale_cols →
  coerce_numeric df1
  = Ok (setitems df1 min_max_scale_cols
          (map (λ c, VFloat (Spec.number data c)) min_max_scale_cols)).
Proof.
  intros Hdf Hnum. rewrite Forall_forall in Hnum. unfold coerce_numeric.
  rewrite (getitems_ok df1 _ (λ c, default VNone (data !! c))).
  2:{ intros c Hc. rewrite (Hdf c Hc).
      by destruct (Hnum c Hc) as (x & -> & _). }
  simpl. unfold astype_float. rewrite !map_res_map.
  rewrite (map_res_ok _ (λ c, VFloat (Spec.number data c))); [done |].
  intros c Hc. destruct (Hnum c Hc) as (x & Hx & Hfloat & _).
  rewrite Hx. simpl. by rewrite Hfloat.
Qed.

Lemma impute_numeric_ok (df : frame) (h : string → float) :
  (∀ c, c ∈ min_max_scale_cols → df !! c = Some (VFloat (h c))) →
  impute_numeric df
  = Ok (setitems df min_max_scale_cols (map (λ c, VFloat (h c)) min_max_scale_cols)).
Proof.
  intros Hdf. unfold impute_numeric.
  rewrite (getitems_ok df _ (λ c, VFloat (h c)) Hdf).
  simpl. unfold fillna_mean. rewrite map_res_map.
  rewrite (map_res_ok _ (λ c, VFloat (h c))); [done |].
  intros c Hc. simpl. by rewrite fillna_mean_single.
Qed.

(** *** Label encoding *)

Lemma label_encode_ok (s : store) (data df : frame) :
  valid_categories s data →
  (∀ c, c ∈ label_encode_cols → df !! c = Some (VStr (cleaned data c))) →
  ∃ df4, label_encode df s = (Ok df4, s)
         ∧ (∀ c, c ∈ label_encode_cols →
                 df4 !! c = Some (VInt (Spec.label_code s data c)))
         ∧ (∀ k, k ∉ label_encode_cols → df4 !! k = df !! k).
Proof.
  intros [Hl _] Hdf. rewrite Forall_forall in Hl. rewrite label_encode_eq.
  destruct (for_each_update label_encode_cols
              (λ c, VStr (cleaned data c))
              (λ c, VInt (Spec.label_code s data c))
              (label_column (label_encoders s)) df)
    as (df4 & Hrun & Hin & Hout); [apply label_cols_NoDup | | done |].
  - intros c df' Hc Hdf'. destruct (Hl c Hc) as (le & Hle & v & Hv & Hdom).
    unfold label_column, dict_getitem, getitem, Spec.label_code.
    rewrite Hle, Hdf'. simpl. unfold cleaned. rewrite Hv.
    destruct (index_of_elem_of _ _ Hdom) as [i Hi].
    rewrite (LabelEncoder_transform_known le (strip v) i Hi). simpl.
    by rewrite Hi.
  - exists df4. by rewrite Hrun.
Qed.

(** *** One-hot encoding *)

Lemma one_hot_columns_ok (data : frame) (cols : list string)
    (cats : list (list string)) (n : nat) :
  Forall2 (valid_category data) cols cats →
  one_hot_columns n cats (map (λ c, VStr (cleaned data c)) cols)
  = Ok (concat (Spec.one_hot_blocks data cols cats)).
Proof.
  intros H. revert n. induction H as [|col cat cols cats Hv H IH]; intros n; simpl.
  - done.
  - destruct Hv as (v & Hv & Hdom).
    assert (cleaned data col = strip v) as -> by (unfold cleaned; by rewrite Hv).
    destruct (index_of_elem_of _ _ Hdom) as [i ->]. simpl.
    by rewrite IH.
Qed.

Lemma length_indicator (width i : nat) : length (indicator width i) = width.
Proof. unfold indicator. by rewrite length_map, length_seq. Qed.

Lemma length_one_hot_blocks (data : frame) (cols : list string)
    (cats : list (list string)) :
  length cols = length cats →
  length (concat (Spec.one_hot_blocks data cols cats)) = sum_list (length <$> cats).
Proof.
  revert cats. induction cols as [|col cols IH]; intros [|cat cats]; simpl; try done.
  intros [= Hlen]. rewrite length_app, length_indicator.
  f_equal. by apply IH.
Qed.

(** *** Scaling *)

Lemma coercible_no_infinity (data : frame) (cols : list string) :
  Forall (coercible data) cols →
  existsb F64.isinf (map (Spec.number data) cols) = false.
Proof.
  induction 1 as [|c cols (x & _ & _ & Hinf) _ IH]; simpl; [done |].
  by rewrite Hinf, IH.
Qed.

Lemma MinMaxScaler_transform_ok (s : store) (data : frame) :
  Forall (coercible data) min_max_scale_cols →
  fitted_scaler s →
  MinMaxScaler_transform (min_max_scaler s)
    (map (λ c, VFloat (Spec.number data c)) min_max_scale_cols)
  = Ok (Spec.scaled_block s data).
Proof.
  intros Hnum [Hscale _]. unfold MinMaxScaler_transform.
  rewrite map_res_map, (map_res_ok _ (Spec.number data)) by done. simpl.
  unfold assert_all_finite. simpl.
  rewrite coercible_no_infinity by done. simpl.
  unfold check_n_features. rewrite length_map.
  by rewrite decide_True by done.
Qed.

(** *** The whole encoder *)

(** On a record it accepts, [preprocess_data] returns the feature vector of
    the specification. *)
Lemma preprocess_data_encodable (s : store) (data : frame) :
  encodable s data →
  (preprocess_data data s).1 = Ok (Spec.feature_vector s data).
Proof.
  intros (Hcat & Hnum & Hsc).
  destruct (strip_columns_ok data) as (df1 & H1 & H1in & H1out).
  { intros c Hc. by apply (valid_categories_strings s). }
  pose proof (coerce_numeric_ok data df1) as H2.
  set (floats := map (λ c, VFloat (Spec.number data c)) min_max_scale_cols) in *.
  set (df2 := setitems df1 min_max_scale_cols floats) in *.
  pose proof (impute_numeric_ok df2 (Spec.number data)) as H3.
  fold floats in H3.
  set (df3 := setitems df2 min_max_scale_cols floats) in *.
  assert (∀ c, c ∈ min_max_scale_cols → df3 !! c = Some (VFloat (Spec.number data c)))
    as H3in.
  { intros c Hc.
    apply (setitems_lookup_in _ (λ c, VFloat (Spec.number data c)));
      [apply min_max_cols_NoDup | done]. }
  destruct (label_encode_ok s data df3 Hcat) as (df4 & H4 & H4in & H4out).
  { intros c Hc. unfold df3, df2.
    rewrite !setitems_lookup_notin by by apply label_not_min_max.
    apply H1in, elem_of_app. by left. }
  assert (getitems df4 one_hot_encode_cols
          = Ok (map (λ c, VStr (cleaned data c)) one_hot_encode_cols)) as Hoh.
  { apply getitems_ok. intros c Hc.
    rewrite H4out by by apply one_hot_not_label. unfold df3, df2.
    rewrite !setitems_lookup_notin by by apply one_hot_not_min_max.
    apply H1in, elem_of_app. by right. }
  assert (getitems df4 min_max_scale_cols = Ok floats) as Hmm.
  { apply getitems_ok. intros c Hc.
    rewrite H4out by by apply min_max_not_label. by apply H3in. }
  assert (getitems df4 label_encode_cols
          = Ok (map (λ c, VInt (Spec.label_code s data c)) label_encode_cols)) as Hlab.
  { by apply getitems_ok. }
  unfold preprocess_data, mbind, M_bind, lift, global, print.
  rewrite H1, H2, H3, H4, Hoh, Hmm, Hlab; simpl.
  - unfold OneHotEncoder_transform.
    destruct Hcat as [_ Hcat].
    rewrite length_map, decide_True by by apply Forall2_length in Hcat.
    rewrite one_hot_columns_ok by done.
    unfold floats. rewrite MinMaxScaler_transform_ok by done. simpl.
    by rewrite map_map.
  - intros c Hc. unfold df2.
    apply (setitems_lookup_in _ (λ c, VFloat (Spec.number data c)));
      [apply min_max_cols_NoDup | done].
  - intros c Hc. apply H1out. by apply min_max_not_stripped.
  - done.
Qed.

Lemma valid_number_coercible (data : frame) (col : string) :
  valid_number data col → coercible data col.
Proof.
  intros (c & Hc & Hfin). exists c. split; [done |].
  unfold Spec.number. rewrite Hc.
  destruct c as [v|z|x|]; try done; simpl.
  - destruct (F64.of_Z z); by try done.
  - destruct x; by try done.
Qed.

Lemma valid_record_encodable (s : store) (data : frame) :
  valid_record s data → encodable s data.
Proof.
  intros (Hcat & Hnum & Hsc). split; [done |]. split; [|done].
  eapply Forall_impl; [done |]. apply valid_number_coercible.
Qed.

(** What [preprocess_data] returns on a valid record, and how wide it is. *)
Lemma valid_record_feature_vector (s : store) (data : frame) :
  valid_record s data →
  (preprocess_data data s).1 = Ok (Spec.feature_vector s data)
  ∧ length (Spec.label_block s data) = 5%nat
  ∧ length (Spec.scaled_block s data) = 3%nat
  ∧ length (Spec.one_hot_block s data) = Spec.one_hot_width s
  ∧ length (Spec.feature_vector s data) = (5 + 3 + Spec.one_hot_width s)%nat.
Proof.
  intros Hvalid.
  assert (length (Spec.label_block s data) = 5%nat) as Hlab.
  { unfold Spec.label_block. by rewrite length_map. }
  assert (length (Spec.scaled_block s data) = 3%nat) as Hsc.
  { destruct Hvalid as (_ & _ & Hs1 & Hs2).
    unfold Spec.scaled_block. rewrite !length_zip_with, length_map, Hs1, Hs2.
    reflexivity. }
  assert (length (Spec.one_hot_block s data) = Spec.one_hot_width s) as Hoh.
  { destruct Hvalid as ((_ & Hcat) & _).
    apply length_one_hot_blocks. by apply Forall2_length in Hcat. }
  split; [by apply preprocess_data_encodable, valid_record_encodable |].
  repeat split; try done.
  unfold Spec.feature_vector. rewrite !length_app, Hlab, Hsc, Hoh. lia.
Qed.

(** C1: on a valid input record, [preprocess_data] returns the feature
    vector of the specification: the five label codes (the position of each
    stripped value in its encoder's table), then the three scaled numbers,
    then the one-hot block (one indicator block per one-hot column, in the
    order of the columns), of width 5 + 3 + one-hot width.  The vector is
    given as a function of the record and the artifacts: the column order is
    the same on every call. *)
Theorem preprocess_data_feature_vector (s : store) (data : frame) :
  valid_record s data →
  (preprocess_data data s).1 = Ok (Spec.feature_vector s data)
  ∧ Spec.feature_vector s data
    = (Spec.label_block s data ++ Spec.scaled_block s data
       ++ Spec.one_hot_block s data)%list
  ∧ length (Spec.label_block s data) = 5%nat
  ∧ length (Spec.scaled_block s data) = 3%nat
  ∧ length (Spec.one_hot_block s data) = Spec.one_hot_width s
  ∧ length (Spec.feature_vector s data) = (5 + 3 + Spec.one_hot_width s)%nat.
Proof.
  intros Hvalid.
  destruct (valid_record_feature_vector s data Hvalid) as (HX & Hlens).
  split; [done |]. split; [reflexivity | done].
Qed.

#[local] Transparent label_encode_cols one_hot_encode_cols min_max_scale_cols.

(** The fixture and the scenario record of the specification. *)
Lemma scenario_valid_categories (total_charges : pyval) :
  valid_categories (fixture_store fixture_scaler) (scenario_record total_charges).
Proof.
  split.
  - unfold label_encode_cols.
    repeat (constructor;
            [eexists; split; [reflexivity |];
             eexists; split; [reflexivity |];
             apply (bool_decide_unpack _); by vm_compute |]).
    constructor.
  - unfold one_hot_encode_cols. simpl.
    repeat (constructor;
            [eexists; split; [reflexivity |];
             apply (bool_decide_unpack _); by vm_compute |]).
    constructor.
Qed.

Lemma scenario_valid (total_charges : Z) :
  F64.isfinite (F64.of_Z total_charges) = true →
  valid_record (fixture_store fixture_scaler) (scenario_record (VInt total_charges)).
Proof.
  intros Hfin. split; [apply scenario_valid_categories |].
  split; [|done].
  unfold min_max_scale_cols.
  repeat (constructor; [eexists; split; [reflexivity | done] |]).
  constructor.
Qed.

Lemma preprocess_data_feature_vector_witness :
  let s := fixture_store fixture_scaler in
  let data := scenario_record (VInt 600) in
  valid_record s data
  ∧ (preprocess_data data s).1 = Ok (Spec.feature_vector s data)
  ∧ Spec.feature_vector s data
    = (Spec.label_block s data ++ Spec.scaled_block s data
       ++ Spec.one_hot_block s data)%list
  ∧ length (Spec.label_block s data) = 5%nat
  ∧ length (Spec.scaled_block s data) = 3%nat
  ∧ length (Spec.one_hot_block s data) = Spec.one_hot_width s
  ∧ length (Spec.feature_vector s data) = (5 + 3 + Spec.one_hot_width s)%nat.
Proof.
  split; [by apply scenario_valid |].
  apply (preprocess_data_feature_vector
           (fixture_store fixture_scaler) (scenario_record (VInt 600))).
  by apply scenario_valid.
Defined.

(** The scenario on the fixture: the codes of Partner, Dependents,
    PhoneService, PaperlessBilling and gender, and the width. *)
Example scenario_feature_vector :
  ∃ X, (preprocess_data (scenario_record (VInt 600)) (fixture_store fixture_scaler)).1
       = Ok X
       ∧ take 5 X = map F64.of_Z [1; 0; 1; 0; 0]
       ∧ length X = 39%nat.
Proof. eexists. split; [by vm_compute |]. split; by vm_compute. Qed.

(* ===================================================================== *)
(** ** A missing number *)
(* ===================================================================== *)

(** The one-space string is replaced by NaN, and the mean of the single row
    leaves it NaN. *)
Lemma space_coercible (data : frame) (col : string) :
  data !! col = Some (VStr " ") → coercible data col.
Proof.
  intros H. exists (VStr " "). split; [done |].
  unfold Spec.number. by rewrite H.
Qed.

Lemma scaled_block_TotalCharges_nan (s : store) (data : frame) :
  fitted_scaler s →
  data !! "TotalCharges" = Some (VStr " ") →
  ∃ a b, Spec.scaled_block s data = [a; b; F64.nan].
Proof.
  intros [Hs Hm] Hdata. unfold Spec.scaled_block.
  destruct (scale_ (min_max_scaler s)) as [|s1 [|s2 [|s3 [|]]]]; try done.
  destruct (min_ (min_max_scaler s)) as [|m1 [|m2 [|m3 [|]]]]; try done.
  simpl. unfold Spec.number at 3. rewrite Hdata. by eexists _, _.
Qed.

(** C8, as the code has it: with TotalCharges given as the one-space string
    and every other field valid, the encoder neither imputes the value nor
    rejects it.  [preprocess_data] raises nothing and returns a feature
    vector whose TotalCharges entry (index 7) is NaN: the mean that should
    fill the cell is the mean of the single row, NaN itself.  [predict]
    passes that vector to the classifier, and the service returns whatever
    the classifier makes of it, its answer or the message of its error. *)
Theorem TotalCharges_space_reaches_classifier (s : store) (data : frame) :
  valid_categories s data →
  valid_number data "tenure" →
  valid_number data "MonthlyCharges" →
  data !! "TotalCharges" = Some (VStr " ") →
  fitted_scaler s →
  ∃ X,
    (preprocess_data data s).1 = Ok X
    ∧ X !! 7%nat = Some F64.nan
    ∧ (predict_record data s).1
      = Ok (match classify s X with Ok r => r | Raise e => str_exn e end).
Proof.
  intros Hcat Hten Hmon Htot Hsc.
  assert (encodable s data) as Henc.
  { split; [done |]. split; [|done].
    unfold min_max_scale_cols. repeat constructor.
    - by apply valid_number_coercible.
    - by apply valid_number_coercible.
    - by apply space_coercible. }
  pose proof (preprocess_data_encodable s data Henc) as HX.
  destruct (scaled_block_TotalCharges_nan s data Hsc Htot) as (a & b & Hscaled).
  exists (Spec.feature_vector s data). split; [done |]. split.
  - unfold Spec.feature_vector. rewrite Hscaled.
    rewrite lookup_app_r; unfold Spec.label_block; rewrite length_map; [done |].
    simpl. lia.
  - rewrite predict_record_eq, HX. unfold classify.
    destruct (LogisticRegression_predict _ _) as [y|e]; simpl; [|done].
    by destruct (LabelEncoder_inverse_transform _ y) as [label|e].
Qed.

Lemma TotalCharges_space_reaches_classifier_witness :
  let s := fixture_store fixture_scaler in
  let data := scenario_record (VStr " ") in
  (valid_categories s data
   ∧ valid_number data "tenure"
   ∧ valid_number data "MonthlyCharges"
   ∧ data !! "TotalCharges" = Some (VStr " ")
   ∧ fitted_scaler s)
  ∧ ∃ X,
      (preprocess_data data s).1 = Ok X
      ∧ X !! 7%nat = Some F64.nan
      ∧ (predict_record data s).1
        = Ok (match classify s X with Ok r => r | Raise e => str_exn e end).
Proof.
  assert (valid_number (scenario_record (VStr " ")) "tenure") as Hten.
  { eexists. split; [reflexivity | by vm_compute]. }
  assert (valid_number (scenario_record (VStr " ")) "MonthlyCharges") as Hmon.
  { eexists. split; [reflexivity | by vm_compute]. }
  assert (fitted_scaler (fixture_store fixture_scaler)) as Hsc.
  { split; reflexivity. }
  split.
  { split; [apply scenario_valid_categories |].
    split; [exact Hten |]. split; [exact Hmon |]. split; [reflexivity | exact Hsc]. }
  apply (TotalCharges_space_reaches_classifier
           (fixture_store fixture_scaler) (scenario_record (VStr " ")));
    [apply scenario_valid_categories | exact Hten | exact Hmon | reflexivity
    | exact Hsc].
Defined.

(* ===================================================================== *)
(** ** A constant column at fit time *)
(* ===================================================================== *)

Lemma F64_sub_diag (x : float) : F64.isfinite x = true → F64.sub x x = F64.zero.
Proof.
  destruct x as [[|]|sx| |sx m e]; try done.
  intros _. unfold F64.sub, SFsub. by rewrite Z.sub_diag.
Qed.

(** A column whose fitted minimum and maximum are equal has range 0, which
    the fit replaces by 1. *)
Lemma handle_zeros_degenerate (lo : float) :
  F64.isfinite lo = true → handle_zeros_in_scale (F64.sub lo lo) = F64.one.
Proof. intros H. by rewrite F64_sub_diag. Qed.

Lemma MinMaxScaler_fit_degenerate (mins maxs : list float) (i : nat) (lo : float) :
  mins !! i = Some lo →
  maxs !! i = Some lo →
  F64.isfinite lo = true →
  scale_ (MinMaxScaler_fit mins maxs) !! i = Some F64.one
  ∧ min_ (MinMaxScaler_fit mins maxs) !! i
    = Some (F64.sub F64.zero (F64.mul lo F64.one)).
Proof.
  intros Hmin Hmax Hfin.
  assert (scale_ (MinMaxScaler_fit mins maxs) !! i = Some F64.one) as Hscale.
  { simpl. rewrite lookup_zip_with, Hmin, Hmax. simpl.
    by rewrite handle_zeros_degenerate. }
  split; [done |].
  simpl in *. by rewrite lookup_zip_with, Hmin, Hscale.
Qed.

(** C4, as the code has it: a numeric field whose fitted minimum and maximum
    are equal is not an error.  The fit has stored the scale factor 1 for it
    (the zero range is replaced by 1), and on a valid record
    [preprocess_data] returns the feature vector, in which the field is
    [value * 1 + (0 - min * 1)]. *)
Theorem degenerate_scale_is_not_an_error
    (s : store) (data : frame) (mins maxs : list float)
    (i : nat) (col : string) (lo : float) :
  min_max_scaler s = MinMaxScaler_fit mins maxs →
  min_max_scale_cols !! i = Some col →
  mins !! i = Some lo →
  maxs !! i = Some lo →
  F64.isfinite lo = true →
  valid_record s data →
  scale_ (min_max_scaler s) !! i = Some F64.one
  ∧ (preprocess_data data s).1 = Ok (Spec.feature_vector s data)
  ∧ Spec.feature_vector s data !! (5 + i)%nat
    = Some (F64.add (F64.mul (Spec.number data col) F64.one)
                    (F64.sub F64.zero (F64.mul lo F64.one))).
Proof.
  intros Hfit Hcol Hmin Hmax Hfin Hvalid.
  destruct (MinMaxScaler_fit_degenerate mins maxs i lo Hmin Hmax Hfin)
    as [Hscale Hoff].
  rewrite <- Hfit in Hscale, Hoff.
  destruct (valid_record_feature_vector s data Hvalid) as (HX & Hlab & Hsc & _).
  split; [done |]. split; [done |].
  unfold Spec.feature_vector.
  rewrite lookup_app_r by lia. rewrite Hlab.
  replace (5 + i - 5)%nat with i by lia.
  rewrite lookup_app_l by (rewrite Hsc; by apply lookup_lt_Some in Hcol).
  unfold Spec.scaled_block.
  rewrite !lookup_zip_with, list_lookup_fmap, Hcol, Hscale, Hoff. done.
Qed.

Lemma degenerate_scale_is_not_an_error_witness :
  let mins := map F64.of_Z [5; 18; 18] in
  let maxs := map F64.of_Z [5; 118; 8684] in
  let s := fixture_store (MinMaxScaler_fit mins maxs) in
  let data := scenario_record (VInt 600) in
  (mins !! 0%nat = Some (F64.of_Z 5)
   ∧ maxs !! 0%nat = Some (F64.of_Z 5)
   ∧ valid_record s data)
  ∧ scale_ (min_max_scaler s) !! 0%nat = Some F64.one
  ∧ (preprocess_data data s).1 = Ok (Spec.feature_vector s data)
  ∧ Spec.feature_vector s data !! 5%nat
    = Some (F64.add (F64.mul (Spec.number data "tenure") F64.one)
                    (F64.sub F64.zero (F64.mul (F64.of_Z 5) F64.one))).
Proof.
  assert (valid_record
            (fixture_store (MinMaxScaler_fit (map F64.of_Z [5; 18; 18])
                                             (map F64.of_Z [5; 118; 8684])))
            (scenario_record (VInt 600))) as Hvalid.
  { destruct (scenario_valid 600 eq_refl) as (Hcat & Hnum & _).
    split; [exact Hcat |]. split; [exact Hnum |]. split; reflexivity. }
  split; [split; [reflexivity | split; [reflexivity | exact Hvalid]] |].
  apply (degenerate_scale_is_not_an_error
           (fixture_store (MinMaxScaler_fit (map F64.of_Z [5; 18; 18])
                                            (map F64.of_Z [5; 118; 8684])))
           (scenario_record (VInt 600))
           (map F64.of_Z [5; 18; 18]) (map F64.of_Z [5; 118; 8684])
           0%nat "tenure" (F64.of_Z 5));
    reflexivity || exact Hvalid.
Defined.

(** Against the specification's sentence: the scaler is fitted on a tenure column
    that is 5 throughout, and the scenario record is encoded without any
    error, to a vector free of NaN whose tenure entry is 12 - 5 = 7; the
    service answers with a prediction. *)
Lemma degenerate_scale_counterexample :
  let sc := MinMaxScaler_fit (map F64.of_Z [5; 18; 18]) (map F64.of_Z [5; 118; 8684]) in
  let s := fixture_store sc in
  let data := scenario_record (VInt 600) in
  data_min_ sc !! 0%nat = data_max_ sc !! 0%nat
  ∧ ∃ X, (preprocess_data data s).1 = Ok X
         ∧ existsb F64.isnan X = false
         ∧ X !! 5%nat = Some (F64.of_Z 7)
         ∧ (predict_record data s).1 = Ok "No Churn".
Proof.
  split; [reflexivity |].
  eexists. split; [by vm_compute |].
  split; [by vm_compute |]. split; by vm_compute.
Qed.

(* ===================================================================== *)
(** ** Whitespace in a numeric field *)
(* ===================================================================== *)

Lemma drop_while_spaces (p : ascii → bool) (w l : list ascii) :
  forallb p w = true → drop_while p (w ++ l)%list = drop_while p l.
Proof.
  induction w as [|c w IH]; simpl; [done |].
  intros [Hc Hw]%andb_prop. rewrite Hc. by apply IH.
Qed.

Lemma drop_while_app (p : ascii → bool) (v w : list ascii) :
  drop_while p (v ++ w)%list
  = match drop_while p v with
    | [] => drop_while p w
    | _ => (drop_while p v ++ w)%list
    end.
Proof.
  induction v as [|c v IH]; simpl.
  - by destruct (drop_while p w).
  - destruct (p c); [apply IH | done].
Qed.

Lemma forallb_rev (p : ascii → bool) (w : list ascii) :
  forallb p (rev w) = forallb p w.
Proof.
  induction w as [|c w IH]; simpl; [done |].
  rewrite forallb_app, IH. simpl. by rewrite andb_true_r, andb_comm.
Qed.

Lemma forallb_drop_while (q p : ascii → bool) (l : list ascii) :
  forallb q l = true → forallb q (drop_while p l) = true.
Proof.
  induction l as [|c l IH]; simpl; [done |].
  intros [Hc Hl]%andb_prop. destruct (p c); [by apply IH |].
  simpl. by rewrite Hc, Hl.
Qed.

(** Padding a string with the whitespace that [float()] skips does not
    change what it reads. *)
Lemma float_strip_padded (w1 v w2 : string) :
  float_whitespace w1 → float_whitespace w2 →
  float_strip (w1 +:+ v +:+ w2) = float_strip v.
Proof.
  unfold float_whitespace, float_strip. intros H1 H2. f_equal.
  rewrite !list_ascii_of_string_app, drop_while_spaces by done.
  rewrite drop_while_app.
  destruct (drop_while float_isspace (list_ascii_of_string v)) as [|c r] eqn:Hv.
  - rewrite <- (app_nil_r (list_ascii_of_string w2)).
    by rewrite drop_while_spaces.
  - by rewrite rev_app_distr, drop_while_spaces by by rewrite forallb_rev.
Qed.

(** What [float()] leaves of a string of whitespace is whitespace. *)
Lemma float_strip_whitespace (w : string) :
  whitespace w → whitespace (float_strip w).
Proof.
  unfold whitespace, float_strip. intros H.
  rewrite list_ascii_of_string_of_list_ascii, forallb_rev.
  apply forallb_drop_while. rewrite forallb_rev. by apply forallb_drop_while.
Qed.

(** [float(w)] raises for a string of whitespace only. *)
Lemma float_of_string_whitespace (w : string) :
  whitespace w → float_of_string w = None.
Proof.
  intros H%float_strip_whitespace. unfold float_of_string, whitespace in *.
  destruct (list_ascii_of_string (float_strip w)) as [|c l]; [done |].
  simpl in H. apply andb_prop in H as [Hc _].
  destruct c as [[] [] [] [] [] [] [] []]; try discriminate Hc; done.
Qed.

(** What the coercion does with a string cell: the one-space string is
    missing, every other string goes to [float()]. *)
Lemma coerce_string_cell (v : string) :
  to_float (replace_space_nan (VStr v))
  = if decide (v = " ") then Ok F64.nan
    else match float_of_string v with
         | Some x => Ok x
         | None => Raise (float_conversion_error v)
         end.
Proof. simpl. by destruct (decide (v = " ")). Qed.

(** C3, as the code has it: of the whitespace strings only the one-space
    string is treated as missing.  Any other string of whitespace only (two
    spaces, a tab, the empty string) is passed to the float conversion, which
    raises. *)
Theorem whitespace_number_raises (w : string) :
  whitespace w →
  w ≠ " " →
  to_float (replace_space_nan (VStr " ")) = Ok F64.nan
  ∧ to_float (replace_space_nan (VStr w)) = Raise (float_conversion_error w).
Proof.
  intros Hw Hne. split; [done |].
  rewrite coerce_string_cell, decide_False by done.
  by rewrite float_of_string_whitespace.
Qed.

Lemma whitespace_number_raises_witness :
  (whitespace "  " ∧ "  " ≠ " ")
  ∧ to_float (replace_space_nan (VStr " ")) = Ok F64.nan
  ∧ to_float (replace_space_nan (VStr "  ")) = Raise (float_conversion_error "  ").
Proof.
  split; [split; [reflexivity | discriminate] |].
  apply (whitespace_number_raises "  ").
  - reflexivity.
  - discriminate.
Defined.

(** The scenario record with TotalCharges of two spaces, and of a tab: the
    encoder raises the conversion error and the service returns its
    message. *)
Example scenario_two_spaces :
  (preprocess_data (scenario_record (VStr "  ")) (fixture_store fixture_scaler)).1
  = Raise (float_conversion_error "  ")
  ∧ (predict_record (scenario_record (VStr "  ")) (fixture_store fixture_scaler)).1
    = Ok "could not convert string to float: '  '"
  ∧ (preprocess_data (scenario_record (VStr (String "009" EmptyString)))
       (fixture_store fixture_scaler)).1
    = Raise (float_conversion_error (String "009" EmptyString)).
Proof. split; [by vm_compute |]. split; by vm_compute. Qed.

(* ===================================================================== *)
(** ** A category the encoders do not know *)
(* ===================================================================== *)

#[local] Opaque label_encode_cols one_hot_encode_cols min_max_scale_cols.

(** [preprocess_data] returns what [encode] computes. *)
Lemma preprocess_data_encode (data : frame) (s : store) :
  (preprocess_data data s).1
  = match encode s data with
    | Ok (_, X) => Ok X
    | Raise e => Raise e
    end.
Proof.
  unfold preprocess_data, encode, mbind, M_bind, res_bind, lift, global.
  destruct (strip_columns data) as [df1|e]; [|done].
  destruct (coerce_numeric df1) as [df2|e]; [|done].
  destruct (impute_numeric df2) as [df3|e]; [|done].
  rewrite label_encode_eq.
  destruct (for_each _ _ df3) as [df4|e]; [|done].
  destruct (getitems df4 one_hot_encode_cols) as [cs|e]; [|done].
  destruct (OneHotEncoder_transform _ cs) as [oh|e]; [|done].
  destruct (getitems df4 min_max_scale_cols) as [ns|e]; [|done].
  destruct (MinMaxScaler_transform _ ns) as [sc|e]; [|done].
  by destruct (getitems df4 label_encode_cols) as [ls|e].
Qed.

(** *** What the first steps leave in the frame *)

Lemma stripped_not_min_max (c : string) :
  c ∈ (label_encode_cols ++ one_hot_encode_cols)%list → c ∉ min_max_scale_cols.
Proof. intros Hc Hm. by apply (min_max_not_stripped c). Qed.

Lemma strip_columns_cells (data df1 : frame) (c : string) :
  strip_columns data = Ok df1 →
  c ∈ (label_encode_cols ++ one_hot_encode_cols)%list →
  ∃ cell, df1 !! c = Some cell
          ∧ ∀ v, data !! c = Some (VStr v) → cell = VStr (strip v).
Proof.
  intros Hrun Hc.
  destruct (for_each_inv strip_column strip_column_own _ _ _
              stripped_cols_NoDup Hrun) as [Hin _].
  destruct (Hin c Hc) as (d & d' & Hstep & Hd & Hd').
  unfold strip_column, getitem in Hstep. rewrite Hd in Hstep.
  destruct (data !! c) as [x|]; simpl in Hstep; [|done].
  destruct (str_strip x) as [x'|e] eqn:Hx; simpl in Hstep; [|done].
  injection Hstep as <-. exists x'. split.
  - by rewrite Hd', lookup_insert_eq.
  - intros v [= ->]. simpl in Hx. by injection Hx as <-.
Qed.

Lemma astype_float_inv (cs cs' : list pyval) :
  astype_float cs = Ok cs' →
  ∃ xs, cs' = map VFloat xs ∧ length xs = length cs.
Proof.
  unfold astype_float. revert cs'.
  induction cs as [|c cs IH]; intros cs'; simpl.
  - intros [= <-]. by exists [].
  - destruct (to_float c) as [x|e]; simpl; [|done].
    destruct (map_res _ cs) as [ys|e]; simpl; [|done].
    intros [= <-]. destruct (IH ys eq_refl) as (xs & -> & Hlen).
    exists (x :: xs). split; [done |]. simpl. by rewrite Hlen.
Qed.

Lemma coerce_numeric_inv (df1 df2 : frame) :
  coerce_numeric df1 = Ok df2 →
  ∃ xs, length xs = length min_max_scale_cols
        ∧ df2 = setitems df1 min_max_scale_cols (map VFloat xs).
Proof.
  unfold coerce_numeric.
  destruct (getitems df1 min_max_scale_cols) as [cs|e] eqn:Hget; simpl; [|done].
  destruct (astype_float _) as [cs'|e] eqn:Hcast; simpl; [|done].
  intros [= <-]. destruct (astype_float_inv _ _ Hcast) as (xs & -> & Hlen).
  exists xs. split; [|done].
  rewrite Hlen, length_map. apply getitems_Ok in Hget.
  by apply (map_res_length (getitem df1)).
Qed.

Lemma getitem_Some (df : frame) (c : string) (v : pyval) :
  df !! c = Some v → getitem df c = Ok v.
Proof. intros H. unfold getitem. by rewrite H. Qed.

Lemma getitems_setitems (cols : list string) (vs : list pyval) (df : frame) :
  NoDup cols →
  length vs = length cols →
  getitems (setitems df cols vs) cols = Ok vs.
Proof.
  intros Hnd Hlen. apply getitems_Ok.
  revert vs df Hnd Hlen. induction cols as [|c cols IH]; intros [|v vs] df Hnd Hlen;
    simpl in *; try done.
  apply NoDup_cons in Hnd as [Hc Hnd].
  rewrite (getitem_Some _ c v).
  - simpl. rewrite IH by (done || lia). done.
  - by rewrite setitems_lookup_notin, lookup_insert_eq.
Qed.

Lemma fillna_mean_floats (xs : list float) :
  fillna_mean (map VFloat xs) = Ok (map VFloat xs).
Proof.
  unfold fillna_mean. rewrite map_res_map.
  apply (map_res_ok _ VFloat). intros x _. simpl. by rewrite fillna_mean_single.
Qed.

(** After the coercion the imputation cannot fail, and it changes nothing:
    the mean of the single row is the row. *)
Lemma impute_after_coerce (df : frame) (xs : list float) :
  length xs = length min_max_scale_cols →
  impute_numeric (setitems df min_max_scale_cols (map VFloat xs))
  = Ok (setitems (setitems df min_max_scale_cols (map VFloat xs))
          min_max_scale_cols (map VFloat xs)).
Proof.
  intros Hlen. unfold impute_numeric.
  rewrite getitems_setitems by (apply min_max_cols_NoDup || by rewrite length_map).
  simpl. by rewrite fillna_mean_floats.
Qed.

(** *** Where an unknown category stops the encoder *)

Lemma label_column_raise (encoders : gmap string LabelEncoder) (c : string)
    (le : LabelEncoder) (d : frame) (e : exn) :
  encoders !! c = Some le →
  is_Some (d !! c) →
  label_column encoders c d = Raise e →
  ∃ what, e = unseen_labels_error what.
Proof.
  intros Hle [x Hx]. unfold label_column, dict_getitem, getitem.
  rewrite Hle, Hx. simpl.
  destruct (LabelEncoder_transform le x) as [x'|e'] eqn:Hstep; simpl; [done |].
  intros [= <-]. by apply (LabelEncoder_transform_raise le x).
Qed.


Lemma one_hot_columns_unknown (cats : list (list string)) (cs : list pyval)
    (n i : nat) (c : pyval) (cat : list string) :
  cs !! i = Some c →
  cats !! i = Some cat →
  category_index c cat = None →
  ∃ what col, one_hot_columns n cats cs = Raise (unknown_categories_error what col).
Proof.
  revert n cats cs.
  induction i as [|i IH]; intros n [|cat0 cats] [|c0 cs]; simpl; try done.
  - intros [= ->] [= ->] ->. by eexists _, _.
  - intros Hc Hcat Hidx.
    destruct (category_index c0 cat0); [|by eexists _, _].
    destruct (IH (S n) cats cs Hc Hcat Hidx) as (what & col & ->).
    by eexists _, _.
Qed.




#[local] Transparent label_encode_cols one_hot_encode_cols min_max_scale_cols.



(** The specification's example, InternetService = "Cable" with all else
    valid: the one-hot encoder rejects the value in its column 1, and the
    service returns the message. *)
Example scenario_Cable :
  let s := fixture_store fixture_scaler in
  let data := <["InternetService" := VStr "Cable"]> (scenario_record (VInt 600)) in
  (preprocess_data data s).1 = Raise (unknown_categories_error "'Cable'" 1)
  ∧ (predict_record data s).1
    = Ok "Found unknown categories ['Cable'] in column 1 during transform".
Proof. split; by vm_compute. Qed.

(** A value that only the one-hot encoder would reject, in a record whose
    tenure is not a number: the exception is the conversion's, the step
    that runs before the encoders. *)
Example scenario_Cable_and_bad_tenure :
  let s := fixture_store fixture_scaler in
  let data :=
    <["tenure" := VStr "abc"]>
      (<["InternetService" := VStr "Cable"]> (scenario_record (VInt 600))) in
  (preprocess_data data s).1 = Raise (float_conversion_error "abc").
Proof. by vm_compute. Qed.


(* ===================================================================== *)
(** ** What the calls print *)
(* ===================================================================== *)

#[local] Opaque label_encode_cols one_hot_encode_cols min_max_scale_cols.

(** [preprocess_data] as a whole: the value, and the store it leaves. *)
Lemma preprocess_data_run (data : frame) (s : store) :
  preprocess_data data s
  = match encode s data with
    | Ok (df, X) => (Ok X, printed (PrintFrame df) s)
    | Raise e => (Raise e, s)
    end.
Proof.
  unfold preprocess_data, encode, mbind, M_bind, res_bind, lift, global, printed.
  destruct (strip_columns data) as [df1|e]; [|done].
  destruct (coerce_numeric df1) as [df2|e]; [|done].
  destruct (impute_numeric df2) as [df3|e]; [|done].
  rewrite label_encode_eq.
  destruct (for_each _ _ df3) as [df4|e]; [|done].
  destruct (getitems df4 one_hot_encode_cols) as [cs|e]; [|done].
  destruct (OneHotEncoder_transform _ cs) as [oh|e]; [|done].
  destruct (getitems df4 min_max_scale_cols) as [ns|e]; [|done].
  destruct (MinMaxScaler_transform _ ns) as [sc|e]; [|done].
  by destruct (getitems df4 label_encode_cols) as [ls|e].
Qed.

(** The columns the encoder does not name are in the frame it builds as they
    were in the record. *)
Lemma encode_other_columns (s : store) (data df : frame) (X : list float)
    (k : string) :
  encode s data = Ok (df, X) → k ∉ used_cols → df !! k = data !! k.
Proof.
  unfold encode, used_cols. rewrite !not_elem_of_app. intros Hrun (Hl & Ho & Hm).
  destruct (strip_columns data) as [df1|e] eqn:H1; simpl in Hrun; [|done].
  destruct (coerce_numeric df1) as [df2|e] eqn:H2; simpl in Hrun; [|done].
  destruct (coerce_numeric_inv df1 df2 H2) as (xs & Hlen & ->).
  rewrite impute_after_coerce in Hrun by done. simpl in Hrun.
  destruct (for_each label_encode_cols _ _) as [df4|e] eqn:H4; simpl in Hrun; [|done].
  destruct (getitems df4 one_hot_encode_cols ≫= _) as [oh|e]; simpl in Hrun; [|done].
  destruct (getitems df4 min_max_scale_cols ≫= _) as [sc|e]; simpl in Hrun; [|done].
  destruct (getitems df4 label_encode_cols ≫= _) as [ls|e]; simpl in Hrun; [|done].
  injection Hrun as <- _.
  destruct (for_each_inv _ (label_column_own (label_encoders s)) _ _ _
              label_cols_NoDup H4) as [_ H4out].
  rewrite H4out, !setitems_lookup_notin by done.
  destruct (for_each_inv strip_column strip_column_own _ _ _
              stripped_cols_NoDup H1) as [_ H1out].
  apply H1out. rewrite not_elem_of_app. done.
Qed.

(** X1: a call of [preprocess_data] that raises leaves the process state
    exactly as it was, standard output included: nothing is printed before
    the last step.  A call that returns has printed one frame, and nothing
    else has changed; in that frame the columns the encoder does not name
    (SeniorCitizen, and any other key of the record) are as they were
    passed. *)
Theorem preprocess_data_effects (data : frame) (s : store) :
  match (preprocess_data data s).1 with
  | Raise _ => (preprocess_data data s).2 = s
  | Ok _ =>
      ∃ df, (preprocess_data data s).2 = printed (PrintFrame df) s
            ∧ stdout (preprocess_data data s).2 = (stdout s ++ [PrintFrame df])%list
            ∧ same_artifacts s (preprocess_data data s).2
            ∧ ∀ k, k ∉ used_cols → df !! k = data !! k
  end.
Proof.
  rewrite preprocess_data_run.
  destruct (encode s data) as [[df X]|e] eqn:Hrun; simpl; [|done].
  exists df. split; [done |]. split; [done |]. split; [done |].
  intros k Hk. by apply (encode_other_columns s data df X).
Qed.

(** [predict] as a whole: the value, and the store it leaves. *)
Lemma predict_record_run (data : frame) (s : store) :
  predict_record data s
  = match encode s data with
    | Raise e => (Ok (str_exn e), printed (PrintError e) s)
    | Ok (df, X) =>
        match classify s X with
        | Ok r => (Ok r, printed (PrintFrame df) s)
        | Raise e =>
            (Ok (str_exn e), printed (PrintError e) (printed (PrintFrame df) s))
        end
    end.
Proof.
  unfold predict_record, try_except, mbind at 1, M_bind.
  rewrite preprocess_data_run.
  destruct (encode s data) as [[df X]|e]; simpl; [|done].
  unfold classify, mbind, M_bind, res_bind, global, lift, printed. simpl.
  destruct (LogisticRegression_predict (model s) X) as [y|e]; simpl; [|done].
  by destruct (LabelEncoder_inverse_transform (le_target s) y) as [label|e].
Qed.

(** X2: what [predict] prints.  It prints the error, after the text
    "Error during prediction:", exactly when it returns the message of that
    error; the frame is printed before it when the failure comes after
    [preprocess_data] (from the classifier or the decoding), and alone when
    the call succeeds.  The loaded transformers are never changed. *)
Theorem predict_prints
    (gender senior_citizen partner dependents tenure phone_service multiple_lines
     internet_service online_security online_backup device_protection tech_support
     streaming_tv streaming_movies contract paperless_billing payment_method
     monthly_charges total_charges : pyval) (s : store) :
  let data :=
    input_record gender senior_citizen partner dependents tenure phone_service
      multiple_lines internet_service online_security online_backup
      device_protection tech_support streaming_tv streaming_movies contract
      paperless_billing payment_method monthly_charges total_charges in
  let run :=
    predict gender senior_citizen partner dependents tenure phone_service
      multiple_lines internet_service online_security online_backup
      device_protection tech_support streaming_tv streaming_movies contract
      paperless_billing payment_method monthly_charges total_charges s in
  same_artifacts s run.2
  ∧ match encode s data with
    | Raise e =>
        run.1 = Ok (str_exn e) ∧ stdout run.2 = (stdout s ++ [PrintError e])%list
    | Ok (df, X) =>
        match classify s X with
        | Ok r => run.1 = Ok r ∧ stdout run.2 = (stdout s ++ [PrintFrame df])%list
        | Raise e =>
            run.1 = Ok (str_exn e)
            ∧ stdout run.2 = (stdout s ++ [PrintFrame df; PrintError e])%list
        end
    end.
Proof.
  intros data run. unfold run, predict. fold data. rewrite predict_record_run.
  destruct (encode s data) as [[df X]|e]; simpl; [|done].
  destruct (classify s X) as [r|e]; simpl; [done |].
  split; [done |]. split; [done |]. by rewrite <- app_assoc.
Qed.

(* ===================================================================== *)
(** ** Records with a column missing, or a number where a string goes *)
(* ===================================================================== *)

Lemma strip_column_raise (c : string) (d : frame) (e : exn) :
  strip_column c d = Raise e →
  (d !! c = None ∧ e = KeyError c)
  ∨ (∃ x, d !! c = Some x ∧ is_number x ∧ e = str_accessor_error).
Proof.
  unfold strip_column, getitem.
  destruct (d !! c) as [x|]; simpl.
  - destruct x as [v|z|x|]; simpl; try done; intros [= <-]; right; by eexists.
  - intros [= <-]. by left.
Qed.

Lemma strip_column_Ok (c : string) (d d' : frame) :
  strip_column c d = Ok d' →
  ∃ x, d !! c = Some x ∧ ¬ is_number x.
Proof.
  unfold strip_column, getitem.
  destruct (d !! c) as [x|]; simpl; [|done].
  destruct x as [v|z|x|]; simpl; try done; intros _;
    (eexists; split; [done | simpl; tauto]).
Qed.

(** X3: a record that lacks one of the eighteen columns the encoder names is
    never encoded: [preprocess_data] raises and [predict] returns the
    message.  The exception is a [KeyError], that of the categorical column
    that is missing (its argument is the name of the column) or, when every
    categorical column is there, that of the selection of the numeric
    columns; unless a categorical field that holds a number has raised the
    [AttributeError] of the [.str] accessor before the missing column is
    reached. *)
Theorem missing_column_raises (data : frame) (s : store) (col : string) :
  col ∈ used_cols →
  data !! col = None →
  ∃ e, (preprocess_data data s).1 = Raise e
       ∧ (predict_record data s).1 = Ok (str_exn e)
       ∧ ((∃ msg, e = AttributeError msg)
          ∨ (∃ k, k ∈ (label_encode_cols ++ one_hot_encode_cols)%list
                  ∧ data !! k = None ∧ e = KeyError k)
          ∨ ((∀ k, k ∈ (label_encode_cols ++ one_hot_encode_cols)%list →
                   is_Some (data !! k))
             ∧ ∃ msg, e = KeyError msg)).
Proof.
  intros Hcol Hnone.
  enough (∃ e, encode s data = Raise e
               ∧ ((∃ msg, e = AttributeError msg)
                  ∨ (∃ k, k ∈ (label_encode_cols ++ one_hot_encode_cols)%list
                          ∧ data !! k = None ∧ e = KeyError k)
                  ∨ ((∀ k, k ∈ (label_encode_cols ++ one_hot_encode_cols)%list →
                           is_Some (data !! k))
                     ∧ ∃ msg, e = KeyError msg))) as (e & He & Hkind).
  { assert ((preprocess_data data s).1 = Raise e) as Hraise.
    { by rewrite preprocess_data_encode, He. }
    exists e. split; [done |]. split; [|done].
    by rewrite predict_record_eq, Hraise. }
  unfold encode.
  destruct (strip_columns data) as [df1|e] eqn:H1; simpl.
  - destruct (for_each_inv strip_column strip_column_own _ _ _
                stripped_cols_NoDup H1) as [Hin Hout].
    assert (∀ k, k ∈ (label_encode_cols ++ one_hot_encode_cols)%list →
                 is_Some (data !! k)) as Hall.
    { intros k Hk. destruct (Hin k Hk) as (d & d' & Hstep & Hd & _).
      destruct (strip_column_Ok k d d' Hstep) as (x & Hx & _).
      rewrite <- Hd, Hx. by eexists. }
    assert (col ∈ min_max_scale_cols) as Hmm.
    { unfold used_cols in Hcol. rewrite app_assoc in Hcol.
      apply elem_of_app in Hcol as [Hcol|Hcol]; [|done]. exfalso.
      destruct (Hall col Hcol) as [x Hx]. congruence. }
    destruct (getitems_missing df1 min_max_scale_cols col Hmm) as (msg & Hget).
    { rewrite Hout by by apply min_max_not_stripped. done. }
    unfold coerce_numeric. rewrite Hget. simpl.
    eexists. split; [done |]. right. right. split; [done | by eexists].
  - destruct (for_each_raise strip_column strip_column_own _ _ _
                stripped_cols_NoDup H1) as (c & d & Hc & Hraise & Hd).
    exists e. split; [done |].
    destruct (strip_column_raise c d e Hraise) as [[Hn ->]|(x & _ & _ & ->)].
    + right. left. exists c. split; [done |]. split; [congruence | done].
    + left. by eexists.
Qed.

#[local] Transparent label_encode_cols one_hot_encode_cols min_max_scale_cols.

Lemma missing_column_raises_witness :
  let data := delete "tenure" (scenario_record (VInt 600)) in
  let s := fixture_store fixture_scaler in
  ("tenure" ∈ used_cols ∧ data !! "tenure" = None)
  ∧ ∃ e, (preprocess_data data s).1 = Raise e
         ∧ (predict_record data s).1 = Ok (str_exn e)
         ∧ ((∃ msg, e = AttributeError msg)
            ∨ (∃ k, k ∈ (label_encode_cols ++ one_hot_encode_cols)%list
                    ∧ data !! k = None ∧ e = KeyError k)
            ∨ ((∀ k, k ∈ (label_encode_cols ++ one_hot_encode_cols)%list →
                     is_Some (data !! k))
               ∧ ∃ msg, e = KeyError msg)).
Proof.
  assert ("tenure" ∈ used_cols) as Hcol.
  { apply (bool_decide_unpack _). vm_compute. reflexivity. }
  split; [split; [exact Hcol | reflexivity] |].
  apply (missing_column_raises (delete "tenure" (scenario_record (VInt 600)))
           (fixture_store fixture_scaler) "tenure").
  - exact Hcol.
  - reflexivity.
Defined.

(** The scenario record without its tenure, and without its Contract. *)
Example scenario_without_a_column :
  let s := fixture_store fixture_scaler in
  (preprocess_data (delete "tenure" (scenario_record (VInt 600))) s).1
  = Raise (KeyError "['tenure'] not in index")
  ∧ (preprocess_data (delete "Contract" (scenario_record (VInt 600))) s).1
    = Raise (KeyError "Contract").
Proof. split; by vm_compute. Qed.

#[local] Opaque label_encode_cols one_hot_encode_cols min_max_scale_cols.

(** X4: when every categorical column is present and one of them holds a
    number instead of a string, [preprocess_data] raises the
    [AttributeError] of the [.str] accessor, whatever the other fields hold
    (string normalisation is the first step), and [predict] returns the
    message of that error. *)
Theorem number_in_categorical_field (data : frame) (s : store) (col : string) (c : pyval) :
  (∀ k, k ∈ (label_encode_cols ++ one_hot_encode_cols)%list → is_Some (data !! k)) →
  col ∈ (label_encode_cols ++ one_hot_encode_cols)%list →
  data !! col = Some c →
  is_number c →
  ∃ msg, (preprocess_data data s).1 = Raise (AttributeError msg)
         ∧ (predict_record data s).1 = Ok msg.
Proof.
  intros Hall Hcol Hc Hnum.
  assert ((preprocess_data data s).1 = Raise str_accessor_error) as Hraise.
  { rewrite preprocess_data_encode. unfold encode.
    destruct (strip_columns data) as [df1|e] eqn:H1; simpl.
    - exfalso.
      destruct (for_each_inv strip_column strip_column_own _ _ _
                  stripped_cols_NoDup H1) as [Hin _].
      destruct (Hin col Hcol) as (d & d' & Hstep & Hd & _).
      destruct (strip_column_Ok col d d' Hstep) as (x & Hx & Hnot).
      apply Hnot. congruence.
    - destruct (for_each_raise strip_column strip_column_own _ _ _
                  stripped_cols_NoDup H1) as (k & d & Hk & Hstep & Hd).
      destruct (strip_column_raise k d e Hstep) as [[Hn _]|(x & _ & _ & ->)];
        [|done].
      destruct (Hall k Hk) as [x Hx]. congruence. }
  unfold str_accessor_error in Hraise.
  eexists. split; [exact Hraise |]. by rewrite predict_record_eq, Hraise.
Qed.

#[local] Transparent label_encode_cols one_hot_encode_cols min_max_scale_cols.

Lemma number_in_categorical_field_witness :
  let data := <["Contract" := VInt 1]> (scenario_record (VStr "abc")) in
  let s := fixture_store fixture_scaler in
  ((∀ k, k ∈ (label_encode_cols ++ one_hot_encode_cols)%list → is_Some (data !! k))
   ∧ "Contract" ∈ (label_encode_cols ++ one_hot_encode_cols)%list
   ∧ data !! "Contract" = Some (VInt 1)
   ∧ is_number (VInt 1))
  ∧ ∃ msg, (preprocess_data data s).1 = Raise (AttributeError msg)
           ∧ (predict_record data s).1 = Ok msg.
Proof.
  assert (∀ k, k ∈ (label_encode_cols ++ one_hot_encode_cols)%list →
               is_Some (<["Contract" := VInt 1]> (scenario_record (VStr "abc")) !! k))
    as Hall.
  { apply Forall_forall. apply (bool_decide_unpack _). vm_compute. reflexivity. }
  assert ("Contract" ∈ (label_encode_cols ++ one_hot_encode_cols)%list) as Hcol.
  { apply (bool_decide_unpack _). vm_compute. reflexivity. }
  split; [split; [exact Hall | split; [exact Hcol | split; [reflexivity | exact I]]] |].
  apply (number_in_categorical_field
           (<["Contract" := VInt 1]> (scenario_record (VStr "abc")))
           (fixture_store fixture_scaler) "Contract" (VInt 1)).
  - exact Hall.
  - exact Hcol.
  - reflexivity.
  - exact I.
Defined.

#[local] Opaque label_encode_cols one_hot_encode_cols min_max_scale_cols.

(* ===================================================================== *)
(** ** The record [predict] builds *)
(* ===================================================================== *)

(** A loop whose rounds keep [I]: it ends in a state with [I], or with an
    exception that one of the rounds raised from a state with [I]. *)
Lemma for_each_hoare {A S : Type} (I : S → Prop) (Q : exn → Prop)
    (xs : list A) (body : A → S → res S) :
  (∀ x s, x ∈ xs → I s →
          match body x s with Ok s' => I s' | Raise e => Q e end) →
  ∀ s, I s → match for_each xs body s with Ok s' => I s' | Raise e => Q e end.
Proof.
  induction xs as [|x xs IH]; intros Hbody s Hs; simpl; [done |].
  pose proof (Hbody x s) as Hx.
  destruct (body x s) as [s'|e]; simpl; [|by apply Hx; [left |]].
  apply IH; [|by apply Hx; [left |]].
  intros y t Hy. apply Hbody. by right.
Qed.

Lemma has_columns_insert (df : frame) (c : string) (v : pyval) :
  has_columns df → has_columns (<[c := v]> df).
Proof.
  intros H k Hk. destruct (decide (c = k)) as [->|Hne].
  - rewrite lookup_insert_eq. by eexists.
  - rewrite lookup_insert_ne by done. by apply H.
Qed.

Lemma has_columns_setitems (df : frame) (cols : list string) (vs : list pyval) :
  has_columns df → has_columns (setitems df cols vs).
Proof.
  revert vs df. induction cols as [|c cols IH]; intros [|v vs] df H; simpl; try done.
  by apply IH, has_columns_insert.
Qed.

Lemma getitems_present (df : frame) (cols : list string) :
  (∀ c, c ∈ cols → is_Some (df !! c)) → ∃ cs, getitems df cols = Ok cs.
Proof.
  intros H. exists (map (λ c, default VNone (df !! c)) cols).
  apply getitems_ok. intros c Hc. by destruct (H c Hc) as [x ->].
Qed.

Lemma to_float_raise (c : pyval) (e : exn) : to_float c = Raise e → input_error e.
Proof.
  destruct c as [v|z|x|]; simpl; try done.
  - destruct (float_of_string v); [done |]. by intros [= <-].
  - destruct (F64.isinf _); [|done]. by intros [= <-].
Qed.

Lemma astype_float_raise (cs : list pyval) (e : exn) :
  astype_float cs = Raise e → input_error e.
Proof.
  unfold astype_float. intros (c & _ & Hc)%map_res_raise.
  destruct (to_float c) as [x|e'] eqn:Hx; simpl in Hc; [done |].
  injection Hc as ->. by apply (to_float_raise c).
Qed.

Lemma one_hot_columns_raise (cats : list (list string)) (cs : list pyval)
    (n : nat) (e : exn) :
  one_hot_columns n cats cs = Raise e → input_error e.
Proof.
  revert n cs. induction cats as [|cat cats IH]; intros n [|c cs]; simpl; try done.
  destruct (category_index c cat); [|by intros [= <-]].
  destruct (one_hot_columns (S n) cats cs) as [rest|e'] eqn:Hrest; simpl; [done |].
  intros [= ->]. by apply (IH (S n) cs).
Qed.

Lemma OneHotEncoder_transform_raise (enc : OneHotEncoder) (cs : list pyval) (e : exn) :
  OneHotEncoder_transform enc cs = Raise e → input_error e.
Proof.
  unfold OneHotEncoder_transform. destruct (decide _).
  - apply one_hot_columns_raise.
  - by intros [= <-].
Qed.

Lemma MinMaxScaler_transform_raise (sc : MinMaxScaler) (cs : list pyval) (e : exn) :
  MinMaxScaler_transform sc cs = Raise e → input_error e.
Proof.
  unfold MinMaxScaler_transform.
  destruct (map_res to_float cs) as [xs|e'] eqn:Hxs; simpl.
  - unfold assert_all_finite, check_n_features. simpl.
    destruct (existsb F64.isinf xs); simpl; [by intros [= <-] |].
    destruct (decide _); simpl; [done | by intros [= <-]].
  - intros [= ->]. apply map_res_raise in Hxs as (c & _ & Hc).
    by apply (to_float_raise c).
Qed.

(** On a record with all its columns, and with an encoder for each label
    column, whatever [encode] raises reports a bad value. *)
Lemma encode_raises_input_error (s : store) (data : frame) (e : exn) :
  has_columns data →
  (∀ c, c ∈ label_encode_cols → is_Some (label_encoders s !! c)) →
  encode s data = Raise e →
  input_error e.
Proof.
  intros Hdata Henc. unfold encode.
  pose proof (for_each_hoare has_columns input_error
                (label_encode_cols ++ one_hot_encode_cols)%list strip_column) as H1.
  specialize (H1 (λ c df Hc Hdf,
    ltac:(unfold strip_column, getitem;
          destruct (Hdf c (stripped_cols_used c Hc)) as [x ->]; simpl;
          destruct (str_strip x) as [x'|e'] eqn:Hx; simpl;
          [by apply has_columns_insert
          |destruct x; simpl in Hx; try done; by injection Hx as <-])) data Hdata).
  fold (strip_columns data) in H1.
  destruct (strip_columns data) as [df1|e1]; simpl; [|by intros [= <-]].
  destruct (coerce_numeric df1) as [df2|e2] eqn:H2; simpl.
  2:{ intros [= <-]. unfold coerce_numeric in H2.
      destruct (getitems_present df1 min_max_scale_cols) as [cs Hcs].
      { intros c Hc. by apply H1, min_max_cols_used. }
      rewrite Hcs in H2. simpl in H2.
      destruct (astype_float _) as [cs'|e'] eqn:Hcast; simpl in H2; [done |].
      injection H2 as ->. by apply astype_float_raise in Hcast. }
  destruct (coerce_numeric_inv df1 df2 H2) as (xs & Hlen & ->).
  rewrite impute_after_coerce by done. simpl.
  set (df3 := setitems _ min_max_scale_cols (map VFloat xs)).
  assert (has_columns df3) as H3 by by do 2 apply has_columns_setitems.
  pose proof (for_each_hoare has_columns input_error
                label_encode_cols (label_column (label_encoders s))) as H4.
  specialize (H4 (λ c df Hc Hdf,
    ltac:(unfold label_column, dict_getitem, getitem;
          destruct (Henc c Hc) as [le ->]; simpl;
          destruct (Hdf c (label_cols_used c Hc)) as [x ->]; simpl;
          destruct (LabelEncoder_transform le x) as [x'|e'] eqn:Hx; simpl;
          [by apply has_columns_insert
          |by apply LabelEncoder_transform_raise in Hx as [what ->]])) df3 H3).
  destruct (for_each label_encode_cols _ df3) as [df4|e4]; simpl; [|by intros [= <-]].
  destruct (getitems_present df4 one_hot_encode_cols) as [cs ->].
  { intros c Hc. by apply H4, one_hot_cols_used. }
  destruct (getitems_present df4 min_max_scale_cols) as [ns ->].
  { intros c Hc. by apply H4, min_max_cols_used. }
  destruct (getitems_present df4 label_encode_cols) as [ls ->].
  { intros c Hc. by apply H4, label_cols_used. }
  simpl.
  destruct (OneHotEncoder_transform _ cs) as [oh|e5] eqn:H5; simpl.
  2:{ intros [= <-]. by apply OneHotEncoder_transform_raise in H5. }
  destruct (MinMaxScaler_transform _ ns) as [sc|e6] eqn:H6; simpl; [done |].
  intros [= <-]. by apply MinMaxScaler_transform_raise in H6.
Qed.

#[local] Transparent label_encode_cols one_hot_encode_cols min_max_scale_cols.

(** The dictionary that [predict] builds has every column the encoder
    names. *)
Lemma input_record_has_columns
    (gender senior_citizen partner dependents tenure phone_service multiple_lines
     internet_service online_security online_backup device_protection tech_support
     streaming_tv streaming_movies contract paperless_billing payment_method
     monthly_charges total_charges : pyval) :
  has_columns
    (input_record gender senior_citizen partner dependents tenure phone_service
       multiple_lines internet_service online_security online_backup
       device_protection tech_support streaming_tv streaming_movies contract
       paperless_billing payment_method monthly_charges total_charges).
Proof.
  unfold has_columns. apply Forall_forall.
  unfold used_cols, label_encode_cols, one_hot_encode_cols, min_max_scale_cols.
  simpl. repeat (constructor; [eexists; reflexivity |]). constructor.
Qed.

#[local] Opaque label_encode_cols one_hot_encode_cols min_max_scale_cols.

(** X5: whatever its arguments, the record that [predict] passes to
    [preprocess_data] has all the columns the encoder reads.  With a label
    encoder loaded for each of the five label columns, any exception that
    [preprocess_data] raises under [predict] therefore reports a bad value
    (the [.str] [AttributeError], a [ValueError], the conversion's
    [OverflowError]), never a [KeyError] for a missing column. *)
Theorem predict_never_misses_a_column
    (gender senior_citizen partner dependents tenure phone_service multiple_lines
     internet_service online_security online_backup device_protection tech_support
     streaming_tv streaming_movies contract paperless_billing payment_method
     monthly_charges total_charges : pyval) (s : store) :
  (∀ c, c ∈ label_encode_cols → is_Some (label_encoders s !! c)) →
  ∀ e,
    (preprocess_data
       (input_record gender senior_citizen partner dependents tenure phone_service
          multiple_lines internet_service online_security online_backup
          device_protection tech_support streaming_tv streaming_movies contract
          paperless_billing payment_method monthly_charges total_charges) s).1
    = Raise e →
    input_error e ∧ ∀ k, e ≠ KeyError k.
Proof.
  intros Henc e. rewrite preprocess_data_encode.
  destruct (encode s _) as [[df X]|e'] eqn:Hrun; [done |].
  intros [= ->].
  assert (input_error e) as He.
  { eapply encode_raises_input_error; [|done..]. apply input_record_has_columns. }
  split; [done |]. intros k ->. done.
Qed.

#[local] Transparent label_encode_cols one_hot_encode_cols min_max_scale_cols.

Lemma predict_never_misses_a_column_witness :
  let s := fixture_store fixture_scaler in
  (∀ c, c ∈ label_encode_cols → is_Some (label_encoders s !! c))
  ∧ ∀ e, (preprocess_data (scenario_record (VStr "abc")) s).1 = Raise e →
         input_error e ∧ ∀ k, e ≠ KeyError k.
Proof.
  assert (∀ c, c ∈ label_encode_cols →
               is_Some (label_encoders (fixture_store fixture_scaler) !! c)) as Henc.
  { apply Forall_forall. unfold label_encode_cols.
    repeat (constructor; [eexists; reflexivity |]). constructor. }
  split; [exact Henc |].
  exact (predict_never_misses_a_column
           (VStr "Female") (VInt 0) (VStr "Yes") (VStr "No") (VInt 12)
           (VStr "Yes") (VStr "No") (VStr "DSL") (VStr "Yes") (VStr "No")
           (VStr "No") (VStr "No") (VStr "No") (VStr "No") (VStr "One year")
           (VStr "No") (VStr "Mailed check") (VFloat (F64.of_Z 50)) (VStr "abc")
           (fixture_store fixture_scaler) Henc).
Defined.

#[local] Opaque label_encode_cols one_hot_encode_cols min_max_scale_cols.

(* ===================================================================== *)
(** ** Numeric fields: what is read as the same number *)
(* ===================================================================== *)

Lemma strip_columns_insert_other (data : frame) (col : string) (c : pyval) :
  col ∉ (label_encode_cols ++ one_hot_encode_cols)%list →
  strip_columns (<[col := c]> data)
  = df ← strip_columns data; Ok (<[col := c]> df).
Proof.
  unfold strip_columns.
  generalize (label_encode_cols ++ one_hot_encode_cols)%list as cols.
  intros cols. revert data.
  induction cols as [|k cols IH]; intros data Hcol; simpl; [done |].
  apply not_elem_of_cons in Hcol as [Hne Hcol].
  rewrite strip_column_insert_ne by done.
  destruct (strip_column k data) as [df'|e]; simpl; [|done].
  by apply IH.
Qed.

(** Assigning every column of [cols] overwrites what one of them held. *)
Lemma setitems_insert_overwritten (cols : list string) (vs : list pyval)
    (df : frame) (col : string) (c : pyval) :
  col ∈ cols →
  length vs = length cols →
  setitems (<[col := c]> df) cols vs = setitems df cols vs.
Proof.
  revert vs df. induction cols as [|k cols IH]; intros [|v vs] df Hcol Hlen;
    simpl in *; try done.
  - by apply elem_of_nil in Hcol.
  - destruct (decide (k = col)) as [->|Hne].
    + by rewrite insert_insert_eq.
    + apply elem_of_cons in Hcol as [->|Hcol]; [done |].
      rewrite insert_insert_ne by done. apply IH; [done | lia].
Qed.

(** Reading back what was just read changes nothing. *)
Lemma setitems_getitems_id (df : frame) (cols : list string) (vs : list pyval) :
  getitems df cols = Ok vs → setitems df cols vs = df.
Proof.
  intros H%getitems_Ok. revert vs H.
  induction cols as [|k cols IH]; intros vs; simpl; [by intros [= <-] |].
  destruct (getitem df k) as [v|e] eqn:Hk; simpl; [|done].
  destruct (map_res (getitem df) cols) as [vs'|e] eqn:Hvs; simpl; [|done].
  intros [= <-]. simpl. rewrite insert_id; [by apply IH |].
  unfold getitem in Hk. destruct (df !! k); [by injection Hk as -> | done].
Qed.

Lemma getitems_insert_rel (df : frame) (cols : list string) (col : string)
    (c c' : pyval) :
  to_float (replace_space_nan c) = to_float (replace_space_nan c') →
  rel_res (Forall2 (λ a b, to_float (replace_space_nan a)
                           = to_float (replace_space_nan b)))
    (getitems (<[col := c]> df) cols) (getitems (<[col := c']> df) cols).
Proof.
  intros Hc. unfold getitems.
  assert (filter (λ k, <[col := c]> df !! k = None) cols
          = filter (λ k, <[col := c']> df !! k = None) cols) as ->.
  { apply list_filter_iff. intros k. destruct (decide (col = k)) as [->|Hne].
    - by rewrite !lookup_insert_eq.
    - by rewrite !lookup_insert_ne. }
  destruct (filter _ cols); [|constructor].
  induction cols as [|k cols IH]; [by repeat constructor |].
  change (rel_res
            (Forall2 (λ a b, to_float (replace_space_nan a)
                             = to_float (replace_space_nan b)))
            (x ← getitem (<[col := c]> df) k;
             xs ← map_res (getitem (<[col := c]> df)) cols; Ok (x :: xs))
            (x ← getitem (<[col := c']> df) k;
             xs ← map_res (getitem (<[col := c']> df)) cols; Ok (x :: xs))).
  apply rel_res_bind
    with (R := λ a b, to_float (replace_space_nan a) = to_float (replace_space_nan b)).
  - unfold getitem. destruct (decide (col = k)) as [->|Hne].
    + rewrite !lookup_insert_eq. by constructor.
    + rewrite !lookup_insert_ne by done.
      destruct (df !! k); by constructor.
  - intros a b Hab. eapply rel_res_bind; [exact IH |].
    intros xs ys Hxs. constructor. by constructor.
Qed.

Lemma astype_float_rel (cs cs' : list pyval) :
  Forall2 (λ a b, to_float (replace_space_nan a) = to_float (replace_space_nan b))
          cs cs' →
  astype_float (map replace_space_nan cs) = astype_float (map replace_space_nan cs').
Proof.
  unfold astype_float. induction 1 as [|a b cs cs' Hab _ IH]; simpl; [done |].
  by rewrite Hab, IH.
Qed.

Lemma coerce_numeric_insert (df : frame) (col : string) (c c' : pyval) :
  col ∈ min_max_scale_cols →
  to_float (replace_space_nan c) = to_float (replace_space_nan c') →
  coerce_numeric (<[col := c]> df) = coerce_numeric (<[col := c']> df).
Proof.
  intros Hcol Hc. unfold coerce_numeric.
  pose proof (getitems_insert_rel df min_max_scale_cols col c c' Hc) as Hrel.
  destruct (getitems (<[col := c]> df) min_max_scale_cols) as [cs|e] eqn:H1;
    destruct (getitems (<[col := c']> df) min_max_scale_cols) as [cs'|e'] eqn:H2;
    inversion Hrel as [? ? Hcs|]; subst; simpl; [|done].
  rewrite (astype_float_rel cs cs' Hcs).
  destruct (astype_float _) as [vs|e] eqn:Hcast; simpl; [|done].
  destruct (astype_float_inv _ _ Hcast) as (xs & -> & Hlen).
  assert (length (map VFloat xs) = length min_max_scale_cols) as Hlen'.
  { rewrite !length_map in *. rewrite Hlen. apply getitems_Ok in H2.
    by apply (map_res_length (getitem (<[col := c']> df))). }
  by rewrite !setitems_insert_overwritten.
Qed.

(** Two values that the coercion reads alike can stand for each other in a
    numeric column: the call returns, raises and prints the same. *)
Lemma numeric_cells_interchangeable (data : frame) (s : store) (col : string)
    (c c' : pyval) :
  col ∈ min_max_scale_cols →
  to_float (replace_space_nan c) = to_float (replace_space_nan c') →
  preprocess_data (<[col := c]> data) s = preprocess_data (<[col := c']> data) s.
Proof.
  intros Hcol Hc. unfold preprocess_data, mbind, M_bind, lift.
  rewrite !strip_columns_insert_other by by apply min_max_not_stripped.
  destruct (strip_columns data) as [df1|e]; simpl; [|done].
  by rewrite (coerce_numeric_insert df1 col c c').
Qed.

Lemma float_of_string_padded (w1 v w2 : string) :
  float_whitespace w1 → float_whitespace w2 →
  float_of_string (w1 +:+ v +:+ w2) = float_of_string v.
Proof. intros H1 H2. unfold float_of_string. by rewrite float_strip_padded. Qed.

Lemma parsed_string_coercion (w1 v w2 : string) (x : float) :
  float_of_string v = Some x →
  float_whitespace w1 → float_whitespace w2 →
  to_float (replace_space_nan (VStr (w1 +:+ v +:+ w2))) = Ok x.
Proof.
  intros Hv H1 H2. rewrite coerce_string_cell.
  rewrite float_of_string_padded, Hv by done.
  destruct (decide _) as [Heq|]; [|done]. exfalso.
  pose proof (float_of_string_padded w1 v w2 H1 H2) as Hs.
  rewrite Heq, Hv in Hs. done.
Qed.

(** X6: a numeric field given as a string that Python's [float()] reads,
    with or without the whitespace that [float()] skips around it (spaces,
    tabs, newlines; not U+001C to U+001F), is encoded exactly as the float
    it denotes, and an integer exactly as the float it rounds to: the call
    returns the same vector (or raises the same exception) and prints the
    same frame. *)
Theorem number_as_string_or_int (data : frame) (s : store) (col : string)
    (v w1 w2 : string) (x : float) (z : Z) :
  col ∈ min_max_scale_cols →
  float_of_string v = Some x →
  float_whitespace w1 →
  float_whitespace w2 →
  F64.isinf (F64.of_Z z) = false →
  preprocess_data (<[col := VStr (w1 +:+ v +:+ w2)]> data) s
  = preprocess_data (<[col := VFloat x]> data) s
  ∧ preprocess_data (<[col := VInt z]> data) s
    = preprocess_data (<[col := VFloat (F64.of_Z z)]> data) s.
Proof.
  intros Hcol Hv H1 H2 Hz. split.
  - apply numeric_cells_interchangeable; [done |].
    by rewrite (parsed_string_coercion w1 v w2 x).
  - apply numeric_cells_interchangeable; [done |].
    simpl. by rewrite Hz.
Qed.

(** X7: in a numeric field, [None], the one-space string and NaN are one and
    the same missing value: each of the three gives the same result and the
    same printed frame. *)
Theorem missing_number_forms (data : frame) (s : store) (col : string) :
  col ∈ min_max_scale_cols →
  preprocess_data (<[col := VNone]> data) s
  = preprocess_data (<[col := VStr " "]> data) s
  ∧ preprocess_data (<[col := VFloat F64.nan]> data) s
    = preprocess_data (<[col := VStr " "]> data) s.
Proof.
  intros Hcol. split; by apply numeric_cells_interchangeable.
Qed.

(** X8: the imputation never changes the frame.  After the coercion the
    numeric columns hold floats, and filling a one-row column with its own
    mean returns every cell as it was, NaN included:
    [df[cols].fillna(df[cols].mean())] is the identity here. *)
Theorem imputation_changes_nothing (df0 df : frame) :
  coerce_numeric df0 = Ok df → impute_numeric df = Ok df.
Proof.
  intros (xs & Hlen & ->)%coerce_numeric_inv.
  rewrite impute_after_coerce by done. f_equal.
  apply setitems_getitems_id.
  apply getitems_setitems; [apply min_max_cols_NoDup | by rewrite length_map].
Qed.

#[local] Transparent label_encode_cols one_hot_encode_cols min_max_scale_cols.

Lemma number_as_string_or_int_witness :
  let data := scenario_record (VInt 600) in
  let s := fixture_store fixture_scaler in
  let tab := String "009" EmptyString in
  ("TotalCharges" ∈ min_max_scale_cols
   ∧ float_of_string "600.0" = Some (F64.of_Z 600)
   ∧ float_whitespace " "
   ∧ float_whitespace tab
   ∧ F64.isinf (F64.of_Z 600) = false)
  ∧ preprocess_data (<["TotalCharges" := VStr (" " +:+ "600.0" +:+ tab)]> data) s
    = preprocess_data (<["TotalCharges" := VFloat (F64.of_Z 600)]> data) s
  ∧ preprocess_data (<["TotalCharges" := VInt 600]> data) s
    = preprocess_data (<["TotalCharges" := VFloat (F64.of_Z 600)]> data) s.
Proof.
  assert ("TotalCharges" ∈ min_max_scale_cols) as Hcol.
  { apply (bool_decide_unpack _). vm_compute. reflexivity. }
  assert (float_of_string "600.0" = Some (F64.of_Z 600)) as Hv
    by (vm_compute; reflexivity).
  split.
  { split; [exact Hcol |]. split; [exact Hv |]. repeat split; reflexivity. }
  exact (number_as_string_or_int (scenario_record (VInt 600))
           (fixture_store fixture_scaler) "TotalCharges"
           "600.0" " " (String "009" EmptyString) (F64.of_Z 600) 600
           Hcol Hv eq_refl eq_refl eq_refl).
Defined.

Lemma missing_number_forms_witness :
  let data := scenario_record (VInt 600) in
  let s := fixture_store fixture_scaler in
  "TotalCharges" ∈ min_max_scale_cols
  ∧ preprocess_data (<["TotalCharges" := VNone]> data) s
    = preprocess_data (<["TotalCharges" := VStr " "]> data) s
  ∧ preprocess_data (<["TotalCharges" := VFloat F64.nan]> data) s
    = preprocess_data (<["TotalCharges" := VStr " "]> data) s.
Proof.
  assert ("TotalCharges" ∈ min_max_scale_cols) as Hcol.
  { apply (bool_decide_unpack _). vm_compute. reflexivity. }
  split; [exact Hcol |].
  exact (missing_number_forms (scenario_record (VInt 600))
           (fixture_store fixture_scaler) "TotalCharges" Hcol).
Defined.

Lemma imputation_changes_nothing_witness :
  ∃ df, coerce_numeric (scenario_record (VStr " ")) = Ok df
        ∧ impute_numeric df = Ok df.
Proof.
  destruct (coerce_numeric (scenario_record (VStr " "))) as [df|e] eqn:Hrun.
  - exists df. split; [reflexivity |].
    exact (imputation_changes_nothing (scenario_record (VStr " ")) df Hrun).
  - exfalso. vm_compute in Hrun. discriminate Hrun.
Defined.

(** The scenario with TotalCharges written as a string. *)
Example scenario_TotalCharges_string :
  (scenario (VStr " 600.0 ") (fixture_store fixture_scaler)).1
  = (scenario (VFloat (F64.of_Z 600)) (fixture_store fixture_scaler)).1.
Proof. by vm_compute. Qed.

#[local] Opaque label_encode_cols one_hot_encode_cols min_max_scale_cols.

(* ===================================================================== *)
(** ** What the entries of the vector stand for *)
(* ===================================================================== *)

(** Decoding the code of a string gives the string back. *)
Lemma LabelEncoder_round_trip (le : LabelEncoder) (v : string) (i : nat) :
  index_of v (classes_ le) = Some i →
  LabelEncoder_transform le (VStr v) = Ok (VInt (Z.of_nat i))
  ∧ LabelEncoder_inverse_transform le (Z.of_nat i) = Ok v.
Proof.
  intros Hi. split.
  - by apply LabelEncoder_transform_known.
  - pose proof (index_of_lookup _ _ _ Hi) as Hl.
    pose proof (lookup_lt_Some _ _ _ Hl) as Hlt.
    unfold LabelEncoder_inverse_transform.
    rewrite Nat2Z.id, Hl.
    destruct (_ && _) eqn:Hb; [done |].
    apply andb_false_iff in Hb as [Hb|Hb]; [apply Z.leb_gt in Hb | apply Z.ltb_ge in Hb];
      lia.
Qed.

(** X9: on a valid record, entry [j] of the feature vector (for the [j]-th
    label column) is the code that the column's encoder gives to the stripped
    field, and decoding that code with the same encoder gives the stripped
    field back. *)
Theorem label_entry_decodes (s : store) (data : frame) (j : nat) (col : string)
    (le : LabelEncoder) (v : string) :
  valid_record s data →
  label_encode_cols !! j = Some col →
  label_encoders s !! col = Some le →
  data !! col = Some (VStr v) →
  ∃ code,
    (preprocess_data data s).1 = Ok (Spec.feature_vector s data)
    ∧ Spec.feature_vector s data !! j = Some (F64.of_Z code)
    ∧ LabelEncoder_transform le (VStr (strip v)) = Ok (VInt code)
    ∧ LabelEncoder_inverse_transform le code = Ok (strip v).
Proof.
  intros Hvalid Hj Hle Hv.
  destruct (valid_record_feature_vector s data Hvalid) as (HX & Hlab & _).
  destruct Hvalid as ((Hl & _) & _). rewrite Forall_forall in Hl.
  destruct (Hl col) as (le' & Hle' & v' & Hv' & Hdom);
    [by eapply list_elem_of_lookup_2 |].
  assert (le' = le) as -> by congruence.
  assert (v' = v) as -> by congruence.
  destruct (index_of_elem_of _ _ Hdom) as [i Hi].
  destruct (LabelEncoder_round_trip le (strip v) i Hi) as [Henc Hdec].
  exists (Z.of_nat i). split; [done |]. split; [|done].
  unfold Spec.feature_vector.
  rewrite lookup_app_l by (rewrite Hlab; by apply lookup_lt_Some in Hj).
  unfold Spec.label_block. rewrite list_lookup_fmap, Hj. simpl.
  unfold Spec.label_code, cleaned. by rewrite Hle, Hv, Hi.
Qed.

Lemma indicator_lookup (width i j : nat) :
  (j < width)%nat →
  indicator width i !! j = Some (if decide (j = i) then F64.one else F64.zero).
Proof.
  intros Hj. unfold indicator.
  by rewrite list_lookup_fmap, lookup_seq_lt.
Qed.

(** Where the [n]-th block of a concatenation lies. *)
Lemma lookup_concat_block {A : Type} (ls : list (list A)) (n j : nat) (l : list A) :
  ls !! n = Some l →
  (j < length l)%nat →
  concat ls !! (sum_list (length <$> take n ls) + j)%nat = l !! j.
Proof.
  revert n. induction ls as [|l0 ls IH]; intros [|n]; simpl; try done.
  - intros [= ->] Hj. by rewrite lookup_app_l.
  - intros Hn Hj. rewrite <- (IH n Hn Hj).
    rewrite lookup_app_r by lia. f_equal. unfold fmap. lia.
Qed.

Lemma one_hot_blocks_widths (data : frame) (cols : list string)
    (cats : list (list string)) :
  length cols = length cats →
  length <$> Spec.one_hot_blocks data cols cats = length <$> cats.
Proof.
  revert cats. induction cols as [|col cols IH]; intros [|cat cats]; simpl; try done.
  intros [= Hlen]. rewrite length_indicator. f_equal. by apply IH.
Qed.

(** X10: on a valid record, the vector that [preprocess_data] returns holds,
    after the five label codes, the three scaled numbers and the blocks of
    the one-hot columns before it, the block of each one-hot column: as
    many cells as the column has categories, 1.0 in the cell of the stripped
    field and 0.0 in every other. *)
Theorem one_hot_block_of_column (s : store) (data : frame) (n : nat) (col : string)
    (cat : list string) :
  valid_record s data →
  one_hot_encode_cols !! n = Some col →
  categories_ (one_hot_encoder s) !! n = Some cat →
  ∃ X v i,
    (preprocess_data data s).1 = Ok X
    ∧ data !! col = Some (VStr v)
    ∧ cat !! i = Some (strip v)
    ∧ ∀ j, (j < length cat)%nat →
           X !! (5 + 3
                 + sum_list (length <$> take n (categories_ (one_hot_encoder s)))
                 + j)%nat
           = Some (if decide (j = i) then F64.one else F64.zero).
Proof.
  intros Hvalid Hcol Hcat.
  destruct (valid_record_feature_vector s data Hvalid) as (HX & Hlab & Hsc & _).
  destruct Hvalid as ((_ & Ho) & _).
  destruct (Forall2_lookup_lr _ _ _ _ _ _ Ho Hcol Hcat) as (v & Hv & Hdom).
  assert (cleaned data col = strip v) as Hclean by (unfold cleaned; by rewrite Hv).
  destruct (index_of_elem_of _ _ Hdom) as [i Hi].
  exists (Spec.feature_vector s data), v, i.
  split; [done |]. split; [done |]. split; [by apply index_of_lookup |].
  intros j Hj. unfold Spec.feature_vector.
  rewrite lookup_app_r by lia. rewrite lookup_app_r by lia.
  rewrite Hlab, Hsc. unfold Spec.one_hot_block.
  set (cats := categories_ (one_hot_encoder s)) in *.
  set (blocks := Spec.one_hot_blocks data one_hot_encode_cols cats).
  assert (blocks !! n = Some (indicator (length cat) i)) as Hblock.
  { unfold blocks, Spec.one_hot_blocks.
    rewrite lookup_zip_with, Hcol. simpl. rewrite Hcat. simpl.
    by rewrite Hclean, Hi. }
  replace (5 + 3 + sum_list (length <$> take n cats) + j - 5 - 3)%nat
    with (sum_list (length <$> take n blocks) + j)%nat.
  - rewrite (lookup_concat_block blocks n j _ Hblock)
      by by rewrite length_indicator.
    by apply indicator_lookup.
  - rewrite !fmap_take. unfold blocks.
    rewrite one_hot_blocks_widths by by apply Forall2_length in Ho. lia.
Qed.

#[local] Transparent label_encode_cols one_hot_encode_cols min_max_scale_cols.

Lemma label_entry_decodes_witness :
  let s := fixture_store fixture_scaler in
  let data := scenario_record (VInt 600) in
  (valid_record s data
   ∧ label_encode_cols !! 0%nat = Some "Partner"
   ∧ label_encoders s !! "Partner" = Some yes_no
   ∧ data !! "Partner" = Some (VStr "Yes"))
  ∧ ∃ code,
      (preprocess_data data s).1 = Ok (Spec.feature_vector s data)
      ∧ Spec.feature_vector s data !! 0%nat = Some (F64.of_Z code)
      ∧ LabelEncoder_transform yes_no (VStr (strip "Yes")) = Ok (VInt code)
      ∧ LabelEncoder_inverse_transform yes_no code = Ok (strip "Yes").
Proof.
  split.
  { split; [by apply scenario_valid |]. split; [reflexivity |].
    split; reflexivity. }
  apply (label_entry_decodes (fixture_store fixture_scaler)
           (scenario_record (VInt 600)) 0%nat "Partner" yes_no "Yes").
  - by apply scenario_valid.
  - reflexivity.
  - reflexivity.
  - reflexivity.
Defined.

Lemma one_hot_block_of_column_witness :
  let s := fixture_store fixture_scaler in
  let data := scenario_record (VInt 600) in
  (valid_record s data
   ∧ one_hot_encode_cols !! 8%nat = Some "Contract"
   ∧ categories_ (one_hot_encoder s) !! 8%nat
     = Some ["Month-to-month"; "One year"; "Two year"])
  ∧ ∃ X v i,
      (preprocess_data data s).1 = Ok X
      ∧ data !! "Contract" = Some (VStr v)
      ∧ ["Month-to-month"; "One year"; "Two year"] !! i = Some (strip v)
      ∧ ∀ j, (j < 3)%nat →
             X !! (5 + 3
                   + sum_list (length <$> take 8 (categories_ (one_hot_encoder s)))
                   + j)%nat
             = Some (if decide (j = i) then F64.one else F64.zero).
Proof.
  split.
  { split; [by apply scenario_valid |]. split; reflexivity. }
  apply (one_hot_block_of_column (fixture_store fixture_scaler)
           (scenario_record (VInt 600)) 8%nat "Contract"
           ["Month-to-month"; "One year"; "Two year"]).
  - by apply scenario_valid.
  - reflexivity.
  - reflexivity.
Defined.

#[local] Opaque label_encode_cols one_hot_encode_cols min_max_scale_cols.

(* ===================================================================== *)
(** ** An infinite number *)
(* ===================================================================== *)

(** The coercion reads each field as one float at most. *)
Lemma reads_as_function (data : frame) :
  ∃ h : string → float, ∀ k y, reads_as data k y → h k = y.
Proof.
  exists (λ k, match data !! k with
               | Some c =>
                   match to_float (replace_space_nan c) with
                   | Ok y => y
                   | Raise _ => F64.nan
                   end
               | None => F64.nan
               end).
  intros k y (c & Hc & Hy). by rewrite Hc, Hy.
Qed.

Lemma coerce_numeric_reads (data df1 : frame) (h : string → float) :
  (∀ c, c ∈ min_max_scale_cols → df1 !! c = data !! c) →
  (∀ c, c ∈ min_max_scale_cols → reads_as data c (h c)) →
  coerce_numeric df1
  = Ok (setitems df1 min_max_scale_cols
          (map (λ c, VFloat (h c)) min_max_scale_cols)).
Proof.
  intros Hdf Hnum. unfold coerce_numeric.
  rewrite (getitems_ok df1 _ (λ c, default VNone (data !! c))).
  2:{ intros c Hc. rewrite (Hdf c Hc).
      by destruct (Hnum c Hc) as (x & -> & _). }
  simpl. unfold astype_float. rewrite !map_res_map.
  rewrite (map_res_ok _ (λ c, VFloat (h c))); [done |].
  intros c Hc. destruct (Hnum c Hc) as (x & Hx & Hfloat).
  rewrite Hx. simpl. by rewrite Hfloat.
Qed.

(** With the categorical fields within their domains and the numeric fields
    read as the floats [h], [encode] reaches the scaler, and what it returns
    or raises is decided there. *)
Lemma encode_reads (s : store) (data : frame) (h : string → float) :
  valid_categories s data →
  (∀ c, c ∈ min_max_scale_cols → reads_as data c (h c)) →
  ∃ df4,
    encode s data
    = (scaled ← MinMaxScaler_transform (min_max_scaler s)
                  (map (λ c, VFloat (h c)) min_max_scale_cols);
       Ok (df4, (Spec.label_block s data ++ scaled ++ Spec.one_hot_block s data)%list)).
Proof.
  intros Hcat Hnum.
  destruct (strip_columns_ok data) as (df1 & H1 & H1in & H1out).
  { intros c Hc. by apply (valid_categories_strings s). }
  pose proof (coerce_numeric_reads data df1 h) as H2.
  set (floats := map (λ c, VFloat (h c)) min_max_scale_cols) in *.
  set (df2 := setitems df1 min_max_scale_cols floats) in *.
  pose proof (impute_numeric_ok df2 h) as H3.
  fold floats in H3.
  set (df3 := setitems df2 min_max_scale_cols floats) in *.
  assert (∀ c, c ∈ min_max_scale_cols → df3 !! c = Some (VFloat (h c)))
    as H3in.
  { intros c Hc.
    apply (setitems_lookup_in _ (λ c, VFloat (h c)));
      [apply min_max_cols_NoDup | done]. }
  destruct (label_encode_ok s data df3 Hcat) as (df4 & H4 & H4in & H4out).
  { intros c Hc. unfold df3, df2.
    rewrite !setitems_lookup_notin by by apply label_not_min_max.
    apply H1in, elem_of_app. by left. }
  rewrite label_encode_eq in H4. injection H4 as H4.
  assert (getitems df4 one_hot_encode_cols
          = Ok (map (λ c, VStr (cleaned data c)) one_hot_encode_cols)) as Hoh.
  { apply getitems_ok. intros c Hc.
    rewrite H4out by by apply one_hot_not_label. unfold df3, df2.
    rewrite !setitems_lookup_notin by by apply one_hot_not_min_max.
    apply H1in, elem_of_app. by right. }
  assert (getitems df4 min_max_scale_cols = Ok floats) as Hmm.
  { apply getitems_ok. intros c Hc.
    rewrite H4out by by apply min_max_not_label. by apply H3in. }
  assert (getitems df4 label_encode_cols
          = Ok (map (λ c, VInt (Spec.label_code s data c)) label_encode_cols)) as Hlab.
  { by apply getitems_ok. }
  exists df4. unfold encode.
  rewrite H1; simpl. rewrite H2; simpl.
  - rewrite H3; simpl.
    + rewrite H4. simpl. rewrite Hoh, Hmm, Hlab. simpl.
      unfold OneHotEncoder_transform.
      destruct Hcat as [_ Hcat].
      rewrite length_map, decide_True by by apply Forall2_length in Hcat.
      rewrite one_hot_columns_ok by done. simpl.
      destruct (MinMaxScaler_transform _ floats) as [scaled|e]; simpl; [|done].
      by rewrite map_map.
    + intros c Hc. unfold df2.
      apply (setitems_lookup_in _ (λ c, VFloat (h c)));
        [apply min_max_cols_NoDup | done].
  - intros c Hc. apply H1out. by apply min_max_not_stripped.
  - done.
Qed.

(** X11: with the categorical fields within their domains and every numeric
    field read as a float, a numeric field that reads as an infinity (the
    float itself, or a string such as "inf", "-Infinity" or "1e999") is not
    scaled: the input validation of the scaler raises, after the label and
    one-hot encoders have run, and [predict] returns the message of that
    error.  (NaN, by contrast, passes the scaler.) *)
Theorem infinite_number_is_rejected (s : store) (data : frame) (col : string)
    (x : float) :
  valid_categories s data →
  Forall (λ k, ∃ y, reads_as data k y) min_max_scale_cols →
  col ∈ min_max_scale_cols →
  reads_as data col x →
  F64.isinf x = true →
  (preprocess_data data s).1 = Raise contains_inf_error
  ∧ (predict_record data s).1 = Ok (str_exn contains_inf_error).
Proof.
  intros Hcat Hnum Hcol Hx Hinf. rewrite Forall_forall in Hnum.
  destruct (reads_as_function data) as (h & Hfun).
  assert (∀ k, k ∈ min_max_scale_cols → reads_as data k (h k)) as Hh.
  { intros k Hk. destruct (Hnum k Hk) as (y & Hy). by rewrite (Hfun k y Hy). }
  pose proof (Hfun col x Hx) as Hhx.
  assert ((preprocess_data data s).1 = Raise contains_inf_error) as Hraise.
  { rewrite preprocess_data_encode.
    destruct (encode_reads s data h Hcat Hh) as (df4 & ->).
    unfold MinMaxScaler_transform.
    rewrite map_res_map, (map_res_ok _ h) by done. simpl.
    unfold assert_all_finite. simpl.
    assert (existsb F64.isinf (map h min_max_scale_cols) = true) as ->; [|done].
    apply existsb_exists. exists x. split; [|done].
    rewrite <- Hhx. apply in_map. by apply list_elem_of_In. }
  split; [done |]. by rewrite predict_record_eq, Hraise.
Qed.

#[local] Transparent label_encode_cols one_hot_encode_cols min_max_scale_cols.

Lemma infinite_number_is_rejected_witness :
  let s := fixture_store fixture_scaler in
  let data := scenario_record (VStr "-inf") in
  (valid_categories s data
   ∧ Forall (λ k, ∃ y, reads_as data k y) min_max_scale_cols
   ∧ "TotalCharges" ∈ min_max_scale_cols
   ∧ reads_as data "TotalCharges" (S754_infinity true)
   ∧ F64.isinf (S754_infinity true) = true)
  ∧ (preprocess_data data s).1 = Raise contains_inf_error
  ∧ (predict_record data s).1 = Ok (str_exn contains_inf_error).
Proof.
  assert (Forall (λ k, ∃ y, reads_as (scenario_record (VStr "-inf")) k y)
            min_max_scale_cols) as Hnum.
  { unfold min_max_scale_cols.
    repeat (constructor; [eexists; eexists; split; reflexivity |]). constructor. }
  assert ("TotalCharges" ∈ min_max_scale_cols) as Hcol.
  { apply (bool_decide_unpack _). vm_compute. reflexivity. }
  assert (reads_as (scenario_record (VStr "-inf")) "TotalCharges"
            (S754_infinity true)) as Hx.
  { eexists. split; reflexivity. }
  split.
  { split; [apply scenario_valid_categories |]. split; [exact Hnum |].
    split; [exact Hcol |]. split; [exact Hx | reflexivity]. }
  apply (infinite_number_is_rejected (fixture_store fixture_scaler)
           (scenario_record (VStr "-inf")) "TotalCharges" (S754_infinity true)).
  - apply scenario_valid_categories.
  - exact Hnum.
  - exact Hcol.
  - exact Hx.
  - reflexivity.
Defined.

(** The scenario with TotalCharges written beyond the largest float. *)
Example scenario_TotalCharges_1e999 :
  (preprocess_data (scenario_record (VStr "1e999")) (fixture_store fixture_scaler)).1
  = Raise contains_inf_error.
Proof. by vm_compute. Qed.

#[local] Opaque label_encode_cols one_hot_encode_cols min_max_scale_cols.

(* ===================================================================== *)
(** ** A categorical field left empty *)
(* ===================================================================== *)

Lemma strip_columns_cell (data df1 : frame) (c : string) (x x' : pyval) :
  strip_columns data = Ok df1 →
  c ∈ (label_encode_cols ++ one_hot_encode_cols)%list →
  data !! c = Some x →
  str_strip x = Ok x' →
  df1 !! c = Some x'.
Proof.
  intros Hrun Hc Hx Hx'.
  destruct (for_each_inv strip_column strip_column_own _ _ _
              stripped_cols_NoDup Hrun) as [Hin _].
  destruct (Hin c Hc) as (d & d' & Hstep & Hd & Hd').
  unfold strip_column, getitem in Hstep. rewrite Hd, Hx in Hstep.
  simpl in Hstep. rewrite Hx' in Hstep. simpl in Hstep.
  injection Hstep as <-. by rewrite Hd', lookup_insert_eq.
Qed.

(** A cell that is in no category table of the one-hot encoder, and that
    the label encoder of its column does not know either, stops the encoder
    at the encoder of its column. *)
Lemma encode_rejected_cell (s : store) (data : frame) (col : string) (c c' : pyval) :
  col ∈ (label_encode_cols ++ one_hot_encode_cols)%list →
  data !! col = Some c →
  str_strip c = Ok c' →
  (∀ le, label_encoders s !! col = Some le →
         category_index (column_or_1d le c') (classes_ le) = None) →
  (∀ table, category_index c' table = None) →
  ∃ e, encode s data = Raise e
       ∧ (fitted_encoders s → normalised data → unknown_category e).
Proof.
  intros Hcol Hc Hstrip Hlab Hrej. unfold encode.
  destruct (strip_columns data) as [df1|e] eqn:H1; simpl.
  2:{ exists e. split; [done |]. intros _ (d1 & d2 & Hd1 & _). congruence. }
  destruct (coerce_numeric df1) as [df2|e] eqn:H2; simpl.
  2:{ exists e. split; [done |]. intros _ (d1 & d2 & Hd1 & Hd2). congruence. }
  destruct (coerce_numeric_inv df1 df2 H2) as (xs & Hlen & ->).
  rewrite impute_after_coerce by done. simpl.
  set (df3 := setitems _ min_max_scale_cols (map VFloat xs)).
  assert (∀ k, k ∈ (label_encode_cols ++ one_hot_encode_cols)%list →
               df3 !! k = df1 !! k) as H3.
  { intros k Hk. unfold df3.
    by rewrite !setitems_lookup_notin by by apply stripped_not_min_max. }
  assert (df3 !! col = Some c') as Hcell.
  { rewrite H3 by done. by apply (strip_columns_cell data df1 col c c'). }
  destruct (for_each label_encode_cols _ df3) as [df4|e] eqn:H4; simpl.
  2:{ exists e. split; [done |]. intros [Hfit _] _.
      destruct (for_each_raise _ (label_column_own (label_encoders s)) _ _ _
                  label_cols_NoDup H4) as (k & d & Hk & Hraise & Hd).
      destruct (Hfit k Hk) as [le Hle].
      destruct (strip_columns_cells data df1 k H1) as (cell & Hk1 & _);
        [apply elem_of_app; by left |].
      left. apply (label_column_raise _ k le d e Hle); [|done].
      rewrite Hd, H3, Hk1 by (apply elem_of_app; by left). by eexists. }
  destruct (for_each_inv _ (label_column_own (label_encoders s)) _ _ _
              label_cols_NoDup H4) as [H4in H4out].
  apply elem_of_app in Hcol as [Hcol|Hcol].
  - exfalso.
    destruct (H4in col Hcol) as (d & d' & Hstep & Hd & _).
    unfold label_column, dict_getitem, getitem in Hstep.
    rewrite Hd, Hcell in Hstep.
    destruct (label_encoders s !! col) as [le|] eqn:Hle; simpl in Hstep; [|done].
    unfold LabelEncoder_transform in Hstep. cbv zeta in Hstep.
    by rewrite (Hlab le eq_refl) in Hstep.
  - apply list_elem_of_lookup in Hcol as [i Hi].
    rewrite (getitems_ok df4 one_hot_encode_cols (λ k, default VNone (df4 !! k))).
    2:{ intros k Hk. rewrite H4out by by apply one_hot_not_label.
        rewrite H3 by (apply elem_of_app; by right).
        destruct (strip_columns_cells data df1 k H1) as (cell & -> & _);
          [apply elem_of_app; by right | done]. }
    simpl. unfold OneHotEncoder_transform.
    destruct (decide _) as [Hsame|Hdiff]; simpl.
    + rewrite length_map in Hsame.
      destruct (lookup_lt_is_Some_2 (categories_ (one_hot_encoder s)) i) as [cat Hcat].
      { rewrite <- Hsame. by apply lookup_lt_Some in Hi. }
      destruct (one_hot_columns_unknown (categories_ (one_hot_encoder s))
                  (map (λ k, default VNone (df4 !! k)) one_hot_encode_cols)
                  0 i c' cat) as (what & k & Hraise).
      * rewrite list_lookup_fmap, Hi. simpl.
        rewrite H4out by (apply one_hot_not_label; by eapply list_elem_of_lookup_2).
        by rewrite Hcell.
      * done.
      * apply Hrej.
      * rewrite Hraise. simpl. eexists. split; [done |].
        intros _ _. right. by eexists _, _.
    + eexists. split; [done |]. intros [_ Hfit] _. exfalso. apply Hdiff.
      by rewrite length_map.
Qed.

(** X12: a categorical field that is [None] (a radio button of the form left
    unselected) is never encoded.  The [.str] accessor lets the missing
    value through, and the encoder of the column rejects it:
    [preprocess_data] raises, and [predict] returns the message instead of a
    prediction.  With the encoders fitted on the columns and the first two
    steps passing, the exception is the encoder's unknown-category error.
    For a label column whose encoder has a fixed-width table, the conversion
    to the dtype of the table turns the missing value into the word None,
    cut to the width of the table: the table is required not to hold that
    word. *)
Theorem empty_category_is_never_encoded (s : store) (data : frame) (col : string) :
  col ∈ (label_encode_cols ++ one_hot_encode_cols)%list →
  data !! col = Some VNone →
  (∀ le, label_encoders s !! col = Some le →
         classes_dtype le = dtype_str →
         truncate (itemsize (classes_ le)) "None" ∉ classes_ le) →
  ∃ e, (preprocess_data data s).1 = Raise e
       ∧ (predict_record data s).1 = Ok (str_exn e)
       ∧ (fitted_encoders s → normalised data → unknown_category e).
Proof.
  intros Hcol Hnone Htable.
  destruct (encode_rejected_cell s data col VNone VNone Hcol Hnone eq_refl)
    as (e & He & Hkind); [|done |].
  { intros le Hle. unfold column_or_1d.
    destruct (classes_dtype le) eqn:Hd; [done |]. simpl.
    apply index_of_not_elem_of. by apply Htable. }
  assert ((preprocess_data data s).1 = Raise e) as Hraise.
  { by rewrite preprocess_data_encode, He. }
  exists e. split; [done |]. split; [|done].
  by rewrite predict_record_eq, Hraise.
Qed.

#[local] Transparent label_encode_cols one_hot_encode_cols min_max_scale_cols.

Lemma empty_category_is_never_encoded_witness :
  let s := fixture_store fixture_scaler in
  let data := <["Partner" := VNone]> (scenario_record (VInt 600)) in
  ("Partner" ∈ (label_encode_cols ++ one_hot_encode_cols)%list
   ∧ data !! "Partner" = Some VNone
   ∧ (∀ le, label_encoders s !! "Partner" = Some le →
            classes_dtype le = dtype_str →
            truncate (itemsize (classes_ le)) "None" ∉ classes_ le))
  ∧ ∃ e, (preprocess_data data s).1 = Raise e
         ∧ (predict_record data s).1 = Ok (str_exn e)
         ∧ (fitted_encoders s → normalised data → unknown_category e).
Proof.
  assert ("Partner" ∈ (label_encode_cols ++ one_hot_encode_cols)%list) as Hcol.
  { apply (bool_decide_unpack _). vm_compute. reflexivity. }
  assert (∀ le, label_encoders (fixture_store fixture_scaler) !! "Partner" = Some le →
                classes_dtype le = dtype_str →
                truncate (itemsize (classes_ le)) "None" ∉ classes_ le) as Htable.
  { intros le Hle _.
    assert (label_encoders (fixture_store fixture_scaler) !! "Partner"
            = Some yes_no) as H0 by reflexivity.
    rewrite H0 in Hle. injection Hle as <-.
    apply (bool_decide_unpack _). vm_compute. reflexivity. }
  split; [split; [exact Hcol | split; [reflexivity | exact Htable]] |].
  apply (empty_category_is_never_encoded (fixture_store fixture_scaler)
           (<["Partner" := VNone]> (scenario_record (VInt 600))) "Partner").
  - exact Hcol.
  - reflexivity.
  - exact Htable.
Defined.

(** The scenario with the Contract radio left unselected, and with the
    Partner radio left unselected (the fixture's table for Partner is three
    characters wide). *)
Example scenario_Contract_unselected :
  (predict_record (<["Contract" := VNone]> (scenario_record (VInt 600)))
     (fixture_store fixture_scaler)).1
  = Ok "Found unknown categories [None] in column 8 during transform"
  ∧ (preprocess_data (<["Partner" := VNone]> (scenario_record (VInt 600)))
       (fixture_store fixture_scaler)).1
    = Raise (unseen_labels_error "'Non'").
Proof. split; by vm_compute. Qed.

#[local] Opaque label_encode_cols one_hot_encode_cols min_max_scale_cols.

(* ===================================================================== *)
(** ** The form *)
(* ===================================================================== *)

#[local] Transparent label_encode_cols one_hot_encode_cols min_max_scale_cols.

(** [record_keys] are the keys of the dictionary of [predict], in the order
    of its parameters. *)
Lemma input_record_keys
    (v1 v2 v3 v4 v5 v6 v7 v8 v9 v10 v11 v12 v13 v14 v15 v16 v17 v18 v19 : pyval) :
  input_record v1 v2 v3 v4 v5 v6 v7 v8 v9 v10 v11 v12 v13 v14 v15 v16 v17 v18 v19
  = list_to_map
      (zip record_keys
         [v1; v2; v3; v4; v5; v6; v7; v8; v9; v10; v11; v12; v13; v14; v15; v16;
          v17; v18; v19]).
Proof. reflexivity. Qed.

(** The values of a filled form, column by column: each categorical column
    holds one of the choices of its radio group, free of surrounding
    whitespace, and each numeric column a finite number. *)
Lemma filled_form_cells (values : list pyval) :
  Forall2 filled inputs values →
  ∃ run data,
    interface_fn values = Some run
    ∧ run = predict_record data
    ∧ Forall (λ col, ∃ c, data !! col = Some (VStr c)
                          ∧ c ∈ choices_of col ∧ strip c = c)
             (label_encode_cols ++ one_hot_encode_cols)%list
    ∧ Forall (valid_number data) min_max_scale_cols.
Proof.
  unfold inputs. intros H.
  repeat match goal with
         | H : Forall2 _ (_ :: _) _ |- _ =>
             apply Forall2_cons_inv_l in H as (? & ? & ? & H & ->)
         end.
  apply Forall2_nil_inv_l in H as ->.
  repeat match goal with
         | H : filled (Radio _ _) _ |- _ => destruct H as (? & H & ->)
         end.
  eexists _, _. split; [reflexivity |]. split; [reflexivity |]. split.
  - unfold label_encode_cols, one_hot_encode_cols. simpl.
    repeat (constructor;
            [eexists; split; [reflexivity |]; split; [assumption |];
             match goal with
             | |- strip ?c = ?c =>
                 match goal with
                 | H : c ∈ _ |- _ =>
                     repeat (apply elem_of_cons in H as [->|H]; [reflexivity |]);
                     by apply elem_of_nil in H
                 end
             end |]).
    constructor.
  - unfold min_max_scale_cols.
    repeat (constructor; [eexists; split; [reflexivity | assumption] |]).
    constructor.
Qed.

(** X13: every filled submission of the form is encoded.  The interface
    passes the nineteen values to [predict] in the order of its parameters;
    with transformers that know the form (each choice of a radio group is a
    category of the encoder of its column), the record is valid whichever
    choices are selected and whichever finite numbers are entered, and
    [preprocess_data] returns its feature vector: the form and the column
    lists of the encoder agree. *)
Theorem filled_form_is_encoded (s : store) (values : list pyval) :
  form_fitted s →
  Forall2 filled inputs values →
  ∃ run data,
    interface_fn values = Some run
    ∧ run = predict_record data
    ∧ valid_record s data
    ∧ (preprocess_data data s).1 = Ok (Spec.feature_vector s data).
Proof.
  intros (Hl & Ho & Hsc) Hvalues.
  destruct (filled_form_cells values Hvalues) as (run & data & Hrun & -> & Hcells & Hnum).
  rewrite Forall_forall in Hcells.
  assert (valid_record s data) as Hvalid.
  { split; [split |].
    - rewrite Forall_forall in Hl |- *. intros col Hcol.
      destruct (Hl col Hcol) as (le & Hle & Hsub).
      destruct (Hcells col) as (c & Hc & Hin & Hstrip); [apply elem_of_app; by left |].
      exists le. split; [done |]. exists c. split; [done |].
      rewrite Hstrip. by apply Hsub.
    - apply Forall2_same_length_lookup. split; [by apply Forall2_length in Ho |].
      intros i col cat Hcol Hcat.
      destruct (Hcells col) as (c & Hc & Hin & Hstrip).
      { apply elem_of_app. right. by eapply list_elem_of_lookup_2. }
      exists c. split; [done |]. rewrite Hstrip.
      by apply (Forall2_lookup_lr _ _ _ _ _ _ Ho Hcol Hcat).
    - done. }
  exists (predict_record data), data. split; [done |]. split; [done |].
  split; [done |]. by apply valid_record_feature_vector.
Qed.

Lemma fixture_knows_the_form : form_fitted (fixture_store fixture_scaler).
Proof.
  split; [|split].
  - unfold label_encode_cols.
    repeat (constructor;
            [eexists; split; [reflexivity |];
             apply (bool_decide_unpack _); by vm_compute |]).
    constructor.
  - unfold one_hot_encode_cols. simpl.
    repeat (constructor; [apply (bool_decide_unpack _); by vm_compute |]).
    constructor.
  - split; reflexivity.
Qed.

Lemma filled_form_is_encoded_witness :
  let s := fixture_store fixture_scaler in
  let values :=
    [VStr "Female"; VFloat (F64.of_Z 0); VStr "Yes"; VStr "No";
     VFloat (F64.of_Z 12); VStr "Yes"; VStr "No"; VStr "DSL"; VStr "Yes";
     VStr "No"; VStr "No"; VStr "No"; VStr "No"; VStr "No"; VStr "One year";
     VStr "No"; VStr "Mailed check"; VFloat (F64.of_Z 50);
     VFloat (F64.of_Z 600)] in
  (form_fitted s ∧ Forall2 filled inputs values)
  ∧ ∃ run data,
      interface_fn values = Some run
      ∧ run = predict_record data
      ∧ valid_record s data
      ∧ (preprocess_data data s).1 = Ok (Spec.feature_vector s data).
Proof.
  assert (Forall2 filled inputs
            [VStr "Female"; VFloat (F64.of_Z 0); VStr "Yes"; VStr "No";
             VFloat (F64.of_Z 12); VStr "Yes"; VStr "No"; VStr "DSL"; VStr "Yes";
             VStr "No"; VStr "No"; VStr "No"; VStr "No"; VStr "No"; VStr "One year";
             VStr "No"; VStr "Mailed check"; VFloat (F64.of_Z 50);
             VFloat (F64.of_Z 600)]) as Hvalues.
  { unfold inputs.
    repeat (constructor;
            [first [ reflexivity
                   | eexists; split; [|reflexivity];
                     apply (bool_decide_unpack _); vm_compute; reflexivity ] |]).
    constructor. }
  split; [split; [apply fixture_knows_the_form | exact Hvalues] |].
  apply (filled_form_is_encoded (fixture_store fixture_scaler) _
           fixture_knows_the_form Hvalues).
Defined.

#[local] Opaque label_encode_cols one_hot_encode_cols min_max_scale_cols.

(* ===================================================================== *)
(** ** A missing number in any numeric field; keys the encoder ignores *)
(* ===================================================================== *)

(** X14: a missing number is never imputed.  With the categorical fields
    within their domains, the scaler fitted on the three numeric columns and
    no numeric field read as an infinity, a numeric field that reads as NaN
    ([None], the one-space string, NaN itself or the string "nan"),
    whichever of the three numeric columns it is, stays NaN through the
    imputation and the scaler: [preprocess_data] raises nothing, and entry
    [5 + i] of the vector it returns is NaN. *)
Theorem missing_number_stays_missing (s : store) (data : frame) (i : nat)
    (col : string) :
  valid_categories s data →
  Forall (λ k, ∃ y, reads_as data k y ∧ F64.isinf y = false) min_max_scale_cols →
  fitted_scaler s →
  min_max_scale_cols !! i = Some col →
  reads_as data col F64.nan →
  ∃ X, (preprocess_data data s).1 = Ok X
       ∧ X !! (5 + i)%nat = Some F64.nan.
Proof.
  intros Hcat Hnum [Hs Hm] Hcol Hx. rewrite Forall_forall in Hnum.
  destruct (reads_as_function data) as (h & Hfun).
  assert (∀ k, k ∈ min_max_scale_cols →
               reads_as data k (h k) ∧ F64.isinf (h k) = false) as Hh.
  { intros k Hk. destruct (Hnum k Hk) as (y & Hy & Hfin).
    by rewrite (Hfun k y Hy). }
  pose proof (Hfun col F64.nan Hx) as Hnan.
  destruct (encode_reads s data h Hcat) as (df4 & Henc).
  { intros k Hk. by apply Hh. }
  assert (MinMaxScaler_transform (min_max_scaler s)
            (map (λ c, VFloat (h c)) min_max_scale_cols)
          = Ok (zip_with F64.add
                  (zip_with F64.mul (map h min_max_scale_cols)
                     (scale_ (min_max_scaler s)))
                  (min_ (min_max_scaler s)))) as Hscaled.
  { unfold MinMaxScaler_transform.
    rewrite map_res_map, (map_res_ok _ h) by done. simpl.
    unfold assert_all_finite. simpl.
    destruct (existsb F64.isinf (map h min_max_scale_cols)) eqn:Hinf.
    { apply existsb_exists in Hinf as (y & Hin & Hy).
      apply in_map_iff in Hin as (k & <- & Hk).
      apply list_elem_of_In in Hk. destruct (Hh k Hk) as [_ Hfin]. congruence. }
    simpl. unfold check_n_features. rewrite length_map.
    by rewrite decide_True by done. }
  rewrite Hscaled in Henc. simpl in Henc.
  eexists. split; [by rewrite preprocess_data_encode, Henc |].
  pose proof (lookup_lt_Some _ _ _ Hcol) as Hi.
  destruct (lookup_lt_is_Some_2 (scale_ (min_max_scaler s)) i) as [sc Hsc];
    [by rewrite Hs |].
  destruct (lookup_lt_is_Some_2 (min_ (min_max_scaler s)) i) as [m Hmin];
    [by rewrite Hm |].
  assert (length label_encode_cols = 5%nat) as Hl5 by reflexivity.
  rewrite lookup_app_r; unfold Spec.label_block; rewrite length_map, Hl5; [|lia].
  replace (5 + i - 5)%nat with i by lia.
  rewrite lookup_app_l.
  2:{ rewrite !length_zip_with, length_map, Hs, Hm. lia. }
  rewrite !lookup_zip_with, list_lookup_fmap, Hcol, Hsc, Hmin. simpl.
  by rewrite Hnan.
Qed.

(** X15: a key of the record that is not one of the eighteen columns the
    encoder names has no influence on the result: setting it to any value,
    or removing it, gives the same feature vector or the same exception.
    SeniorCitizen is such a key; a record without it is encoded all the
    same. *)
Theorem other_keys_are_ignored (data : frame) (s : store) (k : string) (v : pyval) :
  k ∉ used_cols →
  (preprocess_data (<[k := v]> data) s).1 = (preprocess_data data s).1
  ∧ (preprocess_data (delete k data) s).1 = (preprocess_data data s).1.
Proof.
  intros Hk. split; apply rel_res_eq.
  - apply (preprocess_data_agree (<[k := v]> data) data); [|done].
    intros c Hc. apply lookup_insert_ne. by intros <-.
  - apply (preprocess_data_agree (delete k data) data); [|done].
    intros c Hc. apply lookup_delete_ne. by intros <-.
Qed.

(** X16: the width of the vector and the classifier must agree.  When the
    classifier was fitted on a number of features other than the width
    5 + 3 + one-hot width of the vector, no valid record is ever classified:
    the classifier's validation raises and [predict] returns the message of
    the error. *)
Theorem width_mismatch_is_an_error (s : store) (data : frame) :
  valid_record s data →
  length (coef_ (model s)) ≠ (5 + 3 + Spec.one_hot_width s)%nat →
  ∃ e, LogisticRegression_predict (model s) (Spec.feature_vector s data) = Raise e
       ∧ input_error e
       ∧ (predict_record data s).1 = Ok (str_exn e).
Proof.
  intros Hvalid Hwidth.
  destruct (valid_record_feature_vector s data Hvalid) as (HX & _ & _ & _ & Hlen).
  assert (∃ e, LogisticRegression_predict (model s) (Spec.feature_vector s data)
               = Raise e ∧ input_error e) as (e & He & Hin).
  { unfold LogisticRegression_predict, assert_all_finite, check_n_features.
    simpl. destruct (existsb F64.isnan _); simpl; [by eexists |].
    destruct (existsb F64.isinf _); simpl; [by eexists |].
    rewrite decide_False by (rewrite Hlen; congruence). simpl. by eexists. }
  exists e. split; [done |]. split; [done |].
  by rewrite predict_record_eq, HX, He.
Qed.

#[local] Transparent label_encode_cols one_hot_encode_cols min_max_scale_cols.

Lemma missing_number_stays_missing_witness :
  let s := fixture_store fixture_scaler in
  let data := <["tenure" := VNone]> (scenario_record (VInt 600)) in
  (valid_categories s data
   ∧ Forall (λ k, ∃ y, reads_as data k y ∧ F64.isinf y = false) min_max_scale_cols
   ∧ fitted_scaler s
   ∧ min_max_scale_cols !! 0%nat = Some "tenure"
   ∧ reads_as data "tenure" F64.nan)
  ∧ ∃ X, (preprocess_data data s).1 = Ok X
         ∧ X !! 5%nat = Some F64.nan.
Proof.
  assert (valid_categories (fixture_store fixture_scaler)
            (<["tenure" := VNone]> (scenario_record (VInt 600)))) as Hcat.
  { split.
    - unfold label_encode_cols.
      repeat (constructor;
              [eexists; split; [reflexivity |];
               eexists; split; [reflexivity |];
               apply (bool_decide_unpack _); by vm_compute |]).
      constructor.
    - unfold one_hot_encode_cols. simpl.
      repeat (constructor;
              [eexists; split; [reflexivity |];
               apply (bool_decide_unpack _); by vm_compute |]).
      constructor. }
  assert (Forall (λ k, ∃ y, reads_as (<["tenure" := VNone]> (scenario_record (VInt 600)))
                              k y ∧ F64.isinf y = false)
            min_max_scale_cols) as Hnum.
  { unfold min_max_scale_cols.
    repeat (constructor;
            [eexists; split; [eexists; split; reflexivity | reflexivity] |]).
    constructor. }
  assert (fitted_scaler (fixture_store fixture_scaler)) as Hsc
    by (split; reflexivity).
  assert (reads_as (<["tenure" := VNone]> (scenario_record (VInt 600))) "tenure"
            F64.nan) as Hx.
  { eexists. split; reflexivity. }
  split.
  { split; [exact Hcat |]. split; [exact Hnum |]. split; [exact Hsc |].
    split; [reflexivity | exact Hx]. }
  apply (missing_number_stays_missing (fixture_store fixture_scaler)
           (<["tenure" := VNone]> (scenario_record (VInt 600))) 0%nat "tenure").
  - exact Hcat.
  - exact Hnum.
  - exact Hsc.
  - reflexivity.
  - exact Hx.
Defined.

Lemma other_keys_are_ignored_witness :
  let data := scenario_record (VInt 600) in
  let s := fixture_store fixture_scaler in
  ("SeniorCitizen" ∉ used_cols)
  ∧ (preprocess_data (<["SeniorCitizen" := VStr "yes"]> data) s).1
    = (preprocess_data data s).1
  ∧ (preprocess_data (delete "SeniorCitizen" data) s).1 = (preprocess_data data s).1.
Proof.
  split; [exact SeniorCitizen_unused |].
  exact (other_keys_are_ignored (scenario_record (VInt 600))
           (fixture_store fixture_scaler) "SeniorCitizen" (VStr "yes")
           SeniorCitizen_unused).
Defined.

(** The fixture with a classifier fitted on three features. *)
Lemma width_mismatch_is_an_error_witness :
  let sc := fixture_scaler in
  let s :=
    {| label_encoders := label_encoders (fixture_store sc);
       one_hot_encoder := fixture_one_hot;
       min_max_scaler := sc;
       model := {| coef_ := map F64.of_Z [1; 2; 3];
                   intercept_ := F64.zero;
                   model_classes_ := [0; 1] |};
       le_target := yes_no;
       stdout := [] |} in
  let data := scenario_record (VInt 600) in
  (valid_record s data
   ∧ length (coef_ (model s)) ≠ (5 + 3 + Spec.one_hot_width s)%nat)
  ∧ ∃ e, LogisticRegression_predict (model s) (Spec.feature_vector s data) = Raise e
         ∧ input_error e
         ∧ (predict_record data s).1 = Ok (str_exn e).
Proof.
  cbv zeta.
  match goal with
  | |- (valid_record ?s ?d ∧ ?w) ∧ _ =>
      assert (valid_record s d) as Hvalid;
      [ destruct (scenario_valid 600 eq_refl) as (Hcat & Hnum & Hsc);
        split; [exact Hcat | split; [exact Hnum | exact Hsc]]
      | assert w as Hwidth by (vm_compute; discriminate);
        split; [split; [exact Hvalid | exact Hwidth] |];
        exact (width_mismatch_is_an_error s d Hvalid Hwidth) ]
  end.
Defined.

#[local] Opaque label_encode_cols one_hot_encode_cols min_max_scale_cols.
